(** * olap-demos: the synthetic star-schema generator, its validators and
      the partition-key model, embedded from the Python sources

    Embedded modules:
    - [src/models/facts.py]: [SalesFact], [extract_partition_keys],
      [partition_path], [validate_sales_fact],
      [calculate_derived_measures];
    - [src/storage/partition_manager.py]: [extract_year_quarter],
      [add_partition_columns], [parse_partition_path],
      [build_partition_path], [filter_partitions], [validate_partitions];
    - [src/datagen/generator.py]: [DataGenerator], [generate_dim_product],
      [generate_dim_customer], [generate_sales_fact],
      [_create_pareto_weights], [_create_recency_weights];
    - [src/datagen/schemas.py]: [check_referential_integrity],
      [validate_time_dimension], [validate_fact_measures],
      [validate_dimension_unique_keys], [validate_scd_type2].

    Conventions of the embedding:
    - a Python [int] is a [Z]; a Python [float] is an exact rational [Q]
      (no NaN, no infinities, no binary rounding), compared with [==];
      [round(x, 2)] is rounding to the nearest hundredth, ties to even, and
      [int(n * 0.2)] is the integer part of [n / 5]. A result that turns on
      a comparison of amounts with a tolerance is stated with a margin
      around the tolerance and a bound on the amounts, wide enough for the
      rounding of binary floats, so that it holds of the floats of the code
      as of the rationals;
    - a Python exception is a value of [exn]; a call that can raise returns
      a [res];
    - the three pseudo-random streams the code draws from (the [random]
      module, Faker's generator, numpy's global generator used by
      [DataFrame.sample]) and the system clock read by [date.today()] form
      the ambient [World]; the generators are state transformers on it, and
      the generators behind the streams are a parameter ([RandomStream]);
    - a [pandas.DataFrame] handed to a validator is a mutable object: the
      validators are state transformers on the frames they receive;
    - calls into pandas, numpy and the standard library ([DataFrame.sample],
      [Series.dt], [random.choices], [str.split], ...) are embedded from the
      documented behaviour of those libraries, as far as the code uses it. *)

From Stdlib Require Import ZArith QArith Qround Qabs Qfield Lqa List Lia Bool.
From Stdlib Require Import Strings.String Strings.Ascii Numbers.DecimalString Numbers.DecimalZ.
From stdpp Require Import gmap strings list fin_maps sorting.

Local Open Scope string_scope.
Local Open Scope Z_scope.

(* ===================================================================== *)
(** ** Python values, exceptions and results *)
(* ===================================================================== *)

(** The exceptions the embedded code and the library calls it makes can
    raise; the payload is the message (or the missing key). [NotModelled]
    marks library behaviour this embedding does not describe; no result
    below relies on it. *)
Inductive exn : Type :=
| ValueError (msg : string)
| IndexError (msg : string)
| KeyError (key : string)
| TypeError (msg : string)
| AttributeError (msg : string)
| AssertionError (msg : string)
| ZeroDivisionError
| NotModelled (what : string).

Inductive res (A : Type) : Type :=
| Ok (a : A)
| Raise (e : exn).
Arguments Ok {A} a.
Arguments Raise {A} e.

Definition res_bind {A B} (r : res A) (k : A → res B) : res B :=
  match r with
  | Ok a => k a
  | Raise e => Raise e
  end.

(** [datetime.date]: the three fields the code reads. *)
Record date : Type := mkdate { year : Z; month : Z; day : Z }.

Global Instance date_eq_dec : EqDecision date.
Proof. solve_decision. Defined.

(** A [datetime]: a date and a time of day. *)
Record datetime : Type := mkdatetime {
  dt_date : date;
  hour : Z;
  minute : Z;
  second : Z;
}.

Global Instance datetime_eq_dec : EqDecision datetime.
Proof. solve_decision. Defined.

(** A cell of a [DataFrame]. *)
Inductive value : Type :=
| VInt (z : Z)
| VFloat (q : Q)
| VStr (s : string)
| VBool (b : bool)
| VDate (d : date)
| VTimestamp (t : datetime).

(** [str(n)] for an [int]. *)
Definition pystr (z : Z) : string := NilZero.string_of_int (Z.to_int z).

(* ===================================================================== *)
(** ** Strings: the [str] methods the code calls *)
(* ===================================================================== *)

(** [c in s] for a one-character [c]. *)
Fixpoint char_in (c : ascii) (s : string) : bool :=
  match s with
  | EmptyString => false
  | String a r => if Ascii.eqb a c then true else char_in c r
  end.

(** [s.split(sep)] for a one-character separator: never an empty list. *)
Fixpoint str_split (sep : ascii) (s : string) : list string :=
  match s with
  | EmptyString => [EmptyString]
  | String a r =>
      if Ascii.eqb a sep then EmptyString :: str_split sep r
      else match str_split sep r with
           | h :: t => String a h :: t
           | [] => [String a EmptyString]
           end
  end.

(** [s.split(sep, 1)] on a string that contains [sep]: the text before the
    first separator and the text after it. *)
Fixpoint str_split_first (sep : ascii) (s : string) : string * string :=
  match s with
  | EmptyString => (EmptyString, EmptyString)
  | String a r =>
      if Ascii.eqb a sep then (EmptyString, r)
      else let '(k, v) := str_split_first sep r in (String a k, v)
  end.

(* ===================================================================== *)
(** ** DataFrames *)
(* ===================================================================== *)

(** A frame is its columns, in order, each a list of cells. *)
Definition DataFrame (V : Type) : Type := list (string * list V).

(** [df[col]]: [KeyError] when the column is missing. *)
Fixpoint df_getitem {V} (df : DataFrame V) (col : string) : res (list V) :=
  match df with
  | [] => Raise (KeyError col)
  | (c, s) :: rest => if String.eqb c col then Ok s else df_getitem rest col
  end.

(** [df[col] = s]: replaces the column where it stands, or appends it. *)
Fixpoint df_setitem {V} (df : DataFrame V) (col : string) (s : list V) : DataFrame V :=
  match df with
  | [] => [(col, s)]
  | (c, s0) :: rest =>
      if String.eqb c col then (c, s) :: rest
      else (c, s0) :: df_setitem rest col s
  end.

(** [df.columns]. *)
Definition df_columns {V} (df : DataFrame V) : list string := map fst df.

(** [mapM] on [res]: the first exception wins. *)
Fixpoint res_mapM {A B} (f : A → res B) (l : list A) : res (list B) :=
  match l with
  | [] => Ok []
  | x :: r => res_bind (f x) (λ y, res_bind (res_mapM f r) (λ ys, Ok (y :: ys)))
  end.

(* ===================================================================== *)
(** ** The partition-key model *)
(* ===================================================================== *)

(** The quarter label both modules build: [f"Q{(month - 1) // 3 + 1}"]. *)
Definition quarter_label (m : Z) : string := "Q" ++ pystr ((m - 1) / 3 + 1).

Module Facts.

(** models/facts.py, [extract_partition_keys]: a [dict[str, str]]. *)
Definition extract_partition_keys (transaction_date : date) : gmap string string :=
  let y := year transaction_date in
  let quarter_num := (month transaction_date - 1) / 3 + 1 in
  let quarter := "Q" ++ pystr quarter_num in
  <["quarter" := quarter]> (<["year" := pystr y]> ∅).

(** models/facts.py, [partition_path]; [keys['year']] and [keys['quarter']]
    read the two entries [extract_partition_keys] has just set. *)
Definition partition_path (transaction_date : date) (base_path : string) : string :=
  let keys := extract_partition_keys transaction_date in
  base_path ++ "/year=" ++ (keys !!! "year") ++ "/quarter=" ++ (keys !!! "quarter").

Definition default_base_path : string := "data/parquet/sales_fact".

End Facts.

Module PartitionManager.

(** storage/partition_manager.py, [extract_year_quarter]. *)
Definition extract_year_quarter (transaction_date : date) : Z * string :=
  let y := year transaction_date in
  let quarter := "Q" ++ pystr ((month transaction_date - 1) / 3 + 1) in
  (y, quarter).

(** [pd.to_datetime] on a cell: a [date] becomes the timestamp of its
    midnight, a timestamp stays what it is. Parsing of strings and
    conversion of epoch numbers are not described. *)
Definition to_datetime (v : value) : res value :=
  match v with
  | VDate d => Ok (VTimestamp (mkdatetime d 0 0 0))
  | VTimestamp t => Ok (VTimestamp t)
  | _ => Raise (NotModelled "pd.to_datetime on a cell that is not a date")
  end.

(** pandas, [Series.dt]: only for datetime-like cells, which [date]
    objects are not. *)
Definition dt_accessor (v : value) : res date :=
  match v with
  | VTimestamp t => Ok (dt_date t)
  | _ => Raise (AttributeError "Can only use .dt accessor with datetimelike values")
  end.

(** pandas, [Series.dt.quarter]: the quarter number of the date, 1 to 4. *)
Definition dt_quarter (d : date) : Z := (month d - 1) / 3 + 1.

(** storage/partition_manager.py, [add_partition_columns]. It works on
    [df.copy()], so the frame it received is left as it was and the new
    frame is its result. A column of [date] objects is not of a datetime
    dtype, so the conversion branch is the one taken and the column holds
    timestamps from then on; on a column of timestamps the conversion is
    skipped, which is what [to_datetime] amounts to on it. *)
Definition add_partition_columns (df : DataFrame value) (date_column : string)
  : res (DataFrame value) :=
  res_bind (df_getitem df date_column) (λ col,
  res_bind (res_mapM to_datetime col) (λ converted,
  let df := df_setitem df date_column converted in
  res_bind (df_getitem df date_column) (λ col,
  res_bind (res_mapM dt_accessor col) (λ dates,
  let df := df_setitem df "year" (map (λ d, VInt (year d)) dates) in
  res_bind (df_getitem df date_column) (λ col,
  res_bind (res_mapM dt_accessor col) (λ dates,
  let df := df_setitem df "quarter"
              (map (λ q, VStr ("Q" ++ pystr q)) (map dt_quarter dates)) in
  Ok df)))))).

(** storage/partition_manager.py, [parse_partition_path]. *)
Definition parse_partition_path (partition_path : string) : gmap string string :=
  foldl (λ partitions part,
           if char_in "=" part
           then let '(key, value) := str_split_first "=" part in
                <[key := value]> partitions
           else partitions)
        ∅ (str_split "/" partition_path).

End PartitionManager.

(** *** The partition key, place by place *)

(** The (year, quarter) pair each place yields for a date, as the Python
    values they are. *)
Definition key_of_extract_partition_keys (d : date) : value * value :=
  let keys := Facts.extract_partition_keys d in
  (VStr (keys !!! "year"), VStr (keys !!! "quarter")).

Definition key_of_extract_year_quarter (d : date) : value * value :=
  let '(y, q) := PartitionManager.extract_year_quarter d in (VInt y, VStr q).

(** The row of a one-row frame at the given columns. *)
Definition first_cell (df : DataFrame value) (c : string) : res value :=
  res_bind (df_getitem df c) (λ s,
    match s with
    | v :: _ => Ok v
    | [] => Raise (IndexError "single positional indexer is out-of-bounds")
    end).

Definition key_of_add_partition_columns (d : date) : res (value * value) :=
  res_bind (PartitionManager.add_partition_columns
              [("transaction_date", [VDate d])] "transaction_date") (λ df,
  res_bind (first_cell df "year") (λ y,
  res_bind (first_cell df "quarter") (λ q, Ok (y, q)))).

(** The invariant as the specification words it: the three places yield
    the same year value and the same quarter string. *)
Definition partition_key_identical_everywhere (d : date) : Prop :=
  let q := VStr ("Q" ++ pystr ((month d - 1) / 3 + 1)) in
  ∃ y : value,
    key_of_extract_partition_keys d = (y, q) ∧
    key_of_extract_year_quarter d = (y, q) ∧
    key_of_add_partition_columns d = Ok (y, q).

(* ===================================================================== *)
(** ** Numbers *)
(* ===================================================================== *)

(** [round(x)]: the nearest integer, a tie going to the even one. *)
Definition round_half_even (x : Q) : Z :=
  let f := Qfloor x in
  match Qcompare (x - inject_Z f) 0.5 with
  | Lt => f
  | Gt => f + 1
  | Eq => if Z.even f then f else f + 1
  end.

(** [round(x, 2)]. *)
Definition round2 (x : Q) : Q := (inject_Z (round_half_even (x * 100)) / 100)%Q.

(** [int(x)] on a float: truncation toward zero. *)
Definition py_int (x : Q) : Z :=
  if Qle_bool 0 x then Qfloor x else Qceiling x.

(** [a / b] on floats. *)
Definition py_div (a b : Q) : res Q :=
  if Qeq_bool b 0 then Raise ZeroDivisionError else Ok (a / b)%Q.

(** [range(n)]; empty for [n <= 0]. *)
Definition range (n : Z) : list Z := map Z.of_nat (seq 0 (Z.to_nat n)).

(** [range(a, b)]. *)
Definition range_from (a b : Z) : list Z :=
  map (λ i, a + Z.of_nat i) (seq 0 (Z.to_nat (b - a))).

(** [sum(l)] on floats. *)
Definition sum_Q (l : list Q) : Q := foldr Qplus 0%Q l.

(* ===================================================================== *)
(** ** datagen/generator.py: the weight model *)
(* ===================================================================== *)

(** [_create_pareto_weights]. *)
Definition _create_pareto_weights (n : Z) (factor : Q) : res (list Q) :=
  let top_20_pct := Z.max 1 (py_int (inject_Z n * 0.2)) in
  res_mapM (λ i,
              if i <? top_20_pct
              then py_div factor (inject_Z top_20_pct)
              else py_div (1 - factor) (inject_Z (n - top_20_pct)))
           (range n).

(** [_create_recency_weights]. *)
Definition _create_recency_weights (n : Z) : list Z :=
  map (λ i, i + 1) (range n).


(* ===================================================================== *)
(** ** The star schema: rows of the dimension and fact tables *)
(* ===================================================================== *)

(** A row of [dim_product] (SCD Type 2). *)
Module DimProduct.
Record row : Type := mk {
  product_key : Z;
  product_id : string;
  product_name : string;
  category : string;
  subcategory : string;
  brand : string;
  unit_cost : Q;
  unit_price : Q;
  effective_date : date;
  expiration_date : date;
  is_current : bool;
}.
End DimProduct.

(** A row of [dim_customer]; dates of birth and of registration are held
    as ordinals ([date.toordinal()]), the form in which
    [date.today() - timedelta(days=n)] is computed. *)
Module DimCustomer.
Record row : Type := mk {
  customer_key : Z;
  customer_id : string;
  first_name : string;
  last_name : string;
  email : string;
  phone : string;
  date_of_birth : Z;
  gender : string;
  income_segment : string;
  customer_segment : string;
  registration_date : Z;
  is_active : bool;
}.
End DimCustomer.

(** The columns of [dim_time], [dim_geography] and [dim_payment] that fact
    generation reads. *)
Module DimTime.
Record row : Type := mk { time_key : Z; date : date }.
End DimTime.

Module DimGeography.
Record row : Type := mk { geo_key : Z }.
End DimGeography.

Module DimPayment.
Record row : Type := mk { payment_key : Z }.
End DimPayment.

(** models/facts.py, [SalesFact]: a row of the fact table. *)
Module SalesFact.
Record row : Type := mk {
  transaction_id : Z;
  line_item_id : Z;
  transaction_date : date;
  transaction_timestamp : datetime;
  time_key : Z;
  geo_key : Z;
  product_key : Z;
  customer_key : Z;
  payment_key : Z;
  quantity : Z;
  unit_price : Q;
  revenue : Q;
  cost : Q;
  discount_amount : Q;
  profit : Q;
}.
End SalesFact.

(* ===================================================================== *)
(** ** The ambient world of a generation run *)
(* ===================================================================== *)

(** A pseudo-random stream, as far as the code uses [random.Random]: it is
    seeded, it yields floats in [0, 1) ([random()]), integers below a bound
    ([_randbelow(n)], behind [randint] and [choice]) and, for Faker's
    providers, strings. The generator behind it (Mersenne Twister, numpy's
    bit generator) is a parameter. *)
Class RandomStream : Type := {
  stream : Type;
  seed_stream : Z → stream;
  next_random : stream → Q * stream;
  next_below : Z → stream → Z * stream;
  next_text : string → stream → string * stream;
  next_random_range : ∀ s, (0 <= fst (next_random s))%Q ∧ (fst (next_random s) < 1)%Q;
  next_below_range : ∀ n s, 0 < n → 0 <= fst (next_below n s) < n;
}.

Section Generators.
Context {RS : RandomStream}.

(** What a generator call can read and change besides its arguments: the
    state of the [random] module, of Faker's shared generator and of numpy's
    global generator, and the day [date.today()] answers (as the proleptic
    Gregorian ordinal of that date, [date.toordinal()]). *)
Record World : Type := mkWorld {
  py_random : stream;
  faker_random : stream;
  np_random : stream;
  today : Z;
}.

(** A computation in the world that returns or raises. *)
Definition Gen (A : Type) : Type := World → res A * World.

Definition ret {A} (a : A) : Gen A := λ w, (Ok a, w).

Definition raise {A} (e : exn) : Gen A := λ w, (Raise e, w).

Definition bind {A B} (m : Gen A) (k : A → Gen B) : Gen B :=
  λ w, match m w with
       | (Ok a, w') => k a w'
       | (Raise e, w') => (Raise e, w')
       end.

Notation "'let*' x ':=' m 'in' k" := (bind m (λ x, k))
  (at level 10, x name, m at level 100, k at level 200, only parsing).
Notation "'let*' ' p ':=' m 'in' k" := (bind m (λ x, let 'p := x in k))
  (at level 10, p pattern, m at level 100, k at level 200, only parsing).

(** A result computed without the world. *)
Definition lift {A} (r : res A) : Gen A := λ w, (r, w).

(** [for x in l: s = body(s, x)]. *)
Fixpoint for_each {A S} (l : list A) (body : S → A → Gen S) (s : S) : Gen S :=
  match l with
  | [] => ret s
  | x :: r => let* s' := body s x in for_each r body s'
  end.

(** *** The [random] module *)

(** [random.random()]. *)
Definition random_random : Gen Q :=
  λ w, let '(u, s) := next_random (py_random w) in
       (Ok u, mkWorld s (faker_random w) (np_random w) (today w)).

(** [random._randbelow(n)]. *)
Definition random_randbelow (n : Z) : Gen Z :=
  λ w, let '(i, s) := next_below n (py_random w) in
       (Ok i, mkWorld s (faker_random w) (np_random w) (today w)).

(** [random.uniform(a, b)]: [a + (b - a) * random()]. *)
Definition random_uniform (a b : Q) : Gen Q :=
  let* u := random_random in ret (a + (b - a) * u)%Q.

(** [random.randint(a, b)]. *)
Definition random_randint (a b : Z) : Gen Z :=
  if b <? a then raise (ValueError "empty range for randrange()")
  else let* i := random_randbelow (b - a + 1) in ret (a + i).

(** [seq[i]]. *)
Definition list_getitem {A} (l : list A) (i : Z) : res A :=
  if i <? 0 then Raise (IndexError "list index out of range")
  else match nth_error l (Z.to_nat i) with
       | Some x => Ok x
       | None => Raise (IndexError "list index out of range")
       end.

(** [random.choice(seq)]. *)
Definition random_choice {A} (l : list A) : Gen A :=
  match l with
  | [] => raise (IndexError "Cannot choose from an empty sequence")
  | _ => let* i := random_randbelow (Z.of_nat (length l)) in lift (list_getitem l i)
  end.

(** [itertools.accumulate(weights)]. *)
Fixpoint accumulate (acc : Q) (weights : list Q) : list Q :=
  match weights with
  | [] => []
  | x :: r => (acc + x)%Q :: accumulate (acc + x)%Q r
  end.

(** [bisect.bisect(a, x, 0, hi)] on a sorted list: the first position
    below [hi] whose entry exceeds [x], or [hi]. *)
Fixpoint bisect (a : list Q) (x : Q) (hi : nat) : nat :=
  match hi, a with
  | S h, c :: r => if Qle_bool c x then S (bisect r x h) else O
  | _, _ => O
  end.

(** [random.choices(population, weights=weights, k=1)[0]]. *)
Definition random_choices {A} (population : list A) (weights : list Q) : Gen A :=
  let n := length population in
  let cum_weights := accumulate 0 weights in
  if negb (Nat.eqb (length cum_weights) n)
  then raise (ValueError "The number of weights does not match the population")
  else match last cum_weights with
       | None => raise (IndexError "list index out of range")
       | Some total =>
           if Qle_bool total 0
           then raise (ValueError "Total of weights must be greater than zero")
           else let* u := random_random in
                lift (list_getitem population
                        (Z.of_nat (bisect cum_weights (u * total)%Q (n - 1))))
       end.

(** *** Faker *)

(** A provider call on [generator.faker], such as [faker.color_name()]. *)
Definition faker_call (provider : string) : Gen string :=
  λ w, let '(t, s) := next_text provider (faker_random w) in
       (Ok t, mkWorld (py_random w) s (np_random w) (today w)).

(** *** pandas and numpy *)

(** [df.sample(n=1).iloc[0]] and [df.sample(n=1, weights=w).iloc[0]]: one
    row drawn with numpy's global generator; an empty frame, weights of the
    wrong length and weights that sum to zero are refused. *)
Definition df_sample {A} (rows : list A) (weights : option (list Q)) : Gen A :=
  match rows with
  | [] => raise (ValueError "Cannot take a larger sample than population when 'replace=False'")
  | _ =>
    match weights with
    | None =>
        λ w, let '(i, s) := next_below (Z.of_nat (length rows)) (np_random w) in
             (list_getitem rows i, mkWorld (py_random w) (faker_random w) s (today w))
    | Some ws =>
        if negb (Nat.eqb (length ws) (length rows))
        then raise (ValueError "Weights and axis to be sampled must be of same length")
        else if existsb (λ x, negb (Qle_bool 0 x)) ws
        then raise (ValueError "weight vector many not include negative values")
        else
          let cum := accumulate 0 ws in
          match last cum with
          | None => raise (ValueError "Invalid weights: weights sum to zero")
          | Some total =>
              if Qle_bool total 0
              then raise (ValueError "Invalid weights: weights sum to zero")
              else
                λ w, let '(u, s) := next_random (np_random w) in
                     (list_getitem rows
                        (Z.of_nat (bisect cum (u * total)%Q (length rows - 1))),
                      mkWorld (py_random w) (faker_random w) s (today w))
          end
    end
  end.

(** *** The clock *)

(** [date.today()], as an ordinal. *)
Definition date_today : Gen Z := λ w, (Ok (today w), w).

(** *** datagen/generator.py, [DataGenerator] *)

(** [DataGenerator(seed)]: [Faker.seed(seed)] and [random.seed(seed)].
    Nothing else is seeded. *)
Definition DataGenerator (seed : Z) : Gen unit :=
  λ w, (Ok tt, mkWorld (seed_stream seed) (seed_stream seed) (np_random w) (today w)).


(** *** Formatting *)

(** [s.rjust(width, "0")] on a digit string. *)
Definition zero_pad (width : nat) (s : string) : string :=
  string_of_list_ascii (repeat "0"%char (width - String.length s)) ++ s.

(** [f"{n:0{width}d}"]: the sign first, then zeros up to the width. *)
Definition format_0d (width : nat) (n : Z) : string :=
  if n <? 0 then "-" ++ zero_pad (width - 1) (pystr (- n))
  else zero_pad width (pystr n).

(** [needle in s] for strings. *)
Definition str_contains (needle s : string) : bool :=
  match String.index 0 needle s with
  | Some _ => true
  | None => false
  end.

(** [a < b] and [a > b] on floats. *)
Definition Qlt_bool (a b : Q) : bool := negb (Qle_bool b a).

(** *** datagen/generator.py, [generate_dim_product] *)

Definition categories : list (string * list string) :=
  [ ("Electronics", ["Smartphones"; "Laptops"; "Tablets"; "Accessories"]);
    ("Clothing", ["Mens"; "Womens"; "Kids"; "Accessories"]);
    ("Home & Garden", ["Furniture"; "Decor"; "Kitchen"; "Outdoor"]);
    ("Sports", ["Equipment"; "Apparel"; "Footwear"; "Accessories"]);
    ("Books", ["Fiction"; "Non-Fiction"; "Educational"; "Comics"]) ].

(** [categories[category]]. *)
Fixpoint categories_getitem (d : list (string * list string)) (k : string)
  : res (list string) :=
  match d with
  | [] => Raise (KeyError k)
  | (k0, v) :: r => if String.eqb k0 k then Ok v else categories_getitem r k
  end.

Definition brands : list string :=
  ["BrandA"; "BrandB"; "BrandC"; "BrandD"; "BrandE"; "BrandF"; "BrandG"].

Definition historical_date : date := mkdate 2022 1 1.
Definition current_date : date := mkdate 2024 1 1.
Definition far_future : date := mkdate 9999 12 31.

(** The body of the loop over [product_idx]; the loop state is the pair
    of [records] and [product_key]. *)
Definition generate_dim_product_body (change_rate : Q)
    (st : list DimProduct.row * Z) (product_idx : Z) : Gen (list DimProduct.row * Z) :=
  let '(records, product_key) := st in
  let product_id := "PROD-" ++ format_0d 5 (product_idx + 1) in
  let* category := random_choice (map fst categories) in
  let* subcategories := lift (categories_getitem categories category) in
  let* subcategory := random_choice subcategories in
  let* brand := random_choice brands in
  let* color := faker_call "color_name" in
  let product_name := brand ++ " " ++ subcategory ++ " " ++ color in
  let* u1 := random_uniform 5.0 200.0 in
  let unit_cost := round2 u1 in
  let* u2 := random_uniform 1.3 2.5 in
  let unit_price := round2 (unit_cost * u2) in
  let* r := random_random in
  let has_change := Qlt_bool r change_rate in
  let* '(records, product_key) :=
    (if has_change then
       let* u3 := random_uniform 0.8 1.2 in
       let old_price := round2 (unit_price * u3) in
       let* u4 := random_uniform 1.3 2.5 in
       let* q := lift (py_div old_price u4) in
       let old_cost := round2 q in
       let historical_record :=
         DimProduct.mk product_key product_id product_name category subcategory
                      brand old_cost old_price historical_date current_date false in
       ret ((records ++ [historical_record])%list, product_key + 1)
     else ret (records, product_key)) in
  let current_record :=
    DimProduct.mk product_key product_id product_name category subcategory
                 brand unit_cost unit_price
                 (if has_change then current_date else historical_date)
                 far_future true in
  ret ((records ++ [current_record])%list, product_key + 1).

Definition generate_dim_product (num_products : Z) (change_rate : Q) (seed : Z)
  : Gen (list DimProduct.row) :=
  let* _ := DataGenerator seed in
  let* '(records, _) := for_each (range num_products)
                     (generate_dim_product_body change_rate) ([], 1) in
  ret records.


(** *** datagen/generator.py, [generate_dim_customer] *)

Definition income_segments : list string :=
  ["Low (<30k)"; "Medium (30k-75k)"; "High (75k-150k)"; "Premium (>150k)"].

Definition customer_segments : list string :=
  ["Bronze"; "Silver"; "Gold"; "Platinum"].

Definition genders : list string := ["M"; "F"; "Other"].

(** The body of the loop over [customer_idx]; the loop state is [records]. *)
Definition generate_dim_customer_body
    (records : list DimCustomer.row) (customer_idx : Z) : Gen (list DimCustomer.row) :=
  let* days_ago := random_randint 0 (365 * 5) in
  let* today1 := date_today in
  let registration_date := today1 - days_ago in
  let* age_years := random_randint 18 80 in
  let* today2 := date_today in
  let date_of_birth := today2 - age_years * 365 in
  let* income_segment := random_choice income_segments in
  let* customer_segment :=
    (if str_contains "Premium" income_segment
     then random_choice ["Gold"; "Platinum"]
     else if str_contains "High" income_segment
     then random_choice ["Silver"; "Gold"]
     else random_choice ["Bronze"; "Silver"]) in
  let* r := random_random in
  let is_active := Qlt_bool (inject_Z days_ago / inject_Z (365 * 5 * 2))%Q r in
  let customer_key := customer_idx + 1 in
  let customer_id := "CUST-" ++ format_0d 6 (customer_idx + 1) in
  let* first_name := faker_call "first_name" in
  let* last_name := faker_call "last_name" in
  let* email := faker_call "email" in
  let* phone := faker_call "phone_number" in
  let* gender := random_choice genders in
  let record :=
    DimCustomer.mk customer_key customer_id first_name last_name email phone
                   date_of_birth gender income_segment customer_segment
                   registration_date is_active in
  ret (records ++ [record])%list.

Definition generate_dim_customer (num_customers : Z) (seed : Z)
  : Gen (list DimCustomer.row) :=
  let* _ := DataGenerator seed in
  for_each (range num_customers) generate_dim_customer_body [].

(** *** datagen/generator.py, [generate_sales_fact] *)

(** The body of the loop over [line_item_id]; the loop state is [records]. *)
Definition generate_sales_fact_line_item
    (current_products : list DimProduct.row) (pareto_products : list Q)
    (transaction_id : Z) (transaction_date : date) (transaction_timestamp : datetime)
    (time_key geo_key customer_key payment_key : Z)
    (records : list SalesFact.row) (line_item_id : Z) : Gen (list SalesFact.row) :=
  let num_products := Z.of_nat (length current_products) in
  let* product_idx := random_choices (range num_products) pareto_products in
  let* product_record := lift (list_getitem current_products product_idx) in
  let product_key := DimProduct.product_key product_record in
  let base_unit_price := DimProduct.unit_price product_record in
  let* u := random_uniform 0.95 1.05 in
  let unit_price := round2 (base_unit_price * u) in
  let cost_per_unit := DimProduct.unit_cost product_record in
  let* quantity := random_choices [1; 2; 3; 4; 5] [50; 30; 12; 5; 3]%Q in
  let revenue := round2 (inject_Z quantity * unit_price) in
  let total_cost := round2 (inject_Z quantity * cost_per_unit) in
  let* r := random_random in
  let* discount_amount :=
    (if Qlt_bool r 0.2
     then let* discount_pct := random_uniform 0.05 0.25 in
          ret (round2 (revenue * discount_pct))
     else ret 0.0%Q) in
  let final_revenue := round2 (revenue - discount_amount) in
  let profit := round2 (final_revenue - total_cost) in
  let record :=
    SalesFact.mk transaction_id line_item_id transaction_date transaction_timestamp
                 time_key geo_key product_key customer_key payment_key
                 quantity unit_price final_revenue total_cost discount_amount profit in
  ret (records ++ [record])%list.

(** The body of the loop over the transactions; the loop state is the pair
    of [records] and [transaction_id]. *)
Definition generate_sales_fact_transaction
    (time_df : list DimTime.row) (geo_df : list DimGeography.row)
    (current_products : list DimProduct.row) (customer_df : list DimCustomer.row)
    (payment_df : list DimPayment.row) (pareto_products pareto_customers : list Q)
    (st : list SalesFact.row * Z) (_ : Z) : Gen (list SalesFact.row * Z) :=
  let '(records, transaction_id) := st in
  let num_customers := Z.of_nat (length customer_df) in
  let* time_record :=
    df_sample time_df
      (Some (map inject_Z (_create_recency_weights (Z.of_nat (length time_df))))) in
  let transaction_date := DimTime.date time_record in
  let time_key := DimTime.time_key time_record in
  let* hour := random_randint 8 21 in
  let* minute := random_randint 0 59 in
  let* second := random_randint 0 59 in
  let transaction_timestamp := mkdatetime transaction_date hour minute second in
  let* geo_record := df_sample geo_df None in
  let geo_key := DimGeography.geo_key geo_record in
  let* customer_idx := random_choices (range num_customers) pareto_customers in
  let* customer_record := lift (list_getitem customer_df customer_idx) in
  let customer_key := DimCustomer.customer_key customer_record in
  let* payment_record := df_sample payment_df None in
  let payment_key := DimPayment.payment_key payment_record in
  let* num_line_items :=
    random_choices [1; 2; 3; 4; 5] [40; 30; 15; 10; 5]%Q in
  let* records :=
    for_each (range_from 1 (num_line_items + 1))
      (generate_sales_fact_line_item current_products pareto_products
         transaction_id transaction_date transaction_timestamp
         time_key geo_key customer_key payment_key)
      records in
  ret (records, transaction_id + 1).

Definition generate_sales_fact (num_transactions : Z)
    (time_df : list DimTime.row) (geo_df : list DimGeography.row)
    (product_df : list DimProduct.row) (customer_df : list DimCustomer.row)
    (payment_df : list DimPayment.row) (pareto_factor : Q) (seed : Z)
  : Gen (list SalesFact.row) :=
  let* _ := DataGenerator seed in
  let current_products := filter (λ p, DimProduct.is_current p = true) product_df in
  let num_products := Z.of_nat (length current_products) in
  let num_customers := Z.of_nat (length customer_df) in
  let* pareto_products := lift (_create_pareto_weights num_products pareto_factor) in
  let* pareto_customers := lift (_create_pareto_weights num_customers pareto_factor) in
  let* '(records, _) :=
    for_each (range num_transactions)
      (generate_sales_fact_transaction time_df geo_df current_products customer_df
         payment_df pareto_products pareto_customers)
      ([], 1) in
  ret records.

End Generators.

(* ===================================================================== *)
(** ** datagen/schemas.py: the validators *)
(* ===================================================================== *)

(** *** Series *)

(** The number a cell stands for in arithmetic and comparisons. *)
Definition to_number (v : value) : res Q :=
  match v with
  | VInt z => Ok (inject_Z z)
  | VFloat q => Ok q
  | VBool b => Ok (if b then 1 else 0)%Q
  | _ => Raise (TypeError "unsupported operand type(s)")
  end.

(** [s1 op s2], cell by cell, on two columns of one frame. *)
Fixpoint series_binop (f : Q → Q → Q) (s1 s2 : list value) : res (list value) :=
  match s1, s2 with
  | [], [] => Ok []
  | v1 :: r1, v2 :: r2 =>
      res_bind (to_number v1) (λ x,
      res_bind (to_number v2) (λ y,
      res_bind (series_binop f r1 r2) (λ r, Ok (VFloat (f x y) :: r))))
  | _, _ => Raise (NotModelled "columns of different lengths")
  end.

(** A test on every cell of a numeric column: the boolean mask. *)
Definition series_test (p : Q → bool) (s : list value) : res (list bool) :=
  res_mapM (λ v, res_bind (to_number v) (λ x, Ok (p x))) s.

(** [v1 == v2] on cells. *)
Definition value_eqb (v1 v2 : value) : bool :=
  match v1, v2 with
  | VStr a, VStr b => String.eqb a b
  | VDate a, VDate b => bool_decide (a = b)
  | VTimestamp a, VTimestamp b => bool_decide (a = b)
  | _, _ =>
      match to_number v1, to_number v2 with
      | Ok x, Ok y => Qeq_bool x y
      | _, _ => false
      end
  end.

(** [s1 != s2], cell by cell. *)
Fixpoint series_ne (s1 s2 : list value) : res (list bool) :=
  match s1, s2 with
  | [], [] => Ok []
  | v1 :: r1, v2 :: r2 =>
      res_bind (series_ne r1 r2) (λ r, Ok (negb (value_eqb v1 v2) :: r))
  | _, _ => Raise (NotModelled "columns of different lengths")
  end.

(** [m1 | m2] on masks. *)
Fixpoint mask_or (m1 m2 : list bool) : list bool :=
  match m1, m2 with
  | b1 :: r1, b2 :: r2 => (b1 || b2) :: mask_or r1 r2
  | _, _ => []
  end.

(** [mask.any()], which is also [not df[mask].empty]: a row is selected. *)
Definition mask_any (m : list bool) : bool := existsb (λ b, b) m.

(** [len(df[mask])]. *)
Definition mask_count (m : list bool) : Z := Z.of_nat (length (filter (λ b, b = true) m)).

(** *** Operations on the frame a validator received *)

(** A validator runs on the frame object it was handed: it may read it and
    assign columns to it, and returns or raises. *)
Definition Val (A : Type) : Type := DataFrame value → res A * DataFrame value.

Definition vret {A} (a : A) : Val A := λ df, (Ok a, df).

Definition vraise {A} (e : exn) : Val A := λ df, (Raise e, df).

Definition vbind {A B} (m : Val A) (k : A → Val B) : Val B :=
  λ df, match m df with
        | (Ok a, df') => k a df'
        | (Raise e, df') => (Raise e, df')
        end.

(** [df[col]]. *)
Definition getitem (col : string) : Val (list value) := λ df, (df_getitem df col, df).

(** [df[col] = s]. *)
Definition setitem (col : string) (s : list value) : Val unit :=
  λ df, (Ok tt, df_setitem df col s).

(** A computation on values already read. *)
Definition vlift {A} (r : res A) : Val A := λ df, (r, df).

Section Validators.

Notation "'let*' x ':=' m 'in' k" := (vbind m (λ x, k))
  (at level 10, x name, m at level 100, k at level 200, only parsing).

(** [if (df[col] < 0).any(): raise ValueError(msg)]. *)
Definition check_non_negative (col : string) (msg : string) : Val unit :=
  let* s := getitem col in
  let* m := vlift (series_test (λ x, Qlt_bool x 0) s) in
  if mask_any m then vraise (ValueError msg) else vret tt.

(** datagen/schemas.py, [validate_fact_measures]. *)
Definition validate_fact_measures : Val bool :=
  let* quantity := getitem "quantity" in
  let* unit_price := getitem "unit_price" in
  let* expected := vlift (series_binop Qmult quantity unit_price) in
  let* _ := setitem "expected_revenue" expected in
  let* revenue := getitem "revenue" in
  let* expected_revenue := getitem "expected_revenue" in
  let* diff := vlift (series_binop Qminus revenue expected_revenue) in
  let* revenue_errors := vlift (series_test (λ x, Qlt_bool 0.01 (Qabs x)) diff) in
  if mask_any revenue_errors then
    vraise (ValueError ("Found " ++ pystr (mask_count revenue_errors)
                        ++ " records with incorrect revenue calculation"))
  else
  let* revenue := getitem "revenue" in
  let* cost := getitem "cost" in
  let* expected := vlift (series_binop Qminus revenue cost) in
  let* _ := setitem "expected_profit" expected in
  let* profit := getitem "profit" in
  let* expected_profit := getitem "expected_profit" in
  let* diff := vlift (series_binop Qminus profit expected_profit) in
  let* profit_errors := vlift (series_test (λ x, Qlt_bool 0.01 (Qabs x)) diff) in
  if mask_any profit_errors then
    vraise (ValueError ("Found " ++ pystr (mask_count profit_errors)
                        ++ " records with incorrect profit calculation"))
  else
  let* _ := check_non_negative "quantity" "Found negative quantity values" in
  let* _ := check_non_negative "unit_price" "Found negative unit_price values" in
  let* _ := check_non_negative "revenue" "Found negative revenue values" in
  let* _ := check_non_negative "cost" "Found negative cost values" in
  let* _ := check_non_negative "discount_amount" "Found negative discount_amount values" in
  vret true.

(** [d.year * 10000 + d.month * 100 + d.day] on a cell of the date column. *)
Definition expected_time_key (v : value) : res value :=
  match v with
  | VDate d => Ok (VInt (year d * 10000 + month d * 100 + day d))
  | VTimestamp t =>
      Ok (VInt (year (dt_date t) * 10000 + month (dt_date t) * 100 + day (dt_date t)))
  | _ => Raise (AttributeError "object has no attribute 'year'")
  end.

(** datagen/schemas.py, [validate_time_dimension]. *)
Definition validate_time_dimension : Val bool :=
  let* time_key := getitem "time_key" in
  let* too_small := vlift (series_test (λ x, Qlt_bool x 19000101) time_key) in
  let* time_key := getitem "time_key" in
  let* too_large := vlift (series_test (λ x, Qlt_bool 21001231 x) time_key) in
  let invalid_keys := mask_or too_small too_large in
  if mask_any invalid_keys then
    vraise (ValueError ("Found " ++ pystr (mask_count invalid_keys)
                        ++ " invalid time_key values"))
  else
  let* dates := getitem "date" in
  let* expected := vlift (res_mapM expected_time_key dates) in
  let* _ := setitem "expected_key" expected in
  let* time_key := getitem "time_key" in
  let* expected_key := getitem "expected_key" in
  let* mismatches := vlift (series_ne time_key expected_key) in
  if mask_any mismatches then
    vraise (ValueError ("Found " ++ pystr (mask_count mismatches)
                        ++ " time_key values that don't match date"))
  else vret true.

End Validators.

(** [pd.DataFrame(records)] for fact rows: one column per field, in the
    order of the fields; no column at all when there is no row. *)
Definition fact_frame (rows : list SalesFact.row) : DataFrame value :=
  match rows with
  | [] => []
  | _ =>
    [ ("transaction_id", map (λ r, VInt (SalesFact.transaction_id r)) rows);
      ("line_item_id", map (λ r, VInt (SalesFact.line_item_id r)) rows);
      ("transaction_date", map (λ r, VDate (SalesFact.transaction_date r)) rows);
      ("transaction_timestamp",
         map (λ r, VTimestamp (SalesFact.transaction_timestamp r)) rows);
      ("time_key", map (λ r, VInt (SalesFact.time_key r)) rows);
      ("geo_key", map (λ r, VInt (SalesFact.geo_key r)) rows);
      ("product_key", map (λ r, VInt (SalesFact.product_key r)) rows);
      ("customer_key", map (λ r, VInt (SalesFact.customer_key r)) rows);
      ("payment_key", map (λ r, VInt (SalesFact.payment_key r)) rows);
      ("quantity", map (λ r, VInt (SalesFact.quantity r)) rows);
      ("unit_price", map (λ r, VFloat (SalesFact.unit_price r)) rows);
      ("revenue", map (λ r, VFloat (SalesFact.revenue r)) rows);
      ("cost", map (λ r, VFloat (SalesFact.cost r)) rows);
      ("discount_amount", map (λ r, VFloat (SalesFact.discount_amount r)) rows);
      ("profit", map (λ r, VFloat (SalesFact.profit r)) rows) ]
  end.

(** [pd.DataFrame(records)] for the columns of [dim_time] that
    [validate_time_dimension] reads. *)
Definition time_frame (rows : list DimTime.row) : DataFrame value :=
  match rows with
  | [] => []
  | _ => [ ("time_key", map (λ r, VInt (DimTime.time_key r)) rows);
           ("date", map (λ r, VDate (DimTime.date r)) rows) ]
  end.

(** *** models/facts.py, [validate_sales_fact] *)

(** [assert cond, msg]. The parts of a message that print a float are left
    out. *)
Definition py_assert (cond : bool) (msg : string) : res unit :=
  if cond then Ok tt else Raise (AssertionError msg).

Definition validate_sales_fact (record : SalesFact.row) : res bool :=
  let check := λ (cond : bool) (msg : string) (k : res bool),
                 res_bind (py_assert cond msg) (λ _, k) in
  check (0 <? SalesFact.transaction_id record) "Transaction ID must be positive" (
  check (0 <? SalesFact.line_item_id record) "Line item ID must be positive" (
  check ((2021 <=? year (SalesFact.transaction_date record))
         && (year (SalesFact.transaction_date record) <=? 2023))
        ("Transaction date must be 2021-2023, got "
         ++ pystr (year (SalesFact.transaction_date record))) (
  check (bool_decide (dt_date (SalesFact.transaction_timestamp record)
                      = SalesFact.transaction_date record))
        "Transaction timestamp date must match transaction_date" (
  check (0 <? SalesFact.time_key record) "time_key must be positive" (
  check (0 <? SalesFact.geo_key record) "geo_key must be positive" (
  check (0 <? SalesFact.product_key record) "product_key must be positive" (
  check (0 <? SalesFact.customer_key record) "customer_key must be positive" (
  check (0 <? SalesFact.payment_key record) "payment_key must be positive" (
  check ((1 <=? SalesFact.quantity record) && (SalesFact.quantity record <=? 100))
        ("Quantity must be 1-100, got " ++ pystr (SalesFact.quantity record)) (
  check (Qlt_bool 0 (SalesFact.unit_price record)) "Unit price must be positive" (
  check (Qle_bool 0 (SalesFact.revenue record)) "Revenue must be non-negative" (
  check (Qle_bool 0 (SalesFact.cost record)) "Cost must be non-negative" (
  check (Qle_bool 0 (SalesFact.discount_amount record)) "Discount must be non-negative" (
  let expected_revenue :=
    round2 (inject_Z (SalesFact.quantity record) * SalesFact.unit_price record) in
  check (Qlt_bool (Qabs (SalesFact.revenue record - expected_revenue)) 0.01)
        "Revenue mismatch" (
  let expected_profit := round2 (SalesFact.revenue record - SalesFact.cost record) in
  check (Qlt_bool (Qabs (SalesFact.profit record - expected_profit)) 0.01)
        "Profit mismatch" (
  check (Qle_bool (SalesFact.discount_amount record) (SalesFact.revenue record))
        "Discount cannot exceed revenue" (
  Ok true))))))))))))))))).

(** *** What the measure validator is asked to check *)

(** [revenue] within 0.01 of [quantity * unit_price - discount_amount]. *)
Definition revenue_identity (r : SalesFact.row) : Prop :=
  (Qabs (SalesFact.revenue r
         - (inject_Z (SalesFact.quantity r) * SalesFact.unit_price r
            - SalesFact.discount_amount r)) <= 0.01)%Q.

(** [profit] within 0.01 of [revenue - cost]. *)
Definition profit_identity (r : SalesFact.row) : Prop :=
  (Qabs (SalesFact.profit r - (SalesFact.revenue r - SalesFact.cost r)) <= 0.01)%Q.

(** No measure but [profit] is negative. *)
Definition measures_non_negative (r : SalesFact.row) : Prop :=
  0 <= SalesFact.quantity r ∧ (0 <= SalesFact.unit_price r)%Q ∧
  (0 <= SalesFact.revenue r)%Q ∧ (0 <= SalesFact.cost r)%Q ∧
  (0 <= SalesFact.discount_amount r)%Q.

(** The same two identities with another margin than 0.01, and a bound on
    the size of the amounts. The validators compare binary floats, whose
    products and differences are rounded: for amounts of at most [10^9]
    that rounding moves a difference by less than [1e-6], so that a row
    within 0.009 passes the test at 0.01 and a row beyond 0.011 fails it,
    in the code as on the exact amounts. *)
Definition revenue_within (margin : Q) (r : SalesFact.row) : Prop :=
  (Qabs (SalesFact.revenue r
         - (inject_Z (SalesFact.quantity r) * SalesFact.unit_price r
            - SalesFact.discount_amount r)) <= margin)%Q.

Definition profit_within (margin : Q) (r : SalesFact.row) : Prop :=
  (Qabs (SalesFact.profit r - (SalesFact.revenue r - SalesFact.cost r)) <= margin)%Q.

Definition amounts_within (bound : Q) (r : SalesFact.row) : Prop :=
  (Qabs (inject_Z (SalesFact.quantity r) * SalesFact.unit_price r) <= bound)%Q ∧
  (Qabs (SalesFact.revenue r) <= bound)%Q ∧
  (Qabs (SalesFact.cost r) <= bound)%Q ∧
  (Qabs (SalesFact.profit r) <= bound)%Q.

(** The unit cost and the unit price of a product are amounts between 0
    and [bound]. *)
Definition prices_within (bound : Q) (p : DimProduct.row) : Prop :=
  (0 <= DimProduct.unit_cost p <= bound)%Q ∧ (0 <= DimProduct.unit_price p <= bound)%Q.

(** The call raised [ValueError]: a validation failure. *)
Definition validation_failure {A} (r : res A) : Prop := ∃ msg, r = Raise (ValueError msg).

(** The error rule as the specification words it, for a frame of fact
    rows: validation fails exactly when some row breaks the revenue or the
    profit identity. *)
Definition measure_validator_rule (rows : list SalesFact.row) : Prop :=
  validation_failure (fst (validate_fact_measures (fact_frame rows)))
  ↔ ∃ r, r ∈ rows ∧ ¬ (revenue_identity r ∧ profit_identity r).

(** A line item sold at a discount, and one with a negative cost. *)
Definition discounted_row : SalesFact.row :=
  SalesFact.mk 1 1 (mkdate 2023 1 2) (mkdatetime (mkdate 2023 1 2) 9 30 0)
               20230102 1 1 1 1 2 10.00 19.00 8.00 1.00 11.00.

Definition negative_cost_row : SalesFact.row :=
  SalesFact.mk 2 1 (mkdate 2023 1 2) (mkdatetime (mkdate 2023 1 2) 9 30 0)
               20230102 1 1 1 1 1 10.00 10.00 (-5.00) 0.00 15.00.

(** *** Outcomes of a computation *)

Section Outcomes.
Context {RS : RandomStream}.

(** Whatever the world, [m] returns, and what it returns satisfies [P]. *)
Definition returns {A} (m : Gen A) (P : A → Prop) : Prop :=
  ∀ w, ∃ a w', m w = (Ok a, w') ∧ P a.

(** Whenever [m] returns, what it returns satisfies [P]. *)
Definition ensures {A} (m : Gen A) (P : A → Prop) : Prop :=
  ∀ w a w', m w = (Ok a, w') → P a.

(** Whatever the world, [m] raises. *)
Definition fails {A} (m : Gen A) : Prop :=
  ∀ w, ∃ e w', m w = (Raise e, w').

(** Two worlds agree on the streams [DataGenerator] seeds. *)
Definition same_seeded (w1 w2 : World) : Prop :=
  py_random w1 = py_random w2 ∧ faker_random w1 = faker_random w2.

(** [m] reads and changes nothing but the seeded streams. *)
Definition seed_determined {A} (m : Gen A) : Prop :=
  ∀ w1 w2, same_seeded w1 w2 →
    fst (m w1) = fst (m w2) ∧ same_seeded (snd (m w1)) (snd (m w2)).

(** Started on day [t], [m] returns, the day is still [t], and what it
    returns satisfies [P]. *)
Definition returns_on_day {A} (t : Z) (m : Gen A) (P : A → Prop) : Prop :=
  ∀ w, today w = t → ∃ a w', m w = (Ok a, w') ∧ today w' = t ∧ P a.

End Outcomes.

(** *** A small stream for running the generators *)

(** A counter: the [k]-th draw is computed from [seed + k]. It stands in for
    the real generators in the examples below. *)
Definition counter_random (s : Z) : Q * Z := ((inject_Z (s mod 10) / 10)%Q, s + 1).
Definition counter_below (n s : Z) : Z * Z := (s mod n, s + 1).
Definition counter_text (provider : string) (s : Z) : string * Z :=
  (provider ++ "#" ++ pystr s, s + 1).

Lemma counter_random_range (s : Z) :
  (0 <= fst (counter_random s))%Q ∧ (fst (counter_random s) < 1)%Q.
Proof.
  unfold counter_random. cbn [fst].
  pose proof (Z.mod_pos_bound s 10 eq_refl) as [H0 H1].
  split.
  - apply Qle_shift_div_l; [reflexivity|]. rewrite Qmult_0_l.
    change 0%Q with (inject_Z 0). rewrite <- Zle_Qle. exact H0.
  - apply Qlt_shift_div_r; [reflexivity|]. rewrite Qmult_1_l.
    change 10%Q with (inject_Z 10). rewrite <- Zlt_Qlt. exact H1.
Qed.

Lemma counter_below_range (n s : Z) : 0 < n → 0 <= fst (counter_below n s) < n.
Proof. intros Hn. unfold counter_below. cbn [fst]. apply Z.mod_pos_bound. exact Hn. Qed.

Definition counter_stream : RandomStream :=
  {| stream := Z;
     seed_stream := λ seed, seed;
     next_random := counter_random;
     next_below := counter_below;
     next_text := counter_text;
     next_random_range := counter_random_range;
     next_below_range := counter_below_range |}.

(** *** The measure identity *)

(** What the spec asks of every fact row:
    [abs(revenue - (quantity * unit_price - discount_amount)) < 0.01] and
    [abs(profit - (revenue - cost)) < 0.01]. *)
Definition measure_identity (r : SalesFact.row) : Prop :=
  (Qabs (SalesFact.revenue r
         - (inject_Z (SalesFact.quantity r) * SalesFact.unit_price r
            - SalesFact.discount_amount r)) < 0.01)%Q ∧
  (Qabs (SalesFact.profit r - (SalesFact.revenue r - SalesFact.cost r)) < 0.01)%Q.

(** An amount in whole cents. *)
Definition is_cents (q : Q) : Prop := ∃ z : Z, (q == inject_Z z / 100)%Q.

(** *** The SCD Type 2 invariant *)

(** The rows of a frame that are current and carry the natural key [pid]. *)
Definition current_rows (pid : string) (rows : list DimProduct.row)
  : list DimProduct.row :=
  filter (λ x, DimProduct.is_current x = true ∧ DimProduct.product_id x = pid) rows.

(** For every natural key in the frame exactly one row is current, that
    row expires on the sentinel date, and a historical row of the same key
    expires on the day the current row becomes effective. *)
Definition scd2_invariant (rows : list DimProduct.row) : Prop :=
  ∀ r, r ∈ rows →
    ∃ c, current_rows (DimProduct.product_id r) rows = [c] ∧
         DimProduct.expiration_date c = far_future ∧
         (DimProduct.is_current r = false →
          DimProduct.expiration_date r = DimProduct.effective_date c).

(** The rows one product contributes: its current row, after its
    historical row when it has one. *)
Definition scd2_block (pid : string) (block : list DimProduct.row) : Prop :=
  ∃ cur, DimProduct.product_id cur = pid ∧
         DimProduct.is_current cur = true ∧
         DimProduct.expiration_date cur = far_future ∧
         (block = [cur] ∨
          ∃ hist, block = [hist; cur] ∧
                  DimProduct.product_id hist = pid ∧
                  DimProduct.is_current hist = false ∧
                  DimProduct.expiration_date hist = DimProduct.effective_date cur).

(** [f"PROD-{product_idx + 1:05d}"]. *)
Definition product_id_of (product_idx : Z) : string :=
  "PROD-" ++ format_0d 5 (product_idx + 1).

(** Reading a digit string back. *)
Definition parse_digits (s : string) : option Z :=
  option_map Z.of_uint (NilEmpty.uint_of_string s).

(** *** Inputs for the examples *)

Definition demo_world : @World counter_stream := @mkWorld counter_stream 3 5 7 738000.

Definition demo_time_df : list DimTime.row :=
  [DimTime.mk 20230101 (mkdate 2023 1 1); DimTime.mk 20230102 (mkdate 2023 1 2)].

Definition demo_geo_df : list DimGeography.row :=
  [DimGeography.mk 1; DimGeography.mk 2].

Definition demo_payment_df : list DimPayment.row :=
  [DimPayment.mk 1; DimPayment.mk 2].

Definition demo_product_df : list DimProduct.row :=
  [DimProduct.mk 1 "PROD-00001" "BrandC Outdoor teal" "Home & Garden" "Outdoor"
     "BrandC" 98.10 200.00 historical_date current_date false;
   DimProduct.mk 2 "PROD-00001" "BrandC Outdoor teal" "Home & Garden" "Outdoor"
     "BrandC" 102.50 207.05 current_date far_future true;
   DimProduct.mk 3 "PROD-00002" "BrandB Apparel red" "Sports" "Apparel"
     "BrandB" 24.50 37.73 historical_date far_future true].

Definition demo_customer_df : list DimCustomer.row :=
  [DimCustomer.mk 1 "CUST-000001" "Ann" "Lee" "ann@example.org" "555-0100"
     715735 "F" "Low (<30k)" "Silver" 737958 true;
   DimCustomer.mk 2 "CUST-000002" "Bo" "Diaz" "bo@example.org" "555-0101"
     713545 "M" "High (75k-150k)" "Gold" 737952 true].

(** The tests [validate_fact_measures] applies to a row, one after the
    other. *)
Definition revenue_error (r : SalesFact.row) : bool :=
  Qlt_bool 0.01 (Qabs (SalesFact.revenue r
                       - inject_Z (SalesFact.quantity r) * SalesFact.unit_price r)).

Definition profit_error (r : SalesFact.row) : bool :=
  Qlt_bool 0.01 (Qabs (SalesFact.profit r - (SalesFact.revenue r - SalesFact.cost r))).

Definition negative_measure (r : SalesFact.row) : bool :=
  Qlt_bool (inject_Z (SalesFact.quantity r)) 0
  || Qlt_bool (SalesFact.unit_price r) 0
  || Qlt_bool (SalesFact.revenue r) 0
  || Qlt_bool (SalesFact.cost r) 0
  || Qlt_bool (SalesFact.discount_amount r) 0.

Definition undiscounted_row : SalesFact.row :=
  SalesFact.mk 3 1 (mkdate 2023 1 2) (mkdatetime (mkdate 2023 1 2) 9 30 0)
               20230102 1 1 1 1 5 10.00 50.00 30.00 0.00 20.00.

(* ===================================================================== *)
(** ** datagen/schemas.py: [check_referential_integrity] *)
(* ===================================================================== *)

(** [s.startswith(p)], giving what follows the prefix. *)
Fixpoint str_drop_prefix (p s : string) : option string :=
  match p, s with
  | EmptyString, _ => Some s
  | String a p', String b s' => if Ascii.eqb a b then str_drop_prefix p' s' else None
  | String _ _, EmptyString => None
  end.

Fixpoint str_replace_fuel (fuel : nat) (old new s : string) : string :=
  match fuel with
  | O => s
  | S fuel' =>
      match str_drop_prefix old s with
      | Some rest => new ++ str_replace_fuel fuel' old new rest
      | None =>
          match s with
          | EmptyString => EmptyString
          | String c r => String c (str_replace_fuel fuel' old new r)
          end
      end
  end.

(** [s.replace(old, new)] for a non-empty [old]: every occurrence, from
    the left, without overlap. *)
Definition str_replace (old new s : string) : string :=
  str_replace_fuel (S (String.length s)) old new s.

(** [s.lower()] on ASCII text. *)
Definition ascii_lower (c : ascii) : ascii :=
  let n := nat_of_ascii c in
  if ((65 <=? n) && (n <=? 90))%nat then ascii_of_nat (n + 32) else c.

Fixpoint str_lower (s : string) : string :=
  match s with
  | EmptyString => EmptyString
  | String c r => String (ascii_lower c) (str_lower r)
  end.

(** The result dictionary. *)
Record IntegrityResult : Type := mkIntegrityResult {
  valid : bool;
  orphan_counts : gmap string Z;
  orphan_records : gmap string (list Z);
}.

(** The frames the check is handed: the fact frame and the dictionary of
    dimension frames, in the order of its items. Key columns hold integers. *)
Record Frames : Type := mkFrames {
  fact_df : DataFrame Z;
  dimension_dfs : list (string * DataFrame Z);
}.

(** A computation that may read and assign to the frames it was handed. *)
Definition Chk (A : Type) : Type := Frames → res A * Frames.

Definition cret {A} (a : A) : Chk A := λ fs, (Ok a, fs).

Definition craise {A} (e : exn) : Chk A := λ fs, (Raise e, fs).

Definition cbind {A B} (m : Chk A) (k : A → Chk B) : Chk B :=
  λ fs, match m fs with
        | (Ok a, fs') => k a fs'
        | (Raise e, fs') => (Raise e, fs')
        end.

(** [fact_df[col]]. *)
Definition read_fact (col : string) : Chk (list Z) :=
  λ fs, (df_getitem (fact_df fs) col, fs).

(** [dimension_dfs.items()]. *)
Definition read_dimensions : Chk (list (string * DataFrame Z)) :=
  λ fs, (Ok (dimension_dfs fs), fs).

(** The inner loop: the first dimension whose lower-cased name contains
    [dim_name]. *)
Fixpoint find_dimension (dim_name : string) (items : list (string * DataFrame Z))
  : option (DataFrame Z) :=
  match items with
  | [] => None
  | (dim_key, dim_df) :: rest =>
      if str_contains dim_name (str_lower dim_key) then Some dim_df
      else find_dimension dim_name rest
  end.

(** [sorted(list(orphan_keys))[:10]]. *)
Definition orphan_sample (orphan_keys : gset Z) : list Z :=
  take 10 (merge_sort Z.le (elements orphan_keys)).

Section ReferentialIntegrity.

Notation "'let*' x ':=' m 'in' k" := (cbind m (λ x, k))
  (at level 10, x name, m at level 100, k at level 200, only parsing).

(** The orphan keys of one foreign key column, as the loop body computes
    them: [set(fact_df[fk_column]) - set(dimension_df[pk_column])]. *)
Definition orphan_keys_of (fk_column pk_column : string) : Chk (gset Z) :=
  let dim_name := str_replace "_key" "" fk_column in
  let* items := read_dimensions in
  match find_dimension dim_name items with
  | None => craise (ValueError ("No dimension found for foreign key " ++ fk_column))
  | Some dimension_df =>
      match df_getitem dimension_df pk_column with
      | Raise e => craise e
      | Ok pk_values =>
          let valid_keys : gset Z := list_to_set pk_values in
          let* fk_values := read_fact fk_column in
          let fact_keys : gset Z := list_to_set fk_values in
          cret (fact_keys ∖ valid_keys)
      end
  end.

(** The body of the loop over [foreign_keys.items()]; the loop state is
    [results]. *)
Definition check_referential_integrity_body
    (results : IntegrityResult) (item : string * string) : Chk IntegrityResult :=
  let '(fk_column, pk_column) := item in
  let* orphan_keys := orphan_keys_of fk_column pk_column in
  if bool_decide (orphan_keys ≠ ∅) then
    cret (mkIntegrityResult false
            (<[fk_column := Z.of_nat (size orphan_keys)]> (orphan_counts results))
            (<[fk_column := orphan_sample orphan_keys]> (orphan_records results)))
  else cret results.

Fixpoint check_referential_integrity_loop
    (items : list (string * string)) (results : IntegrityResult) : Chk IntegrityResult :=
  match items with
  | [] => cret results
  | item :: rest =>
      let* results := check_referential_integrity_body results item in
      check_referential_integrity_loop rest results
  end.

(** [check_referential_integrity(fact_df, dimension_dfs, foreign_keys)]:
    [foreign_keys] is the list of its items, in order. *)
Definition check_referential_integrity (foreign_keys : list (string * string))
  : Chk IntegrityResult :=
  check_referential_integrity_loop foreign_keys (mkIntegrityResult true ∅ ∅).

End ReferentialIntegrity.

(** Frames for the examples: [geo_key] 9 of the fact frame is an orphan. *)
Definition demo_frames : Frames :=
  mkFrames
    [("time_key", [20230101; 20230102; 20230101]); ("geo_key", [1; 9; 2])]
    [("dim_time", [("time_key", [20230101; 20230102])]);
     ("dim_geography", [("geo_key", [1; 2; 3])])].

Definition demo_foreign_keys : list (string * string) :=
  [("time_key", "time_key"); ("geo_key", "geo_key")].


(** The two columns a foreign key is checked on: the values of
    [fact_df[fk_column]] and of [dimension_df[pk_column]], for the dimension
    the lookup by name settles on; [None] when that lookup or a column
    fails. *)
Definition column_values (fs : Frames) (fk_column pk_column : string)
  : option (list Z * list Z) :=
  match find_dimension (str_replace "_key" "" fk_column) (dimension_dfs fs) with
  | None => None
  | Some dimension_df =>
      match df_getitem dimension_df pk_column, df_getitem (fact_df fs) fk_column with
      | Ok pk_values, Ok fk_values => Some (fk_values, pk_values)
      | _, _ => None
      end
  end.

(** [fact_fk_values - dimension_pk_values], as sets. *)
Definition orphans (fk_values pk_values : list Z) : gset Z :=
  list_to_set fk_values ∖ list_to_set pk_values.


(* ===================================================================== *)
(** ** storage/partition_manager.py: building, filtering and checking
       partitions *)
(* ===================================================================== *)

(** [str(t)] for a [datetime]: the date, a space, the time of day. *)
Definition format_date (d : date) : string :=
  format_0d 4 (year d) ++ "-" ++ format_0d 2 (month d) ++ "-" ++ format_0d 2 (day d).

(** [str(v)], which is also [f"{v}"], on a cell. The text of a float is
    not described. *)
Definition format_value (v : value) : res string :=
  match v with
  | VInt z => Ok (pystr z)
  | VStr s => Ok s
  | VBool b => Ok (if b then "True" else "False")
  | VDate d => Ok (format_date d)
  | VTimestamp t =>
      Ok (format_date (dt_date t) ++ " " ++ format_0d 2 (hour t) ++ ":"
          ++ format_0d 2 (minute t) ++ ":" ++ format_0d 2 (second t))
  | VFloat _ => Raise (NotModelled "str of a float")
  end.

(** [sep.join(l)]. *)
Fixpoint str_join (sep : string) (l : list string) : string :=
  match l with
  | [] => EmptyString
  | [s] => s
  | s :: r => s ++ sep ++ str_join sep r
  end.

(** The order [sorted] puts the items of a dictionary in: by key. *)
Definition item_le (a b : string * value) : Prop := String.leb (fst a) (fst b) = true.

Global Instance item_le_dec : RelDecision item_le.
Proof. intros a b. unfold item_le. apply _. Defined.

(** [sorted(d.items())]. *)
Definition sorted_items (d : gmap string value) : list (string * value) :=
  merge_sort item_le (map_to_list d).

(** storage/partition_manager.py, [build_partition_path]. *)
Definition build_partition_path (partition_values : gmap string value) : res string :=
  res_bind
    (res_mapM (λ item, res_bind (format_value (snd item))
                         (λ s, Ok (fst item ++ "=" ++ s)))
              (sorted_items partition_values))
    (λ path_parts, Ok (str_join "/" path_parts)).

(** [partition.get(key) != str(value)], negated: the entry is the string
    [s]. An entry of another type is not equal to a string. *)
Definition entry_is_str (partition : gmap string value) (key s : string) : bool :=
  match partition !! key with
  | Some (VStr s') => String.eqb s' s
  | _ => false
  end.

(** The inner loop of [filter_partitions]: [matches], left at the first
    filter that fails. *)
Fixpoint partition_matches (partition : gmap string value)
    (filters : list (string * value)) : res bool :=
  match filters with
  | [] => Ok true
  | (key, v) :: rest =>
      res_bind (format_value v) (λ s,
        if entry_is_str partition key s then partition_matches partition rest
        else Ok false)
  end.

(** storage/partition_manager.py, [filter_partitions]; [filters] is the
    list of the items of the dictionary. *)
Fixpoint filter_partitions (partitions : list (gmap string value))
    (filters : list (string * value)) : res (list (gmap string value)) :=
  match partitions with
  | [] => Ok []
  | partition :: rest =>
      res_bind (partition_matches partition filters) (λ matches,
      res_bind (filter_partitions rest filters) (λ filtered,
      Ok (if matches then partition :: filtered else filtered)))
  end.

(** storage/partition_manager.py, [validate_partitions]. *)
Definition validate_partitions {V} (df : DataFrame V) (partition_cols : list string)
  : bool * list string :=
  let missing_cols := filter (λ col, col ∉ df_columns df) partition_cols in
  (Nat.eqb (length missing_cols) 0, missing_cols).

(** The dictionary [parse_partition_path] returns, its values seen as
    cells. *)
Definition parsed_partition (path : string) : gmap string value :=
  VStr <$> PartitionManager.parse_partition_path path.

(** The text of the values of a dictionary, entry by entry. *)
Definition formatted (d : gmap string value) : gmap string string :=
  omap (λ v, match format_value v with Ok s => Some s | Raise _ => None end) d.


(* ===================================================================== *)
(** ** models/facts.py: [calculate_derived_measures] *)
(* ===================================================================== *)

(** models/facts.py, [calculate_derived_measures]; [discount_amount] is
    accepted and not read. *)
Definition calculate_derived_measures
    (quantity : Z) (unit_price cost discount_amount : Q) : Q * Q :=
  let revenue := round2 (inject_Z quantity * unit_price) in
  let profit := round2 (revenue - cost) in
  (revenue, profit).



(* ===================================================================== *)
(** ** datagen/schemas.py: the validators of the dimensions *)
(* ===================================================================== *)

(** [df.duplicated(subset=[key_column], keep=False)] on the key column: the
    rows whose key occurs more than once. *)
Definition duplicated (keys : list Z) : list bool :=
  map (λ k, bool_decide (1 < length (filter (λ x, x = k) keys))%nat) keys.

(** [df.empty]: an axis of the frame has length 0. The rows of a frame
    are those of its columns, so the frame without columns has none. *)
Definition df_empty {V} (df : DataFrame V) : bool :=
  match df with
  | [] => true
  | (_, s) :: _ => Nat.eqb (length s) 0
  end.

(** [df.duplicated(subset=[key_column], keep=False)]. pandas answers an
    empty mask for an empty frame before it looks at [subset]; only on a
    frame with rows does a missing column raise [KeyError]. *)
Definition df_duplicated (df : DataFrame Z) (key_column : string) : res (list bool) :=
  if df_empty df then Ok []
  else res_bind (df_getitem df key_column) (λ keys, Ok (duplicated keys)).

(** datagen/schemas.py, [validate_dimension_unique_keys], on a frame of
    integer columns. [duplicates = df[mask]] is not empty exactly when the
    mask holds a [True]. The array of keys at the end of the message is
    left out, and so is the index that the [KeyError] of a missing column
    carries. *)
Definition validate_dimension_unique_keys (df : DataFrame Z) (key_column : string)
  : res bool :=
  res_bind (df_duplicated df key_column) (λ mask,
    if mask_any mask
    then Raise (ValueError ("Duplicate keys found in " ++ key_column))
    else Ok true).

(** [a < b] and [a <= b] on [datetime.date]. *)
Definition date_ltb (a b : date) : bool :=
  (year a <? year b)
  || ((year a =? year b)
      && ((month a <? month b) || ((month a =? month b) && (day a <? day b)))).

Definition date_leb (a b : date) : bool := negb (date_ltb b a).

(** [Series.unique()]: the values in the order of their first occurrence. *)
Fixpoint unique (l : list string) : list string :=
  match l with
  | [] => []
  | x :: r => x :: filter (λ y, y ≠ x) (unique r)
  end.

(** The inner loop of [validate_scd_type2]: some record expires after the
    next one has become effective. *)
Fixpoint overlapping (product_records : list DimProduct.row) : bool :=
  match product_records with
  | current_record :: (next_record :: _) as rest =>
      date_ltb (DimProduct.effective_date next_record)
               (DimProduct.expiration_date current_record)
      || overlapping rest
  | _ => false
  end.

(** The loop of [validate_scd_type2] over the natural keys. *)
Fixpoint check_overlaps
    (sort_values : list DimProduct.row → list DimProduct.row)
    (product_ids : list string) (df : list DimProduct.row) : res bool :=
  match product_ids with
  | [] => Ok true
  | product_id :: rest =>
      let product_records :=
        sort_values (filter (λ r, DimProduct.product_id r = product_id) df) in
      if overlapping product_records
      then Raise (ValueError ("Overlapping date ranges for product_id " ++ product_id))
      else check_overlaps sort_values rest df
  end.

(** datagen/schemas.py, [validate_scd_type2], on the frame of the given
    rows; a frame made of no record has no column to read.
    [sort_values] is [DataFrame.sort_values('effective_date')]: pandas
    does not say in which order it leaves rows of equal dates, so the sort
    is a parameter, and the results below hold for every sort that returns
    its rows in the order of their effective dates. *)
Definition validate_scd_type2
    (sort_values : list DimProduct.row → list DimProduct.row)
    (df : list DimProduct.row) : res bool :=
  match df with
  | [] => Raise (KeyError "effective_date")
  | _ =>
    let invalid_dates :=
      filter (λ r, date_leb (DimProduct.expiration_date r)
                            (DimProduct.effective_date r) = true) df in
    if negb (Nat.eqb (length invalid_dates) 0)
    then Raise (ValueError ("Found " ++ pystr (Z.of_nat (length invalid_dates))
                            ++ " records with effective_date >= expiration_date"))
    else
    let current := filter (λ r, DimProduct.is_current r = true) df in
    let multiple_current :=
      filter (λ pid, (1 < length (filter (λ r, DimProduct.product_id r = pid) current))%nat)
             (unique (map DimProduct.product_id current)) in
    if negb (Nat.eqb (length multiple_current) 0)
    then Raise (ValueError ("Found " ++ pystr (Z.of_nat (length multiple_current))
                            ++ " product_ids with multiple current records"))
    else check_overlaps sort_values (unique (map DimProduct.product_id df)) df
  end.

(** The order of [sort_values('effective_date')]. *)
Definition effective_le (a b : DimProduct.row) : Prop :=
  date_leb (DimProduct.effective_date a) (DimProduct.effective_date b) = true.

Global Instance effective_le_dec : RelDecision effective_le.
Proof. intros a b. unfold effective_le. apply _. Defined.

(** What is asked of [sort_values]: the same rows, in the order of their
    effective dates. *)
Definition sorts_by_effective_date
    (sort_values : list DimProduct.row → list DimProduct.row) : Prop :=
  ∀ l, sort_values l ≡ₚ l ∧ Sorted effective_le (sort_values l).

(** A sort of that kind: merge sort. *)
Definition sort_by_effective_date (l : list DimProduct.row) : list DimProduct.row :=
  merge_sort effective_le l.

(** The integer columns of the frame of a product dimension. *)
Definition product_key_frame (rows : list DimProduct.row) : DataFrame Z :=
  match rows with
  | [] => []
  | _ => [("product_key", map DimProduct.product_key rows)]
  end.

(** The integer columns of the frame of a customer dimension. *)
Definition customer_key_frame (rows : list DimCustomer.row) : DataFrame Z :=
  match rows with
  | [] => []
  | _ => [("customer_key", map DimCustomer.customer_key rows)]
  end.

(** *** What one turn of the product loop appends *)

(** The rows of one product, the loop having reached the surrogate key
    [product_key]: the current row, after the historical row when the
    product has one. *)
Definition product_block (change_rate : Q) (product_key product_idx : Z)
    (block : list DimProduct.row) : Prop :=
  ∃ cur,
    DimProduct.product_id cur = product_id_of product_idx ∧
    DimProduct.is_current cur = true ∧
    DimProduct.expiration_date cur = far_future ∧
    (5 <= DimProduct.unit_cost cur)%Q ∧ (DimProduct.unit_cost cur <= 200)%Q ∧
    (1.3 * DimProduct.unit_cost cur - 0.005 <= DimProduct.unit_price cur)%Q ∧
    (DimProduct.unit_price cur <= 2.5 * DimProduct.unit_cost cur + 0.005)%Q ∧
    ((block = [cur] ∧
      DimProduct.product_key cur = product_key ∧
      DimProduct.effective_date cur = historical_date ∧
      (change_rate < 1)%Q)
     ∨
     (∃ hist, block = [hist; cur] ∧
        DimProduct.product_key hist = product_key ∧
        DimProduct.product_key cur = product_key + 1 ∧
        DimProduct.product_id hist = product_id_of product_idx ∧
        DimProduct.is_current hist = false ∧
        DimProduct.effective_date hist = historical_date ∧
        DimProduct.expiration_date hist = current_date ∧
        DimProduct.effective_date cur = current_date ∧
        (0 < DimProduct.unit_cost hist)%Q ∧ (0 < DimProduct.unit_price hist)%Q ∧
        (0 < change_rate)%Q)).

(** The blocks of the products [idxs], the first starting at the surrogate
    key [product_key]. *)
Fixpoint product_blocks (change_rate : Q) (product_key : Z) (idxs : list Z)
    (blocks : list (list DimProduct.row)) : Prop :=
  match idxs, blocks with
  | [], [] => True
  | i :: idxs', b :: blocks' =>
      product_block change_rate product_key i b ∧
      product_blocks change_rate (product_key + Z.of_nat (length b)) idxs' blocks'
  | _, _ => False
  end.


(** *** What one turn of the customer loop appends *)

(** The segments a customer of the given income segment may be put in. *)
Definition segments_for (income_segment : string) : list string :=
  if String.eqb income_segment "Premium (>150k)" then ["Gold"; "Platinum"]
  else if String.eqb income_segment "High (75k-150k)" then ["Silver"; "Gold"]
  else ["Bronze"; "Silver"].

(** The row of the customer [customer_idx], generated on day [t]. *)
Definition customer_row (t customer_idx : Z) (r : DimCustomer.row) : Prop :=
  DimCustomer.customer_key r = customer_idx + 1 ∧
  DimCustomer.customer_id r = "CUST-" ++ format_0d 6 (customer_idx + 1) ∧
  t - 365 * 5 <= DimCustomer.registration_date r <= t ∧
  (∃ age_years, 18 <= age_years <= 80 ∧
                DimCustomer.date_of_birth r = t - age_years * 365) ∧
  DimCustomer.income_segment r ∈ income_segments ∧
  DimCustomer.customer_segment r ∈ segments_for (DimCustomer.income_segment r) ∧
  DimCustomer.gender r ∈ genders.


(** *** What the fact generator appends *)

(** The line item [line_item_id] of a transaction whose header fields are
    given: its product is a current one, its price is the product's,
    moved by at most five percent and rounded, and its measures are
    computed from the quantity, the price and the discount. *)
Definition line_item (current_products : list DimProduct.row)
    (transaction_id : Z) (transaction_date : date) (transaction_timestamp : datetime)
    (time_key geo_key customer_key payment_key : Z)
    (line_item_id : Z) (r : SalesFact.row) : Prop :=
  SalesFact.transaction_id r = transaction_id ∧
  SalesFact.line_item_id r = line_item_id ∧
  SalesFact.transaction_date r = transaction_date ∧
  SalesFact.transaction_timestamp r = transaction_timestamp ∧
  SalesFact.time_key r = time_key ∧
  SalesFact.geo_key r = geo_key ∧
  SalesFact.customer_key r = customer_key ∧
  SalesFact.payment_key r = payment_key ∧
  1 <= SalesFact.quantity r <= 5 ∧
  (∃ p u, p ∈ current_products ∧
          SalesFact.product_key r = DimProduct.product_key p ∧
          (0.95 <= u)%Q ∧ (u <= 1.05)%Q ∧
          SalesFact.unit_price r = round2 (DimProduct.unit_price p * u) ∧
          SalesFact.cost r
          = round2 (inject_Z (SalesFact.quantity r) * DimProduct.unit_cost p)) ∧
  (SalesFact.discount_amount r = 0.0%Q ∨
   ∃ discount_pct, (0.05 <= discount_pct)%Q ∧ (discount_pct <= 0.25)%Q ∧
     SalesFact.discount_amount r
     = round2 (round2 (inject_Z (SalesFact.quantity r) * SalesFact.unit_price r)
               * discount_pct)) ∧
  SalesFact.revenue r
  = round2 (round2 (inject_Z (SalesFact.quantity r) * SalesFact.unit_price r)
            - SalesFact.discount_amount r) ∧
  SalesFact.profit r = round2 (SalesFact.revenue r - SalesFact.cost r).

(** The rows of the transaction [transaction_id]: one to five line items,
    numbered from 1, that share a row of the time dimension, a time of
    day within business hours, a place, a customer and a payment
    method. *)
Definition transaction
    (time_df : list DimTime.row) (geo_df : list DimGeography.row)
    (current_products : list DimProduct.row) (customer_df : list DimCustomer.row)
    (payment_df : list DimPayment.row)
    (transaction_id : Z) (block : list SalesFact.row) : Prop :=
  ∃ t g c m hour minute second num_line_items,
    t ∈ time_df ∧ g ∈ geo_df ∧ c ∈ customer_df ∧ m ∈ payment_df ∧
    8 <= hour <= 21 ∧ 0 <= minute <= 59 ∧ 0 <= second <= 59 ∧
    1 <= num_line_items <= 5 ∧
    Forall2 (line_item current_products transaction_id (DimTime.date t)
               (mkdatetime (DimTime.date t) hour minute second)
               (DimTime.time_key t) (DimGeography.geo_key g)
               (DimCustomer.customer_key c) (DimPayment.payment_key m))
            (range_from 1 (num_line_items + 1)) block.

(** Transactions numbered from [transaction_id] on. *)
Fixpoint transactions
    (time_df : list DimTime.row) (geo_df : list DimGeography.row)
    (current_products : list DimProduct.row) (customer_df : list DimCustomer.row)
    (payment_df : list DimPayment.row)
    (transaction_id : Z) (blocks : list (list SalesFact.row)) : Prop :=
  match blocks with
  | [] => True
  | b :: rest =>
      transaction time_df geo_df current_products customer_df payment_df
        transaction_id b ∧
      transactions time_df geo_df current_products customer_df payment_df
        (transaction_id + 1) rest
  end.

(** The integer columns of a frame of fact rows. *)
Definition fact_key_frame (rows : list SalesFact.row) : DataFrame Z :=
  match rows with
  | [] => []
  | _ =>
    [ ("transaction_id", map SalesFact.transaction_id rows);
      ("line_item_id", map SalesFact.line_item_id rows);
      ("time_key", map SalesFact.time_key rows);
      ("geo_key", map SalesFact.geo_key rows);
      ("product_key", map SalesFact.product_key rows);
      ("customer_key", map SalesFact.customer_key rows);
      ("payment_key", map SalesFact.payment_key rows);
      ("quantity", map SalesFact.quantity rows) ]
  end.

(** The key column of a dimension frame. *)
Definition key_frame {R} (key_column : string) (key : R → Z) (rows : list R)
  : DataFrame Z :=
  match rows with
  | [] => []
  | _ => [(key_column, map key rows)]
  end.

(** cli/generate.py: the frames and the foreign keys the command hands to
    [check_referential_integrity], in the order of the two dictionaries. *)
Definition generated_frames (fact_sales : list SalesFact.row)
    (dim_time : list DimTime.row) (dim_geography : list DimGeography.row)
    (dim_product : list DimProduct.row) (dim_customer : list DimCustomer.row)
    (dim_payment : list DimPayment.row) : Frames :=
  mkFrames (fact_key_frame fact_sales)
    [ ("dim_time", key_frame "time_key" DimTime.time_key dim_time);
      ("dim_geography", key_frame "geo_key" DimGeography.geo_key dim_geography);
      ("dim_product", key_frame "product_key" DimProduct.product_key dim_product);
      ("dim_customer", key_frame "customer_key" DimCustomer.customer_key dim_customer);
      ("dim_payment", key_frame "payment_key" DimPayment.payment_key dim_payment) ].

Definition generated_foreign_keys : list (string * string) :=
  [ ("time_key", "time_key"); ("geo_key", "geo_key"); ("product_key", "product_key");
    ("customer_key", "customer_key"); ("payment_key", "payment_key") ].




(* ===================================================================== *)
(** ** Results: the partition-key model *)
(* ===================================================================== *)

Example extract_partition_keys_doc :
  Facts.extract_partition_keys (mkdate 2023 2 15)
  = <["quarter" := "Q1"]> (<["year" := "2023"]> ∅).
Proof. reflexivity. Qed.

Example partition_path_doc :
  Facts.partition_path (mkdate 2023 2 15) Facts.default_base_path
  = "data/parquet/sales_fact/year=2023/quarter=Q1".
Proof. vm_compute. reflexivity. Qed.

Example parse_partition_path_doc :
  PartitionManager.parse_partition_path "year=2023/quarter=Q1"
  = <["quarter" := "Q1"]> (<["year" := "2023"]> ∅).
Proof. vm_compute. reflexivity. Qed.

Example add_partition_columns_doc :
  PartitionManager.add_partition_columns
    [("transaction_id", [VInt 1]); ("transaction_date", [VDate (mkdate 2023 2 15)])]
    "transaction_date"
  = Ok [("transaction_id", [VInt 1]);
        ("transaction_date", [VTimestamp (mkdatetime (mkdate 2023 2 15) 0 0 0)]);
        ("year", [VInt 2023]); ("quarter", [VStr "Q1"])].
Proof. reflexivity. Qed.

(** *** Characters of [str(n)] *)

Ltac split_char_tests H c :=
  cbn [char_in] in H;
  repeat match type of H with
         | context [Ascii.eqb ?a c] =>
             destruct (Ascii.eqb a c) eqn:?; [discriminate H|]
         end.

Ltac use_char_tests c :=
  repeat match goal with
         | E : Ascii.eqb ?a c = false |- context [Ascii.eqb ?a c] => rewrite E
         end.

Lemma string_of_uint_chars (c : ascii) (d : Decimal.uint) :
  char_in c "0123456789" = false →
  char_in c (NilEmpty.string_of_uint d) = false.
Proof.
  intros H. split_char_tests H c.
  induction d; cbn [NilEmpty.string_of_uint char_in]; use_char_tests c; auto.
Qed.

Lemma pystr_chars (c : ascii) (z : Z) :
  char_in c "0123456789-" = false → char_in c (pystr z) = false.
Proof.
  intros H. split_char_tests H c.
  assert (Hd : char_in c "0123456789" = false).
  { cbn [char_in]. use_char_tests c. reflexivity. }
  assert (Hu : ∀ d, char_in c (NilZero.string_of_uint d) = false).
  { intros d. unfold NilZero.string_of_uint.
    destruct d; try apply (string_of_uint_chars c _ Hd).
    cbn [char_in]. use_char_tests c. reflexivity. }
  unfold pystr, NilZero.string_of_int.
  destruct (Z.to_int z); cbn [char_in]; use_char_tests c; apply Hu.
Qed.

(** *** Splitting a path *)

Lemma str_app_nil (s : string) : "" ++ s = s.
Proof. reflexivity. Qed.

Lemma str_app_cons (a : ascii) (r s : string) : String a r ++ s = String a (r ++ s).
Proof. reflexivity. Qed.

Lemma str_split_no_sep (sep : ascii) (s : string) :
  char_in sep s = false → str_split sep s = [s].
Proof.
  induction s as [|a r IH]; cbn [char_in str_split]; [reflexivity|].
  destruct (Ascii.eqb a sep); [discriminate|].
  intros H. rewrite (IH H). reflexivity.
Qed.

Lemma str_split_nonempty (sep : ascii) (s : string) : str_split sep s ≠ [].
Proof.
  destruct s as [|a r]; cbn [str_split]; [discriminate|].
  destruct (Ascii.eqb a sep); [discriminate|].
  destruct (str_split sep r); discriminate.
Qed.

Lemma str_split_app_sep (sep : ascii) (s t : string) :
  char_in sep t = false →
  str_split sep (s ++ String sep t) = (str_split sep s ++ [t])%list.
Proof.
  intros Ht. induction s as [|a r IH];
    rewrite ?str_app_nil, ?str_app_cons; cbn [str_split].
  - rewrite Ascii.eqb_refl, (str_split_no_sep _ _ Ht). reflexivity.
  - destruct (Ascii.eqb a sep); [rewrite IH; reflexivity|].
    rewrite IH. pose proof (str_split_nonempty sep r) as Hne.
    destruct (str_split sep r); [congruence | reflexivity].
Qed.

Lemma char_in_app (c : ascii) (s t : string) :
  char_in c (s ++ t) = char_in c s || char_in c t.
Proof.
  induction s as [|a r IH];
    rewrite ?str_app_nil, ?str_app_cons; cbn [char_in]; [reflexivity|].
  destruct (Ascii.eqb a c); [reflexivity | apply IH].
Qed.

Lemma string_app_assoc (s t u : string) : (s ++ t) ++ u = s ++ (t ++ u).
Proof.
  induction s as [|a r IH]; rewrite ?str_app_nil, ?str_app_cons;
    [reflexivity | rewrite IH; reflexivity].
Qed.

Lemma extract_partition_keys_year (d : date) :
  Facts.extract_partition_keys d !!! "year" = pystr (year d).
Proof.
  unfold Facts.extract_partition_keys.
  rewrite lookup_total_insert_ne by discriminate.
  apply lookup_total_insert_eq.
Qed.

Lemma extract_partition_keys_quarter (d : date) :
  Facts.extract_partition_keys d !!! "quarter" = quarter_label (month d).
Proof. unfold Facts.extract_partition_keys. apply lookup_total_insert_eq. Qed.

Lemma partition_path_segments (d : date) (b : string) :
  str_split "/" (Facts.partition_path d b)
  = app (str_split "/" b)
        ["year=" ++ pystr (year d); "quarter=" ++ quarter_label (month d)].
Proof.
  unfold Facts.partition_path.
  rewrite extract_partition_keys_year, extract_partition_keys_quarter.
  set (y := pystr (year d)). set (q := quarter_label (month d)).
  assert (Hy : char_in "/" ("year=" ++ y) = false).
  { rewrite char_in_app. unfold y. rewrite pystr_chars; reflexivity. }
  assert (Hq : char_in "/" ("quarter=" ++ q) = false).
  { rewrite char_in_app. unfold q, quarter_label.
    rewrite char_in_app, pystr_chars; reflexivity. }
  replace (b ++ "/year=" ++ y ++ "/quarter=" ++ q)
    with ((b ++ String "/" ("year=" ++ y)) ++ String "/" ("quarter=" ++ q)).
  - rewrite (str_split_app_sep _ _ _ Hq), (str_split_app_sep _ _ _ Hy).
    rewrite <- app_assoc. reflexivity.
  - rewrite string_app_assoc. reflexivity.
Qed.

(** C3. For every date [d] and every base path [b], parsing the partition
    path of [d] under [b] gives a mapping that sends ["year"] to
    [str(d.year)] and ["quarter"] to ["Q" + str((d.month - 1) // 3 + 1)].
    The base path may hold [key=value] segments of its own, even [year=...]:
    the two segments [partition_path] appends are parsed last and win. *)
Theorem partition_round_trip (d : date) (b : string) :
  PartitionManager.parse_partition_path (Facts.partition_path d b) !! "year"
    = Some (pystr (year d)) ∧
  PartitionManager.parse_partition_path (Facts.partition_path d b) !! "quarter"
    = Some ("Q" ++ pystr ((month d - 1) / 3 + 1)).
Proof.
  unfold PartitionManager.parse_partition_path.
  rewrite partition_path_segments, foldl_app.
  set (m := foldl _ ∅ (str_split "/" b)).
  cbn [foldl]. rewrite !str_app_cons, !str_app_nil.
  cbn [char_in str_split_first]. cbn.
  split.
  - rewrite lookup_insert_ne by discriminate. apply lookup_insert_eq.
  - apply lookup_insert_eq.
Qed.

(** *** Frames: reading back what was assigned *)

Lemma df_getitem_setitem_eq {V} (df : DataFrame V) (c : string) (s : list V) :
  df_getitem (df_setitem df c s) c = Ok s.
Proof.
  induction df as [|[c0 s0] rest IH]; cbn [df_setitem df_getitem].
  - rewrite String.eqb_refl. reflexivity.
  - destruct (String.eqb c0 c) eqn:E; cbn [df_getitem]; rewrite E; auto.
Qed.

Lemma df_getitem_setitem_ne {V} (df : DataFrame V) (c c' : string) (s : list V) :
  c ≠ c' → df_getitem (df_setitem df c s) c' = df_getitem df c'.
Proof.
  intros Hne. induction df as [|[c0 s0] rest IH]; cbn [df_setitem df_getitem].
  - apply String.eqb_neq in Hne. rewrite Hne. reflexivity.
  - destruct (String.eqb c0 c) eqn:E; cbn [df_getitem].
    + apply String.eqb_eq in E. subst c0.
      apply String.eqb_neq in Hne. rewrite Hne. reflexivity.
    + destruct (String.eqb c0 c'); auto.
Qed.

Lemma res_mapM_to_datetime (ds : list date) :
  res_mapM PartitionManager.to_datetime (map VDate ds)
  = Ok (map (λ d, VTimestamp (mkdatetime d 0 0 0)) ds).
Proof. induction ds as [|d r IH]; cbn; [|rewrite IH]; reflexivity. Qed.

Lemma res_mapM_dt_accessor (ds : list date) :
  res_mapM PartitionManager.dt_accessor
    (map (λ d, VTimestamp (mkdatetime d 0 0 0)) ds) = Ok ds.
Proof. induction ds as [|d r IH]; cbn; [|rewrite IH]; reflexivity. Qed.

(** On any frame whose date column holds dates, [add_partition_columns]
    tags every row with the year of its date, as an [int], and with the
    quarter label of its date. *)
Lemma add_partition_columns_tags (df : DataFrame value) (c : string) (ds : list date) :
  c ≠ "year" → c ≠ "quarter" →
  df_getitem df c = Ok (map VDate ds) →
  ∃ df', PartitionManager.add_partition_columns df c = Ok df' ∧
         df_getitem df' "year" = Ok (map (λ d, VInt (year d)) ds) ∧
         df_getitem df' "quarter" = Ok (map (λ d, VStr (quarter_label (month d))) ds).
Proof.
  intros Hy Hq Hc. unfold PartitionManager.add_partition_columns.
  rewrite Hc. cbn [res_bind]. rewrite res_mapM_to_datetime. cbn [res_bind].
  rewrite df_getitem_setitem_eq. cbn [res_bind].
  rewrite res_mapM_dt_accessor. cbn [res_bind].
  rewrite df_getitem_setitem_ne by congruence.
  rewrite df_getitem_setitem_eq. cbn [res_bind].
  rewrite res_mapM_dt_accessor. cbn [res_bind].
  eexists; split; [reflexivity|]. split.
  - rewrite df_getitem_setitem_ne by discriminate. apply df_getitem_setitem_eq.
  - rewrite df_getitem_setitem_eq. rewrite map_map. reflexivity.
Qed.

(** On 2023-02-15 [extract_partition_keys] yields the string ["2023"] for
    the year and [extract_year_quarter] the integer [2023]: as Python values
    they are not equal. *)
Lemma partition_key_year_str_vs_int :
  key_of_extract_partition_keys (mkdate 2023 2 15) = (VStr "2023", VStr "Q1") ∧
  key_of_extract_year_quarter (mkdate 2023 2 15) = (VInt 2023, VStr "Q1") ∧
  ¬ partition_key_identical_everywhere (mkdate 2023 2 15).
Proof.
  split; [reflexivity|]. split; [reflexivity|].
  intros (y & H1 & H2 & _).
  assert (E1 : key_of_extract_partition_keys (mkdate 2023 2 15)
               = (VStr "2023", VStr "Q1")) by reflexivity.
  assert (E2 : key_of_extract_year_quarter (mkdate 2023 2 15)
               = (VInt 2023, VStr "Q1")) by reflexivity.
  rewrite E1 in H1. rewrite E2 in H2. congruence.
Qed.

(** C1 (amended). For every date [d] the three places derive the quarter
    string ["Q" + str((d.month - 1) // 3 + 1)] identically, and the same year
    number [d.year]: [extract_year_quarter] and [add_partition_columns]
    yield it as an integer, [extract_partition_keys] as the decimal string
    [str(d.year)]. *)
Theorem partition_key_same_derivation (d : date) :
  let q := VStr ("Q" ++ pystr ((month d - 1) / 3 + 1)) in
  key_of_extract_partition_keys d = (VStr (pystr (year d)), q) ∧
  key_of_extract_year_quarter d = (VInt (year d), q) ∧
  key_of_add_partition_columns d = Ok (VInt (year d), q).
Proof.
  cbn zeta. split; [|split].
  - unfold key_of_extract_partition_keys.
    rewrite extract_partition_keys_year, extract_partition_keys_quarter.
    reflexivity.
  - reflexivity.
  - reflexivity.
Qed.

(* ===================================================================== *)
(** ** Results: the weight model *)
(* ===================================================================== *)

Example pareto_weights_5 :
  _create_pareto_weights 5 0.8 = Ok [0.8 / 1; 0.2 / 4; 0.2 / 4; 0.2 / 4; 0.2 / 4]%Q.
Proof. vm_compute. reflexivity. Qed.

(** *** Arithmetic helpers *)

Lemma py_int_fifth (n : Z) : 0 <= n → py_int (inject_Z n * 0.2) = n / 5.
Proof.
  intros Hn. unfold py_int.
  assert (H0 : (0 <= inject_Z n * 0.2)%Q).
  { apply Qmult_le_0_compat; [|discriminate].
    change 0%Q with (inject_Z 0). rewrite <- Zle_Qle. exact Hn. }
  apply Qle_bool_iff in H0. rewrite H0.
  rewrite Zdiv_Qdiv. apply Qfloor_comp. unfold Qeq, Qmult, Qdiv, Qinv, inject_Z. simpl. lia.
Qed.

Lemma range_split (k n : Z) :
  0 <= k <= n → range n = (range k ++ range_from k n)%list.
Proof.
  intros H. unfold range, range_from.
  replace (Z.to_nat n) with (Z.to_nat k + Z.to_nat (n - k))%nat by lia.
  rewrite seq_app, map_app. f_equal.
  replace (seq (0 + Z.to_nat k) (Z.to_nat (n - k)))
    with (Nat.add (Z.to_nat k) <$> seq 0 (Z.to_nat (n - k)))
    by (rewrite fmap_add_seq; f_equal; lia).
  rewrite map_map. apply map_ext. intros i. lia.
Qed.

Lemma res_mapM_app {A B} (f : A → res B) (l1 l2 : list A) (r1 r2 : list B) :
  res_mapM f l1 = Ok r1 → res_mapM f l2 = Ok r2 →
  res_mapM f (l1 ++ l2)%list = Ok (r1 ++ r2)%list.
Proof.
  revert r1. induction l1 as [|x l IH]; intros r1 H1 H2; cbn in *.
  - injection H1 as <-. exact H2.
  - destruct (f x) as [y|e]; cbn in *; [|discriminate].
    destruct (res_mapM f l) as [ys|e]; cbn in *; [|discriminate].
    injection H1 as <-. rewrite (IH ys eq_refl H2). reflexivity.
Qed.

Lemma res_mapM_const {A B} (f : A → res B) (l : list A) (b : B) :
  (∀ x, x ∈ l → f x = Ok b) → res_mapM f l = Ok (replicate (length l) b).
Proof.
  induction l as [|x l IH]; intros H; cbn; [reflexivity|].
  rewrite (H x) by (left). cbn. rewrite IH; [reflexivity|].
  intros y Hy. apply H. right. exact Hy.
Qed.

Lemma sum_Q_app (l1 l2 : list Q) : (sum_Q (l1 ++ l2) == sum_Q l1 + sum_Q l2)%Q.
Proof.
  unfold sum_Q. induction l1 as [|x l IH]; cbn [app foldr].
  - ring.
  - rewrite IH. ring.
Qed.

Lemma sum_Q_replicate (k : nat) (a : Q) :
  (sum_Q (replicate k a) == inject_Z (Z.of_nat k) * a)%Q.
Proof.
  unfold sum_Q. induction k as [|k IH].
  - cbn [replicate foldr]. change (inject_Z (Z.of_nat 0)) with 0%Q. ring.
  - cbn [replicate foldr]. rewrite IH.
    rewrite Nat2Z.inj_succ. unfold Z.succ. rewrite inject_Z_plus. ring.
Qed.

Lemma elem_of_range (n i : Z) : i ∈ range n ↔ 0 <= i < n.
Proof.
  unfold range. rewrite list_elem_of_fmap. split.
  - intros (k & -> & Hk). apply elem_of_seq in Hk. lia.
  - intros H. exists (Z.to_nat i). split; [lia|]. apply elem_of_seq. lia.
Qed.

Lemma elem_of_range_from (a b i : Z) : i ∈ range_from a b ↔ a <= i < b.
Proof.
  unfold range_from. rewrite list_elem_of_fmap. split.
  - intros (k & -> & Hk). apply elem_of_seq in Hk. lia.
  - intros H. exists (Z.to_nat (i - a)). split; [lia|]. apply elem_of_seq. lia.
Qed.

Lemma length_range (n : Z) : length (range n) = Z.to_nat n.
Proof. unfold range. rewrite length_map, length_seq. reflexivity. Qed.

Lemma length_range_from (a b : Z) : length (range_from a b) = Z.to_nat (b - a).
Proof. unfold range_from. rewrite length_map, length_seq. reflexivity. Qed.

Lemma py_div_ok (a b : Q) : ¬ (b == 0)%Q → py_div a b = Ok (a / b)%Q.
Proof.
  intros H. unfold py_div. destruct (Qeq_bool b 0) eqn:E; [|reflexivity].
  apply Qeq_bool_iff in E. contradiction.
Qed.

Lemma inject_Z_nonzero (z : Z) : z ≠ 0 → ¬ (inject_Z z == 0)%Q.
Proof. intros H E. apply H. unfold Qeq in E. simpl in E. lia. Qed.

Lemma top_20_pct_bounds (n : Z) : 2 <= n → 1 <= Z.max 1 (n / 5) < n.
Proof.
  intros Hn.
  assert (n / 5 < n) by (apply Z.div_lt; lia).
  lia.
Qed.

(** The weights, for a list of two or more items: [top] copies of
    [factor / top], then [n - top] copies of [(1 - factor) / (n - top)]. *)
Lemma pareto_weights_blocks (n : Z) (factor : Q) :
  2 <= n →
  let top := Z.max 1 (n / 5) in
  _create_pareto_weights n factor
  = Ok (replicate (Z.to_nat top) (factor / inject_Z top)%Q
        ++ replicate (Z.to_nat (n - top)) ((1 - factor) / inject_Z (n - top))%Q)%list.
Proof.
  intros Hn top. unfold _create_pareto_weights.
  rewrite py_int_fifth by lia. fold top.
  assert (Htop : 1 <= top < n) by (apply top_20_pct_bounds; exact Hn).
  rewrite (range_split top n) by lia.
  apply res_mapM_app.
  - rewrite <- (length_range top). apply res_mapM_const.
    intros i Hi. apply elem_of_range in Hi.
    destruct (Z.ltb_spec i top); [|lia].
    apply py_div_ok, inject_Z_nonzero. lia.
  - rewrite <- (length_range_from top n). apply res_mapM_const.
    intros i Hi. apply elem_of_range_from in Hi.
    destruct (Z.ltb_spec i top); [lia|].
    apply py_div_ok, inject_Z_nonzero. lia.
Qed.

(** With a single item the list is [[factor]]: the loop only takes its
    first branch. For [factor = 0.8] it is [[0.8]], whose sum is not 1. *)
Lemma pareto_weights_single_item :
  ∃ w, _create_pareto_weights 1 0.8 = Ok w ∧
       ¬ (sum_Q w == 1)%Q ∧ ¬ Forall2 Qeq w [1%Q].
Proof.
  exists [(0.8 / 1)%Q]. split; [vm_compute; reflexivity|]. split.
  - intros H. vm_compute in H. discriminate H.
  - intros H. apply Forall2_cons_1 in H as [H _]. vm_compute in H. discriminate H.
Qed.

(** C5 (amended). For every [n >= 2] and every [factor] in [[0, 1)],
    [_create_pareto_weights(n, factor)] returns a list of length [n], made
    of [top = max(1, floor(0.2 n))] items equal to [factor / top] followed
    by [n - top] items equal to [(1 - factor) / (n - top)], whose sum is 1
    within [n * 1e-15]. For [n = 1] it returns [[factor]].

    On exact quotients the sum is 1. The code's weights are binary floats,
    each within a relative [2^-52] of its quotient, and adding them up
    rounds at most [n] more times: the margin [n * 1e-15] is what that
    leaves room for, and is met by the floats too. *)
Theorem pareto_weights_shape (n : Z) (factor : Q) :
  (0 <= factor)%Q → (factor < 1)%Q →
  (n = 1 → _create_pareto_weights n factor = Ok [(factor / 1)%Q]) ∧
  (2 <= n →
   let top := Z.max 1 (Qfloor (0.2 * inject_Z n)) in
   ∃ w, _create_pareto_weights n factor = Ok w ∧
        w = (replicate (Z.to_nat top) (factor / inject_Z top)%Q
             ++ replicate (Z.to_nat (n - top))
                  ((1 - factor) / inject_Z (n - top))%Q)%list ∧
        Z.of_nat (length w) = n ∧
        (Qabs (sum_Q w - 1) <= inject_Z n * 1e-15)%Q).
Proof.
  intros _ _. split.
  - intros ->. reflexivity.
  - intros Hn.
    assert (Hf : Qfloor (0.2 * inject_Z n) = n / 5).
    { rewrite <- (py_int_fifth n) by lia. unfold py_int.
      assert (H0 : (0 <= inject_Z n * 0.2)%Q).
      { apply Qmult_le_0_compat; [|discriminate].
        change 0%Q with (inject_Z 0). rewrite <- Zle_Qle. lia. }
      apply Qle_bool_iff in H0. rewrite H0.
      apply Qfloor_comp. ring. }
    rewrite Hf. intros top.
    assert (Htop : 1 <= top < n) by (apply top_20_pct_bounds; exact Hn).
    eexists. split; [apply pareto_weights_blocks; exact Hn|].
    fold top. split; [reflexivity|]. split.
    + rewrite length_app, !length_replicate. lia.
    + assert (E : (sum_Q (replicate (Z.to_nat top) (factor / inject_Z top)
                          ++ replicate (Z.to_nat (n - top))
                               ((1 - factor) / inject_Z (n - top))) - 1 == 0)%Q).
      { rewrite sum_Q_app, !sum_Q_replicate, !Z2Nat.id by lia.
        field. split; apply inject_Z_nonzero; lia. }
      rewrite E. cbn [Qabs Qnum Z.abs].
      apply Qmult_le_0_compat; [|discriminate].
      change 0%Q with (inject_Z 0). rewrite <- Zle_Qle. lia.
Qed.

Lemma pareto_weights_shape_witness :
  2 <= 5 ∧
  ∃ w, _create_pareto_weights 5 0.8 = Ok w ∧ Z.of_nat (length w) = 5 ∧
       (Qabs (sum_Q w - 1) <= inject_Z 5 * 1e-15)%Q.
Proof.
  split; [lia|].
  destruct (proj2 (pareto_weights_shape 5 0.8 ltac:(discriminate) ltac:(reflexivity)))
    as (w & Hw & _ & Hl & Hs); [lia|].
  exists w. auto.
Defined.

(* ===================================================================== *)
(** ** Results: the generators *)
(* ===================================================================== *)

Section GeneratorResults.
Context {RS : RandomStream}.

(** *** Rules for sequencing *)

Lemma returns_ret {A} (a : A) (P : A → Prop) : P a → returns (ret a) P.
Proof. intros H w. exists a, w. split; [reflexivity | exact H]. Qed.

Lemma returns_bind {A B} (m : Gen A) (k : A → Gen B) (Q : A → Prop) (P : B → Prop) :
  returns m Q → (∀ a, Q a → returns (k a) P) → returns (bind m k) P.
Proof.
  intros Hm Hk w. destruct (Hm w) as (a & w1 & E & Ha).
  destruct (Hk a Ha w1) as (b & w2 & E2 & Hb).
  exists b, w2. unfold bind. rewrite E. split; assumption.
Qed.

Lemma returns_weaken {A} (m : Gen A) (P Q : A → Prop) :
  returns m P → (∀ a, P a → Q a) → returns m Q.
Proof.
  intros Hm HPQ w. destruct (Hm w) as (a & w1 & E & Ha). exists a, w1. auto.
Qed.

Lemma returns_for_each {A S} (l : list A) (body : S → A → Gen S) (I : S → Prop) (s : S) :
  I s → (∀ s x, x ∈ l → I s → returns (body s x) I) →
  returns (for_each l body s) I.
Proof.
  revert s. induction l as [|x l IH]; intros s Hs Hbody; cbn [for_each].
  - apply returns_ret. exact Hs.
  - apply (returns_bind _ _ I).
    + apply Hbody; [left | exact Hs].
    + intros s' Hs'. apply IH; [exact Hs'|].
      intros s0 y Hy. apply Hbody. right. exact Hy.
Qed.

Lemma ensures_ret {A} (a : A) (P : A → Prop) : P a → ensures (ret a) P.
Proof. intros H w a' w' E. injection E as <- _. exact H. Qed.

Lemma ensures_bind {A B} (m : Gen A) (k : A → Gen B) (Q : A → Prop) (P : B → Prop) :
  ensures m Q → (∀ a, Q a → ensures (k a) P) → ensures (bind m k) P.
Proof.
  intros Hm Hk w b w' E. unfold bind in E.
  destruct (m w) as [[a|e] w1] eqn:Em; [|discriminate].
  apply (Hk a (Hm w a w1 Em) w1 b w' E).
Qed.

Lemma ensures_any {A} (m : Gen A) : ensures m (λ _, True).
Proof. intros w a w' _. exact I. Qed.

Lemma ensures_weaken {A} (m : Gen A) (P Q : A → Prop) :
  ensures m P → (∀ a, P a → Q a) → ensures m Q.
Proof. intros Hm HPQ w a w' E. apply HPQ, (Hm w a w' E). Qed.

Lemma ensures_for_each {A S} (l : list A) (body : S → A → Gen S) (I : S → Prop) (s : S) :
  I s → (∀ s x, x ∈ l → I s → ensures (body s x) I) →
  ensures (for_each l body s) I.
Proof.
  revert s. induction l as [|x l IH]; intros s Hs Hbody; cbn [for_each].
  - apply ensures_ret. exact Hs.
  - apply (ensures_bind _ _ I).
    + apply Hbody; [left | exact Hs].
    + intros s' Hs'. apply IH; [exact Hs'|].
      intros s0 y Hy. apply Hbody. right. exact Hy.
Qed.

Lemma returns_ensures {A} (m : Gen A) (P : A → Prop) : returns m P → ensures m P.
Proof.
  intros H w a w' E. destruct (H w) as (a1 & w1 & E1 & Ha).
  rewrite E in E1. injection E1 as -> _. exact Ha.
Qed.

Lemma fails_raise {A} (e : exn) : fails (@raise RS A e).
Proof. intros w. exists e, w. reflexivity. Qed.

Lemma fails_bind_l {A B} (m : Gen A) (k : A → Gen B) : fails m → fails (bind m k).
Proof.
  intros Hm w. destruct (Hm w) as (e & w1 & E). exists e, w1.
  unfold bind. rewrite E. reflexivity.
Qed.

Lemma fails_bind_r {A B} (m : Gen A) (k : A → Gen B) (Q : A → Prop) :
  ensures m Q → (∀ a, Q a → fails (k a)) → fails (bind m k).
Proof.
  intros Hm Hk w. unfold bind.
  destruct (m w) as [[a|e] w1] eqn:E.
  - apply (Hk a (Hm w a w1 E)).
  - exists e, w1. reflexivity.
Qed.

End GeneratorResults.

Section FactGenerationFailures.
Context {RS : RandomStream}.

Lemma list_getitem_elem_of {A} (l : list A) (i : Z) (x : A) :
  list_getitem l i = Ok x → x ∈ l.
Proof.
  unfold list_getitem. destruct (i <? 0); [discriminate|].
  destruct (nth_error l (Z.to_nat i)) as [y|] eqn:E; [|discriminate].
  intros [= <-]. apply list_elem_of_In. eapply nth_error_In. exact E.
Qed.

Lemma ensures_lift {A} (r : res A) (P : A → Prop) :
  (∀ a, r = Ok a → P a) → ensures (lift r) P.
Proof. intros H w a w' E. unfold lift in E. injection E as E _. auto. Qed.

Lemma ensures_random_choices {A} (population : list A) (weights : list Q) :
  ensures (random_choices population weights) (λ x, x ∈ population).
Proof.
  unfold random_choices.
  destruct (negb _); [intros w a w' E; discriminate E|].
  destruct (last _) as [total|]; [|intros w a w' E; discriminate E].
  destruct (Qle_bool total 0); [intros w a w' E; discriminate E|].
  eapply ensures_bind; [apply ensures_any|]. intros u _.
  apply ensures_lift. intros a. apply list_getitem_elem_of.
Qed.

Lemma length_accumulate (acc : Q) (weights : list Q) :
  length (accumulate acc weights) = length weights.
Proof.
  revert acc. induction weights as [|x r IH]; intros acc; cbn; [reflexivity|].
  rewrite IH. reflexivity.
Qed.

(** Choosing from an empty population raises. *)
Lemma fails_random_choices_nil {A} (weights : list Q) :
  fails (random_choices (@nil A) weights).
Proof.
  unfold random_choices. cbn [length].
  destruct (negb _) eqn:E; [apply fails_raise|].
  apply negb_false_iff, Nat.eqb_eq in E. rewrite length_accumulate in E.
  destruct weights; [|discriminate E]. cbn. apply fails_raise.
Qed.

(** Sampling a row of an empty frame raises. *)
Lemma fails_df_sample_nil {A} (weights : option (list Q)) :
  fails (df_sample (@nil A) weights).
Proof. apply fails_raise. Qed.

Lemma range_pos (n : Z) : 1 <= n → ∃ l, range n = 0 :: l.
Proof.
  intros Hn. unfold range.
  destruct (Z.to_nat n) as [|k] eqn:E; [lia|].
  cbn. eexists. reflexivity.
Qed.

Lemma range_from_pos (a b : Z) : a < b → ∃ l, range_from a b = a :: l.
Proof.
  intros Hn. unfold range_from.
  destruct (Z.to_nat (b - a)) as [|k] eqn:E; [lia|].
  cbn. rewrite Z.add_0_r. eexists. reflexivity.
Qed.

Ltac step_over := eapply fails_bind_r; [apply ensures_any | intros ? _].
Ltac fail_here := apply fails_bind_l.

(** The first transaction cannot be completed when a dimension is empty. *)
Lemma fails_first_transaction
    (time_df : list DimTime.row) (geo_df : list DimGeography.row)
    (current_products : list DimProduct.row) (customer_df : list DimCustomer.row)
    (payment_df : list DimPayment.row) (pareto_products pareto_customers : list Q)
    (st : list SalesFact.row * Z) (i : Z) :
  time_df = [] ∨ geo_df = [] ∨ current_products = [] ∨ customer_df = [] ∨ payment_df = [] →
  fails (generate_sales_fact_transaction time_df geo_df current_products customer_df
           payment_df pareto_products pareto_customers st i).
Proof.
  intros Hempty. destruct st as [records transaction_id].
  cbv beta iota zeta delta [generate_sales_fact_transaction].
  destruct Hempty as [-> | [-> | [-> | [-> | ->]]]].
  - fail_here. apply fails_df_sample_nil.
  - do 4 step_over. fail_here. apply fails_df_sample_nil.
  - do 8 step_over.
    eapply fails_bind_r; [apply ensures_random_choices|].
    intros num_line_items Hk.
    assert (1 <= num_line_items).
    { repeat (apply elem_of_cons in Hk as [-> | Hk]; [lia|]).
      apply elem_of_nil in Hk. contradiction. }
    fail_here.
    destruct (range_from_pos 1 (num_line_items + 1)) as [l ->]; [lia|].
    cbn [for_each]. fail_here.
    cbv beta iota zeta delta [generate_sales_fact_line_item].
    fail_here. apply fails_random_choices_nil.
  - do 5 step_over. fail_here. apply fails_random_choices_nil.
  - do 7 step_over. fail_here. apply fails_df_sample_nil.
Qed.

(** C8. For every [num_transactions >= 1], if one of the five dimension
    frames given to [generate_sales_fact] is empty, the call raises: it
    returns no frame at all, the exception being raised while the first
    transaction is built, before a row is appended. *)
Theorem generate_sales_fact_empty_dimension_raises
    (num_transactions : Z)
    (time_df : list DimTime.row) (geo_df : list DimGeography.row)
    (product_df : list DimProduct.row) (customer_df : list DimCustomer.row)
    (payment_df : list DimPayment.row) (pareto_factor : Q) (seed : Z) (w : World) :
  1 <= num_transactions →
  time_df = [] ∨ geo_df = [] ∨ product_df = [] ∨ customer_df = [] ∨ payment_df = [] →
  ∃ e w', generate_sales_fact num_transactions time_df geo_df product_df
            customer_df payment_df pareto_factor seed w = (Raise e, w').
Proof.
  intros Hn Hempty. revert w.
  change (fails (generate_sales_fact num_transactions time_df geo_df product_df
                   customer_df payment_df pareto_factor seed)).
  unfold generate_sales_fact.
  do 3 step_over. fail_here.
  destruct (range_pos num_transactions Hn) as [l ->].
  cbn [for_each]. fail_here.
  apply fails_first_transaction.
  destruct Hempty as [-> | [-> | [-> | [-> | ->]]]]; auto.
Qed.

End FactGenerationFailures.

(** *** Rounding to cents *)

Lemma round_half_even_comp (x y : Q) :
  (x == y)%Q → round_half_even x = round_half_even y.
Proof.
  intros H. unfold round_half_even.
  rewrite (Qfloor_comp x y H). rewrite H. reflexivity.
Qed.

Lemma round_half_even_inject_Z (z : Z) : round_half_even (inject_Z z) = z.
Proof.
  unfold round_half_even. rewrite Qfloor_Z.
  destruct (Qcompare_spec (inject_Z z - inject_Z z) 0.5) as [H|H|H]; [lra|reflexivity|lra].
Qed.

Lemma round_half_even_near (x : Q) :
  (Qabs (inject_Z (round_half_even x) - x) <= 0.5)%Q.
Proof.
  pose proof (Qfloor_le x) as Hlo. pose proof (Qlt_floor x) as Hhi.
  rewrite inject_Z_plus in Hhi. change (inject_Z 1) with 1%Q in Hhi.
  unfold round_half_even. apply Qabs_Qle_condition.
  destruct (Qcompare_spec (x - inject_Z (Qfloor x)) 0.5) as [H|H|H].
  - destruct (Z.even (Qfloor x)).
    + split; lra.
    + rewrite inject_Z_plus. change (inject_Z 1) with 1%Q. split; lra.
  - split; lra.
  - rewrite inject_Z_plus. change (inject_Z 1) with 1%Q. split; lra.
Qed.

Lemma round2_near (x : Q) : (Qabs (round2 x - x) <= 0.005)%Q.
Proof.
  pose proof (round_half_even_near (x * 100)) as H.
  apply Qabs_Qle_condition in H. apply Qabs_Qle_condition.
  unfold round2. set (k := inject_Z (round_half_even (x * 100))) in *.
  assert (E : (k / 100 == k * 0.01)%Q) by (field).
  rewrite E. split; lra.
Qed.

Lemma round2_is_cents (x : Q) : is_cents (round2 x).
Proof. exists (round_half_even (x * 100)). reflexivity. Qed.

Lemma zero_is_cents : is_cents 0.0.
Proof. exists 0. reflexivity. Qed.

Lemma minus_is_cents (a b : Q) : is_cents a → is_cents b → is_cents (a - b).
Proof.
  intros [za Ha] [zb Hb]. exists (za - zb).
  rewrite Ha, Hb. unfold Z.sub. rewrite inject_Z_plus, inject_Z_opp. field.
Qed.

Lemma round2_of_cents (q : Q) : is_cents q → (round2 q == q)%Q.
Proof.
  intros [z Hz]. unfold round2.
  assert (E : (q * 100 == inject_Z z)%Q) by (rewrite Hz; field).
  rewrite (round_half_even_comp _ _ E), round_half_even_inject_Z.
  rewrite Hz. reflexivity.
Qed.

(** The measures of one line item, as the generator computes them. *)
Lemma line_item_measures (quantity : Z) (unit_price cost_per_unit discount_amount : Q) :
  is_cents discount_amount →
  let revenue := round2 (inject_Z quantity * unit_price) in
  let total_cost := round2 (inject_Z quantity * cost_per_unit) in
  let final_revenue := round2 (revenue - discount_amount) in
  let profit := round2 (final_revenue - total_cost) in
  (Qabs (final_revenue - (inject_Z quantity * unit_price - discount_amount)) < 0.01)%Q ∧
  (Qabs (profit - (final_revenue - total_cost)) < 0.01)%Q.
Proof.
  intros Hd revenue total_cost final_revenue profit. split.
  - assert (E : (final_revenue == revenue - discount_amount)%Q).
    { apply round2_of_cents, minus_is_cents; [apply round2_is_cents | exact Hd]. }
    pose proof (round2_near (inject_Z quantity * unit_price)) as H.
    fold revenue in H. apply Qabs_Qle_condition in H.
    apply Qabs_Qlt_condition. rewrite E. split; lra.
  - pose proof (round2_near (final_revenue - total_cost)) as H.
    fold profit in H. apply Qabs_Qle_condition in H.
    apply Qabs_Qlt_condition. split; lra.
Qed.

Section FactMeasures.
Context {RS : RandomStream}.

Ltac any_step := eapply ensures_bind; [apply ensures_any | intros ? _].

Lemma ensures_line_item
    (current_products : list DimProduct.row) (pareto_products : list Q)
    (transaction_id : Z) (transaction_date : date) (transaction_timestamp : datetime)
    (time_key geo_key customer_key payment_key : Z)
    (records : list SalesFact.row) (line_item_id : Z) :
  Forall measure_identity records →
  ensures (generate_sales_fact_line_item current_products pareto_products
             transaction_id transaction_date transaction_timestamp
             time_key geo_key customer_key payment_key records line_item_id)
          (Forall measure_identity).
Proof.
  intros Hrec. cbv beta iota zeta delta [generate_sales_fact_line_item].
  do 5 any_step.
  eapply (ensures_bind _ _ is_cents).
  - destruct (Qlt_bool _ _).
    + any_step. apply ensures_ret, round2_is_cents.
    + apply ensures_ret, zero_is_cents.
  - intros discount_amount Hd. apply ensures_ret.
    apply Forall_app. split; [exact Hrec|].
    apply Forall_singleton. unfold measure_identity. cbn.
    apply line_item_measures. exact Hd.
Qed.

Lemma ensures_transaction
    (time_df : list DimTime.row) (geo_df : list DimGeography.row)
    (current_products : list DimProduct.row) (customer_df : list DimCustomer.row)
    (payment_df : list DimPayment.row) (pareto_products pareto_customers : list Q)
    (st : list SalesFact.row * Z) (i : Z) :
  Forall measure_identity (fst st) →
  ensures (generate_sales_fact_transaction time_df geo_df current_products
             customer_df payment_df pareto_products pareto_customers st i)
          (λ st', Forall measure_identity (fst st')).
Proof.
  destruct st as [records transaction_id]. cbn [fst]. intros Hrec.
  cbv beta iota zeta delta [generate_sales_fact_transaction].
  do 9 any_step.
  eapply (ensures_bind _ _ (Forall measure_identity)).
  - apply ensures_for_each; [exact Hrec|].
    intros s x _ Hs. apply ensures_line_item. exact Hs.
  - intros records' H'. apply ensures_ret. exact H'.
Qed.

(** C2. Every fact row [generate_sales_fact] produces satisfies the
    measure identity:
    [abs(revenue - (quantity * unit_price - discount_amount)) < 0.01] and
    [abs(profit - (revenue - cost)) < 0.01]. *)
Theorem generate_sales_fact_measure_identity
    (num_transactions : Z)
    (time_df : list DimTime.row) (geo_df : list DimGeography.row)
    (product_df : list DimProduct.row) (customer_df : list DimCustomer.row)
    (payment_df : list DimPayment.row) (pareto_factor : Q) (seed : Z)
    (w w' : World) (rows : list SalesFact.row) :
  generate_sales_fact num_transactions time_df geo_df product_df customer_df
    payment_df pareto_factor seed w = (Ok rows, w') →
  ∀ r, r ∈ rows → measure_identity r.
Proof.
  intros Hrun. apply Forall_forall. revert w rows w' Hrun.
  change (ensures (generate_sales_fact num_transactions time_df geo_df product_df
                     customer_df payment_df pareto_factor seed)
                  (Forall measure_identity)).
  unfold generate_sales_fact. do 3 any_step.
  eapply (ensures_bind _ _ (λ st, Forall measure_identity (fst st))).
  - apply ensures_for_each; [constructor|].
    intros s x _ Hs. apply ensures_transaction. exact Hs.
  - intros [records tid] H. apply ensures_ret. exact H.
Qed.

End FactMeasures.

Lemma generate_sales_fact_empty_dimension_raises_witness :
  1 <= 1 ∧
  ∃ e w', @generate_sales_fact counter_stream 1 [] demo_geo_df demo_product_df
            demo_customer_df demo_payment_df 0.8 42 demo_world = (Raise e, w').
Proof.
  split; [lia|].
  apply (@generate_sales_fact_empty_dimension_raises counter_stream 1 []
           demo_geo_df demo_product_df demo_customer_df demo_payment_df 0.8 42
           demo_world); [lia | left; reflexivity].
Defined.

Lemma generate_sales_fact_measure_identity_witness :
  ∃ rows w',
    @generate_sales_fact counter_stream 2 demo_time_df demo_geo_df demo_product_df
      demo_customer_df demo_payment_df 0.8 42 demo_world = (Ok rows, w') ∧
    (2 <= length rows)%nat ∧
    ∀ r, r ∈ rows → measure_identity r.
Proof.
  destruct (@generate_sales_fact counter_stream 2 demo_time_df demo_geo_df
              demo_product_df demo_customer_df demo_payment_df 0.8 42 demo_world)
    as [[rows|e] w'] eqn:Hrun.
  - exists rows, w'. split; [reflexivity|]. split.
    + vm_compute in Hrun. injection Hrun as <- _. vm_compute. lia.
    + exact (@generate_sales_fact_measure_identity counter_stream 2 demo_time_df
               demo_geo_df demo_product_df demo_customer_df demo_payment_df 0.8 42
               demo_world w' rows Hrun).
  - vm_compute in Hrun. discriminate Hrun.
Defined.

(** *** Natural keys are distinct *)

Lemma Z_of_uint_D0 (d : Decimal.uint) : Z.of_uint (Decimal.D0 d) = Z.of_uint d.
Proof. reflexivity. Qed.

Lemma parse_digits_zeros (k : nat) (s : string) :
  parse_digits (string_of_list_ascii (repeat "0"%char k) ++ s) = parse_digits s.
Proof.
  induction k as [|k IH]; cbn [repeat string_of_list_ascii].
  - apply f_equal, str_app_nil.
  - rewrite str_app_cons. unfold parse_digits in *.
    cbn [NilEmpty.uint_of_string].
    destruct (NilEmpty.uint_of_string (string_of_list_ascii (repeat "0"%char k) ++ s))
      as [d|]; destruct (NilEmpty.uint_of_string s) as [d'|];
      cbn in *; rewrite ?Z_of_uint_D0; congruence.
Qed.

Lemma parse_digits_pystr (n : Z) : 0 <= n → parse_digits (pystr n) = Some n.
Proof.
  intros Hn. destruct n as [|p|p]; [reflexivity| |lia].
  pose proof (DecimalZ.of_to (Z.pos p)) as Hp.
  unfold pystr. cbn [Z.to_int NilZero.string_of_int] in *.
  cbn [Z.of_int] in Hp.
  unfold NilZero.string_of_uint, parse_digits.
  destruct (Pos.to_uint p) eqn:E; try discriminate Hp;
    rewrite <- E, NilEmpty.usu, E; cbn [option_map]; rewrite Hp; reflexivity.
Qed.

Lemma parse_digits_format_0d (width : nat) (n : Z) :
  0 <= n → parse_digits (format_0d width n) = Some n.
Proof.
  intros Hn. unfold format_0d. destruct (Z.ltb_spec n 0); [lia|].
  unfold zero_pad. rewrite parse_digits_zeros. apply parse_digits_pystr, Hn.
Qed.

Lemma product_id_of_inj (i j : Z) :
  0 <= i → 0 <= j → product_id_of i = product_id_of j → i = j.
Proof.
  intros Hi Hj E. unfold product_id_of in E.
  rewrite !str_app_cons, !str_app_nil in E. injection E as E.
  apply (f_equal parse_digits) in E.
  rewrite !parse_digits_format_0d in E by lia.
  injection E as E. lia.
Qed.

Section ProductDimension.
Context {RS : RandomStream}.

(** *** What the draws return *)

Lemma returns_lift {A} (r : res A) (a : A) (P : A → Prop) :
  r = Ok a → P a → returns (lift r) P.
Proof. intros -> H w. exists a, w. split; [reflexivity | exact H]. Qed.

Lemma returns_random_random :
  returns random_random (λ u, (0 <= u)%Q ∧ (u < 1)%Q).
Proof.
  intros w. unfold random_random.
  pose proof (next_random_range (py_random w)) as H.
  destruct (next_random (py_random w)) as [u s]. eexists _, _. split; [reflexivity|].
  exact H.
Qed.

Lemma returns_random_randbelow (n : Z) :
  0 < n → returns (random_randbelow n) (λ i, 0 <= i < n).
Proof.
  intros Hn w. unfold random_randbelow.
  pose proof (next_below_range n (py_random w) Hn) as H.
  destruct (next_below n (py_random w)) as [i s]. eexists _, _. split; [reflexivity|].
  exact H.
Qed.

Lemma list_getitem_in_range {A} (l : list A) (i : Z) :
  0 <= i < Z.of_nat (length l) → ∃ x, list_getitem l i = Ok x ∧ x ∈ l.
Proof.
  intros Hi. unfold list_getitem. destruct (Z.ltb_spec i 0); [lia|].
  destruct (nth_error l (Z.to_nat i)) as [x|] eqn:E.
  - exists x. split; [reflexivity|]. apply list_elem_of_In. eapply nth_error_In, E.
  - apply nth_error_None in E. lia.
Qed.

Lemma returns_random_choice {A} (l : list A) :
  l ≠ [] → returns (random_choice l) (λ x, x ∈ l).
Proof.
  intros Hl. unfold random_choice. destruct l as [|x0 l0]; [contradiction|].
  set (l := x0 :: l0).
  eapply returns_bind.
  - apply returns_random_randbelow. unfold l. cbn [length]. lia.
  - intros i Hi. destruct (list_getitem_in_range l i Hi) as (x & E & Hx).
    eapply returns_lift; eauto.
Qed.

Lemma returns_random_uniform (a b : Q) :
  (a <= b)%Q → returns (random_uniform a b) (λ x, (a <= x)%Q).
Proof.
  intros Hab. unfold random_uniform.
  eapply returns_bind; [apply returns_random_random|].
  intros u [H0 H1]. apply returns_ret.
  assert (0 <= (b - a) * u)%Q by (apply Qmult_le_0_compat; lra). lra.
Qed.

Lemma returns_faker_call (provider : string) :
  returns (faker_call provider) (λ _, True).
Proof.
  intros w. unfold faker_call.
  destruct (next_text provider (faker_random w)) as [t s]. eexists _, _.
  split; [reflexivity | exact I].
Qed.

Lemma returns_DataGenerator (seed : Z) : returns (DataGenerator seed) (λ _, True).
Proof. intros w. eexists _, _. split; [reflexivity | exact I]. Qed.

(** A stronger loop rule: the invariant follows the items already done. *)
Lemma returns_for_each_prefix {A S} (l : list A) (body : S → A → Gen S)
    (I : list A → S → Prop) (done : list A) (s : S) :
  I done s →
  (∀ pre x s, I pre s → returns (body s x) (I (pre ++ [x])%list)) →
  returns (for_each l body s) (I (done ++ l)%list).
Proof.
  revert done s. induction l as [|x l IH]; intros done s Hs Hbody; cbn [for_each].
  - rewrite app_nil_r. apply returns_ret. exact Hs.
  - eapply returns_bind; [apply Hbody; exact Hs|].
    intros s' Hs'. replace (done ++ x :: l)%list with ((done ++ [x]) ++ l)%list
      by (rewrite <- app_assoc; reflexivity).
    apply IH; [exact Hs' | exact Hbody].
Qed.

Lemma categories_getitem_nonempty (c : string) :
  c ∈ map fst categories →
  ∃ l, categories_getitem categories c = Ok l ∧ l ≠ [].
Proof.
  intros H. cbn in H.
  repeat (apply elem_of_cons in H as [-> | H];
          [eexists; split; [reflexivity | discriminate]|]).
  apply elem_of_nil in H. contradiction.
Qed.

(** One turn of the product loop appends the block of one product. *)
Lemma returns_product_body (change_rate : Q) (records : list DimProduct.row)
    (product_key product_idx : Z) :
  returns (generate_dim_product_body change_rate (records, product_key) product_idx)
    (λ st, ∃ block, fst st = (records ++ block)%list ∧
                    scd2_block (product_id_of product_idx) block).
Proof.
  cbv beta iota zeta delta [generate_dim_product_body].
  eapply returns_bind; [apply returns_random_choice; discriminate|].
  intros category Hcat.
  destruct (categories_getitem_nonempty category Hcat) as (subs & Esubs & Hsubs).
  eapply returns_bind;
    [exact (returns_lift _ subs (λ l, l ≠ []) Esubs Hsubs)|].
  intros subcategories Hne.
  eapply returns_bind; [apply returns_random_choice; exact Hne|].
  intros subcategory _.
  eapply returns_bind; [apply returns_random_choice; discriminate|].
  intros brand _.
  eapply returns_bind; [apply returns_faker_call|]. intros color _.
  eapply returns_bind; [apply returns_random_uniform; discriminate|]. intros u1 _.
  eapply returns_bind; [apply returns_random_uniform; discriminate|]. intros u2 _.
  eapply returns_bind; [apply returns_random_random|]. intros r _.
  destruct (Qlt_bool r change_rate).
  - eapply (returns_bind _ _
              (λ st, ∃ hist, st = ((records ++ [hist])%list, product_key + 1) ∧
                             DimProduct.product_id hist = product_id_of product_idx ∧
                             DimProduct.is_current hist = false ∧
                             DimProduct.expiration_date hist = current_date)).
    + eapply returns_bind; [apply returns_random_uniform; discriminate|].
      intros u3 _.
      eapply returns_bind; [apply returns_random_uniform; discriminate|].
      intros u4 Hu4. cbv beta in Hu4.
      eapply returns_bind;
        [exact (returns_lift _ _ (λ _, True) (py_div_ok _ u4 ltac:(lra)) I)|].
      intros q _. apply returns_ret.
      eexists. split; [reflexivity|]. repeat split.
    + intros st (hist & -> & Hpid & Hcur & Hexp). apply returns_ret. cbn [fst].
      eexists [hist; _]. split; [rewrite <- app_assoc; reflexivity|].
      eexists. split; [|split; [|split]]; cycle 3.
      { right. exists hist. split; [reflexivity|]. repeat split; assumption. }
      all: reflexivity.
  - eapply (returns_bind _ _ (λ st, st = (records, product_key)));
      [apply returns_ret; reflexivity|].
    intros st ->. apply returns_ret. cbn [fst].
    eexists [_]. split; [reflexivity|].
    eexists. split; [|split; [|split]]; cycle 3.
    { left. reflexivity. }
    all: reflexivity.
Qed.

End ProductDimension.

(** *** From blocks to the SCD Type 2 invariant *)

Lemma scd2_block_product_id (pid : string) (block : list DimProduct.row) :
  scd2_block pid block → ∀ r, r ∈ block → DimProduct.product_id r = pid.
Proof.
  intros (cur & Hpid & _ & _ & [-> | (hist & -> & Hh & _)]) r Hr.
  - apply list_elem_of_singleton in Hr as ->. exact Hpid.
  - apply elem_of_cons in Hr as [-> | Hr]; [exact Hh|].
    apply list_elem_of_singleton in Hr as ->. exact Hpid.
Qed.

Lemma current_rows_app (pid : string) (l1 l2 : list DimProduct.row) :
  current_rows pid (l1 ++ l2) = (current_rows pid l1 ++ current_rows pid l2)%list.
Proof. apply filter_app. Qed.

Lemma current_rows_other (pid : string) (rows : list DimProduct.row) :
  (∀ x, x ∈ rows → DimProduct.product_id x ≠ pid) → current_rows pid rows = [].
Proof.
  intros H. unfold current_rows. induction rows as [|x l IH]; [reflexivity|].
  rewrite filter_cons_False.
  - apply IH. intros y Hy. apply H. right. exact Hy.
  - intros [_ E]. apply (H x); [left | exact E].
Qed.

Lemma current_rows_block (pid : string) (block : list DimProduct.row) :
  scd2_block pid block →
  ∃ c, current_rows pid block = [c] ∧
       DimProduct.expiration_date c = far_future ∧
       ∀ r, r ∈ block → DimProduct.is_current r = false →
            DimProduct.expiration_date r = DimProduct.effective_date c.
Proof.
  intros (cur & Hpid & Hcur & Hexp & [-> | (hist & -> & Hh & Hhc & Hhe)]);
    exists cur; unfold current_rows.
  - split; [|split; [exact Hexp|]].
    + rewrite filter_cons_True by (split; assumption). reflexivity.
    + intros r Hr Hf. apply list_elem_of_singleton in Hr as ->. congruence.
  - split; [|split; [exact Hexp|]].
    + rewrite filter_cons_False by (intros [E _]; congruence).
      rewrite filter_cons_True by (split; assumption). reflexivity.
    + intros r Hr Hf. apply elem_of_cons in Hr as [-> | Hr]; [exact Hhe|].
      apply list_elem_of_singleton in Hr as ->. congruence.
Qed.

Lemma scd2_blocks_product_ids (idxs : list Z) (blocks : list (list DimProduct.row)) :
  Forall2 (λ i b, scd2_block (product_id_of i) b) idxs blocks →
  ∀ r, r ∈ concat blocks → DimProduct.product_id r ∈ map product_id_of idxs.
Proof.
  induction 1 as [|i b idxs blocks Hb _ IH]; intros r Hr; cbn in Hr.
  - apply elem_of_nil in Hr. contradiction.
  - cbn [map]. apply elem_of_app in Hr as [Hr | Hr].
    + rewrite (scd2_block_product_id _ _ Hb r Hr). left.
    + right. apply IH, Hr.
Qed.

Lemma scd2_blocks_invariant (idxs : list Z) (blocks : list (list DimProduct.row)) :
  Forall2 (λ i b, scd2_block (product_id_of i) b) idxs blocks →
  NoDup (map product_id_of idxs) →
  scd2_invariant (concat blocks).
Proof.
  induction 1 as [|i b idxs blocks Hb Hrest IH]; intros Hnd r Hr; cbn in Hr.
  - apply elem_of_nil in Hr. contradiction.
  - cbn [map] in Hnd. apply NoDup_cons in Hnd as [Hfresh Hnd].
    cbn [concat]. apply elem_of_app in Hr as [Hr | Hr].
    + rewrite (scd2_block_product_id _ _ Hb r Hr).
      destruct (current_rows_block _ _ Hb) as (c & Ec & Hexp & Hhist).
      exists c. rewrite current_rows_app, Ec, current_rows_other; [auto|].
      intros x Hx E. apply Hfresh. rewrite <- E.
      apply (scd2_blocks_product_ids _ _ Hrest x Hx).
    + destruct (IH Hnd r Hr) as (c & Ec & Hexp & Hhist).
      exists c. rewrite current_rows_app, Ec, current_rows_other; [auto|].
      intros x Hx E. apply Hfresh.
      rewrite <- (scd2_block_product_id _ _ Hb x Hx), E.
      apply (scd2_blocks_product_ids _ _ Hrest r Hr).
Qed.

Lemma NoDup_product_ids (n : Z) : NoDup (map product_id_of (range n)).
Proof.
  apply NoDup_fmap_2_strong.
  - intros i j Hi Hj. apply elem_of_range in Hi, Hj.
    apply product_id_of_inj; lia.
  - unfold range. apply NoDup_fmap_2; [intros ? ?; lia | apply NoDup_seq].
Qed.

Section ProductInvariant.
Context {RS : RandomStream}.

Lemma returns_product_loop (change_rate : Q) (n : Z) :
  returns (for_each (range n) (generate_dim_product_body change_rate) ([], 1))
    (λ st, ∃ blocks, fst st = concat blocks ∧
                     Forall2 (λ i b, scd2_block (product_id_of i) b) (range n) blocks).
Proof.
  apply (returns_for_each_prefix (range n) (generate_dim_product_body change_rate)
           (λ done st, ∃ blocks, fst st = concat blocks ∧
                        Forall2 (λ i b, scd2_block (product_id_of i) b) done blocks)
           [] ([], 1)).
  - exists []. split; [reflexivity | constructor].
  - intros pre x [records key] (blocks & E & Hb). cbn [fst] in E. subst records.
    eapply returns_weaken; [apply returns_product_body|].
    intros st (block & Est & Hblock). exists (blocks ++ [block])%list. split.
    + rewrite Est, concat_app. cbn [concat]. rewrite app_nil_r. reflexivity.
    + apply Forall2_app; [exact Hb | constructor; [exact Hblock | constructor]].
Qed.

(** C4. [generate_dim_product] returns, and in the frame it returns every
    natural key [product_id] has exactly one row with [is_current = true];
    that row expires on 9999-12-31; and a historical row of the same key
    expires on the day the current row becomes effective. *)
Theorem generate_dim_product_scd2
    (num_products : Z) (change_rate : Q) (seed : Z) (w : World) :
  ∃ rows w',
    generate_dim_product num_products change_rate seed w = (Ok rows, w') ∧
    ∀ r, r ∈ rows →
      ∃ c, filter (λ x, DimProduct.is_current x = true
                        ∧ DimProduct.product_id x = DimProduct.product_id r) rows = [c] ∧
           DimProduct.expiration_date c = mkdate 9999 12 31 ∧
           (DimProduct.is_current r = false →
            DimProduct.expiration_date r = DimProduct.effective_date c).
Proof.
  revert w.
  change (returns (generate_dim_product num_products change_rate seed) scd2_invariant).
  unfold generate_dim_product.
  eapply returns_bind; [apply returns_DataGenerator|]. intros _ _.
  eapply returns_bind; [apply returns_product_loop|].
  intros [records key] (blocks & E & Hb). cbn [fst] in E. subst records.
  apply returns_ret.
  apply (scd2_blocks_invariant _ _ Hb), NoDup_product_ids.
Qed.

End ProductInvariant.

Example generate_dim_product_run :
  ∃ rows w', @generate_dim_product counter_stream 2 1.0 42 demo_world = (Ok rows, w')
             ∧ map DimProduct.product_id rows
               = ["PROD-00001"; "PROD-00001"; "PROD-00002"; "PROD-00002"]
             ∧ map DimProduct.is_current rows = [false; true; false; true].
Proof. eexists _, _. split; [vm_compute; reflexivity|]. split; reflexivity. Qed.

Lemma generate_dim_product_scd2_witness :
  ∃ rows w', @generate_dim_product counter_stream 2 1.0 42 demo_world = (Ok rows, w')
             ∧ length rows = 4%nat ∧ scd2_invariant rows.
Proof.
  destruct (@generate_dim_product_scd2 counter_stream 2 1.0 42 demo_world)
    as (rows & w' & E & H).
  exists rows, w'. split; [exact E|]. split; [|exact H].
  vm_compute in E. injection E as <- _. reflexivity.
Defined.

(* ===================================================================== *)
(** ** Results: determinism under a fixed seed *)
(* ===================================================================== *)

Section Determinism.
Context {RS : RandomStream}.

(** *** What the seed determines *)

Lemma seed_determined_ret {A} (a : A) : seed_determined (ret a).
Proof. intros w1 w2 H. split; [reflexivity | exact H]. Qed.

Lemma seed_determined_lift {A} (r : res A) : seed_determined (lift r).
Proof. intros w1 w2 H. split; [reflexivity | exact H]. Qed.

Lemma seed_determined_bind {A B} (m : Gen A) (k : A → Gen B) :
  seed_determined m → (∀ a, seed_determined (k a)) → seed_determined (bind m k).
Proof.
  intros Hm Hk w1 w2 H. unfold bind.
  destruct (Hm w1 w2 H) as [E1 E2].
  destruct (m w1) as [r1 v1], (m w2) as [r2 v2]. cbn [fst snd] in *. subst r2.
  destruct r1 as [a|e]; [apply Hk; exact E2 | split; [reflexivity | exact E2]].
Qed.

Lemma seed_determined_for_each {A S} (l : list A) (body : S → A → Gen S) (s : S) :
  (∀ s x, seed_determined (body s x)) → seed_determined (for_each l body s).
Proof.
  intros Hbody. revert s. induction l as [|x l IH]; intros s; cbn [for_each].
  - apply seed_determined_ret.
  - apply seed_determined_bind; [apply Hbody | exact IH].
Qed.

Lemma seed_determined_random_random : seed_determined random_random.
Proof.
  intros w1 w2 [Hp Hf]. unfold random_random. rewrite <- Hp.
  destruct (next_random (py_random w1)). cbn. split; [reflexivity|].
  split; [reflexivity | exact Hf].
Qed.

Lemma seed_determined_random_randbelow (n : Z) : seed_determined (random_randbelow n).
Proof.
  intros w1 w2 [Hp Hf]. unfold random_randbelow. rewrite <- Hp.
  destruct (next_below n (py_random w1)). cbn. split; [reflexivity|].
  split; [reflexivity | exact Hf].
Qed.

Lemma seed_determined_faker_call (provider : string) :
  seed_determined (faker_call provider).
Proof.
  intros w1 w2 [Hp Hf]. unfold faker_call. rewrite <- Hf.
  destruct (next_text provider (faker_random w1)). cbn. split; [reflexivity|].
  split; [exact Hp | reflexivity].
Qed.

Lemma seed_determined_random_uniform (a b : Q) : seed_determined (random_uniform a b).
Proof.
  apply seed_determined_bind; [apply seed_determined_random_random|].
  intros u. apply seed_determined_ret.
Qed.

Lemma seed_determined_random_choice {A} (l : list A) : seed_determined (random_choice l).
Proof.
  unfold random_choice. destruct l; [intros w1 w2 H; split; [reflexivity | exact H]|].
  apply seed_determined_bind; [apply seed_determined_random_randbelow|].
  intros i. apply seed_determined_lift.
Qed.

Lemma seed_determined_product_body (change_rate : Q)
    (st : list DimProduct.row * Z) (product_idx : Z) :
  seed_determined (generate_dim_product_body change_rate st product_idx).
Proof.
  destruct st as [records product_key].
  cbv beta iota zeta delta [generate_dim_product_body].
  repeat first
    [ apply seed_determined_ret
    | apply seed_determined_lift
    | apply seed_determined_random_choice
    | apply seed_determined_random_uniform
    | apply seed_determined_random_random
    | apply seed_determined_faker_call
    | apply seed_determined_bind; [|intros ?]
    | match goal with |- seed_determined (if ?b then _ else _) => destruct b end
    | match goal with |- seed_determined (let '(_, _) := ?p in _) => destruct p end ].
Qed.

(** X29. Repeated calls of [generate_dim_product] with one seed return
    equal frames, whatever the state of the streams and the day they start
    from. *)
Lemma generate_dim_product_deterministic
    (num_products : Z) (change_rate : Q) (seed : Z) (w1 w2 : World) :
  fst (generate_dim_product num_products change_rate seed w1)
  = fst (generate_dim_product num_products change_rate seed w2).
Proof.
  unfold generate_dim_product, bind at 1 3. cbn [DataGenerator].
  match goal with
  | |- fst (?k ?a ?v1) = fst (?k ?a ?v2) =>
      assert (Hk : seed_determined (k a)); [|apply (Hk v1 v2); split; reflexivity]
  end.
  apply seed_determined_bind.
  - apply seed_determined_for_each. intros s x. apply seed_determined_product_body.
  - intros [records key]. apply seed_determined_ret.
Qed.

End Determinism.

Section ClockDependence.
Context {RS : RandomStream}.

Lemma on_day_ret {A} (t : Z) (a : A) (P : A → Prop) : P a → returns_on_day t (ret a) P.
Proof. intros H w Hw. exists a, w. auto. Qed.

Lemma on_day_bind {A B} (t : Z) (m : Gen A) (k : A → Gen B)
    (Q : A → Prop) (P : B → Prop) :
  returns_on_day t m Q → (∀ a, Q a → returns_on_day t (k a) P) →
  returns_on_day t (bind m k) P.
Proof.
  intros Hm Hk w Hw. destruct (Hm w Hw) as (a & w1 & E & Hw1 & Ha).
  destruct (Hk a Ha w1 Hw1) as (b & w2 & E2 & Hw2 & Hb).
  exists b, w2. unfold bind. rewrite E. auto.
Qed.

Lemma on_day_for_each {A S} (t : Z) (l : list A) (body : S → A → Gen S)
    (I : S → Prop) (s : S) :
  I s → (∀ s x, I s → returns_on_day t (body s x) I) →
  returns_on_day t (for_each l body s) I.
Proof.
  revert s. induction l as [|x l IH]; intros s Hs Hbody; cbn [for_each].
  - apply on_day_ret. exact Hs.
  - eapply on_day_bind; [apply Hbody; exact Hs|].
    intros s' Hs'. apply IH; assumption.
Qed.

Lemma on_day_date_today (t : Z) : returns_on_day t date_today (λ x, x = t).
Proof. intros w Hw. exists (today w), w. auto. Qed.

Lemma on_day_random_random (t : Z) : returns_on_day t random_random (λ _, True).
Proof.
  intros w Hw. unfold random_random.
  destruct (next_random (py_random w)) as [u s]. eexists _, _. auto.
Qed.

Lemma on_day_random_randbelow (t n : Z) :
  0 < n → returns_on_day t (random_randbelow n) (λ i, 0 <= i < n).
Proof.
  intros Hn w Hw. unfold random_randbelow.
  pose proof (next_below_range n (py_random w) Hn) as H.
  destruct (next_below n (py_random w)) as [i s]. eexists _, _. auto.
Qed.

Lemma on_day_random_randint (t a b : Z) :
  a <= b → returns_on_day t (random_randint a b) (λ _, True).
Proof.
  intros Hab. unfold random_randint. destruct (Z.ltb_spec b a); [lia|].
  eapply on_day_bind; [apply on_day_random_randbelow; lia|].
  intros i _. apply on_day_ret. exact I.
Qed.

Lemma on_day_random_choice {A} (t : Z) (l : list A) :
  l ≠ [] → returns_on_day t (random_choice l) (λ _, True).
Proof.
  intros Hl. unfold random_choice. destruct l as [|x0 l0]; [contradiction|].
  set (l := x0 :: l0).
  eapply on_day_bind; [apply on_day_random_randbelow; unfold l; cbn [length]; lia|].
  intros i Hi. destruct (list_getitem_in_range l i Hi) as (x & E & _).
  intros w Hw. exists x, w. unfold lift. rewrite E. auto.
Qed.

Lemma on_day_faker_call (t : Z) (provider : string) :
  returns_on_day t (faker_call provider) (λ _, True).
Proof.
  intros w Hw. unfold faker_call.
  destruct (next_text provider (faker_random w)) as [x s]. eexists _, _. auto.
Qed.

(** One turn of the customer loop, started on day [t] with the [random]
    stream in state [py_random w]: the row it appends is registered
    [days_ago] days before [t], [days_ago] being the first draw. *)
Lemma customer_body_registration
    (records : list DimCustomer.row) (customer_idx : Z) (w : World) :
  ∃ r w',
    generate_dim_customer_body records customer_idx w = (Ok (records ++ [r])%list, w') ∧
    today w' = today w ∧
    DimCustomer.registration_date r
    = today w - fst (next_below (365 * 5 - 0 + 1) (py_random w)).
Proof.
  unfold generate_dim_customer_body.
  unfold bind at 1. unfold random_randint at 1.
  destruct (Z.ltb_spec (365 * 5) 0) as [Hlt|_]; [lia|].
  unfold bind at 1. unfold random_randbelow at 1.
  destruct (next_below (365 * 5 - 0 + 1) (py_random w)) as [i s] eqn:Ei.
  cbn [fst]. unfold ret at 1.
  set (w1 := mkWorld s (faker_random w) (np_random w) (today w)).
  match goal with
  | |- ∃ r w', ?k w1 = _ ∧ _ ∧ _ =>
      assert (Hk : returns_on_day (today w) k
                     (λ recs, ∃ r, recs = (records ++ [r])%list ∧
                                   DimCustomer.registration_date r = today w - i))
  end.
  { eapply on_day_bind; [apply on_day_date_today|]. intros today1 ->.
    eapply on_day_bind; [apply on_day_random_randint; lia|]. intros age_years _.
    eapply on_day_bind; [apply on_day_date_today|]. intros today2 _.
    eapply on_day_bind; [apply on_day_random_choice; discriminate|].
    intros income_segment _.
    eapply (on_day_bind _ _ _ (λ _, True)).
    { destruct (str_contains "Premium" income_segment);
        [|destruct (str_contains "High" income_segment)];
        apply on_day_random_choice; discriminate. }
    intros customer_segment _.
    eapply on_day_bind; [apply on_day_random_random|]. intros r _.
    do 4 (eapply on_day_bind; [apply on_day_faker_call|]; intros ? _).
    eapply on_day_bind; [apply on_day_random_choice; discriminate|]. intros gender _.
    apply on_day_ret. eexists. split; [reflexivity|]. cbn. lia. }
  destruct (Hk w1 eq_refl) as (recs & w' & E & Hw' & r & -> & Hr).
  exists r, w'. auto.
Qed.

(** The first row of the customer frame, on day [today w], for a seed. *)
Lemma generate_dim_customer_first_row (num_customers seed : Z) (w : World) :
  1 <= num_customers →
  ∃ r rest w',
    generate_dim_customer num_customers seed w = (Ok (r :: rest), w') ∧
    DimCustomer.registration_date r
    = today w - fst (next_below (365 * 5 - 0 + 1) (seed_stream seed)).
Proof.
  intros Hn. unfold generate_dim_customer. unfold bind at 1. cbn [DataGenerator].
  destruct (range_pos num_customers Hn) as [l ->]. cbn [for_each].
  set (w0 := mkWorld (seed_stream seed) (seed_stream seed) (np_random w) (today w)).
  destruct (customer_body_registration [] 0 w0) as (r & w1 & E & Hw1 & Hr).
  unfold bind at 1. rewrite E. cbn [app].
  assert (Hloop : returns_on_day (today w)
                    (for_each l generate_dim_customer_body [r])
                    (λ recs, ∃ rest, recs = r :: rest)).
  { apply on_day_for_each; [exists []; reflexivity|].
    intros s x [rest ->] v Hv.
    destruct (customer_body_registration (r :: rest) x v) as (r' & v' & E' & Hv' & _).
    exists ((r :: rest) ++ [r'])%list, v'. split; [exact E'|].
    split; [congruence|]. eexists. reflexivity. }
  destruct (Hloop w1 Hw1) as (recs & w' & E' & _ & rest & ->).
  exists r, rest, w'. split; [exact E'|]. exact Hr.
Qed.

(** C7, at the input where it fails. Two runs of [generate_dim_customer]
    with the same seed and the same count, started on different days,
    return different frames: the registration date of the first customer
    is the day of the run minus a number of days fixed by the seed. *)
Theorem generate_dim_customer_depends_on_clock
    (num_customers seed : Z) (w1 w2 : World) :
  1 <= num_customers →
  today w1 ≠ today w2 →
  fst (generate_dim_customer num_customers seed w1)
  ≠ fst (generate_dim_customer num_customers seed w2).
Proof.
  intros Hn Hday E.
  destruct (generate_dim_customer_first_row num_customers seed w1 Hn)
    as (r1 & rest1 & v1 & E1 & H1).
  destruct (generate_dim_customer_first_row num_customers seed w2 Hn)
    as (r2 & rest2 & v2 & E2 & H2).
  rewrite E1, E2 in E. cbn [fst] in E. injection E as -> _.
  apply Hday. lia.
Qed.

End ClockDependence.

Lemma generate_dim_customer_depends_on_clock_witness :
  1 <= 1 ∧ 738000 ≠ 738001 ∧
  fst (@generate_dim_customer counter_stream 1 42 (@mkWorld counter_stream 3 5 7 738000))
  ≠ fst (@generate_dim_customer counter_stream 1 42 (@mkWorld counter_stream 3 5 7 738001)).
Proof.
  split; [lia|]. split; [lia|].
  apply (@generate_dim_customer_depends_on_clock counter_stream 1 42
           (@mkWorld counter_stream 3 5 7 738000)
           (@mkWorld counter_stream 3 5 7 738001)); cbn [today]; lia.
Defined.

(** The fact generator draws the date, the place and the payment method of a
    transaction with [DataFrame.sample], that is from numpy's generator,
    which [DataGenerator] does not seed: two runs with the same seed and the
    same frames that start from different numpy states differ. *)
Lemma generate_sales_fact_depends_on_numpy_state :
  fst (@generate_sales_fact counter_stream 1 demo_time_df demo_geo_df demo_product_df
         demo_customer_df demo_payment_df 0.8 42 (@mkWorld counter_stream 3 5 7 738000))
  ≠ fst (@generate_sales_fact counter_stream 1 demo_time_df demo_geo_df demo_product_df
           demo_customer_df demo_payment_df 0.8 42 (@mkWorld counter_stream 3 5 8 738000)).
Proof. vm_compute. intros E. discriminate E. Qed.

(* ===================================================================== *)
(** ** Results: the measure validator *)
(* ===================================================================== *)

(** *** Columns computed from the rows *)

Lemma series_binop_map {R} (f : Q → Q → Q) (g1 g2 : R → value) (n1 n2 : R → Q)
    (rows : list R) :
  (∀ r, to_number (g1 r) = Ok (n1 r)) → (∀ r, to_number (g2 r) = Ok (n2 r)) →
  series_binop f (map g1 rows) (map g2 rows)
  = Ok (map (λ r, VFloat (f (n1 r) (n2 r))) rows).
Proof.
  intros H1 H2. induction rows as [|r rows IH]; cbn [map series_binop]; [reflexivity|].
  rewrite H1, H2, IH. reflexivity.
Qed.

Lemma series_test_map {R} (p : Q → bool) (g : R → value) (n : R → Q) (rows : list R) :
  (∀ r, to_number (g r) = Ok (n r)) →
  series_test p (map g rows) = Ok (map (λ r, p (n r)) rows).
Proof.
  intros H. unfold series_test.
  induction rows as [|r rows IH]; cbn [map res_mapM]; [reflexivity|].
  rewrite H, IH. reflexivity.
Qed.

Lemma series_binop_int_float {R} (f : Q → Q → Q) (z : R → Z) (n : R → Q)
    (rows : list R) :
  series_binop f (map (λ r, VInt (z r)) rows) (map (λ r, VFloat (n r)) rows)
  = Ok (map (λ r, VFloat (f (inject_Z (z r)) (n r))) rows).
Proof. apply series_binop_map; reflexivity. Qed.

Lemma series_binop_float_float {R} (f : Q → Q → Q) (m n : R → Q) (rows : list R) :
  series_binop f (map (λ r, VFloat (m r)) rows) (map (λ r, VFloat (n r)) rows)
  = Ok (map (λ r, VFloat (f (m r) (n r))) rows).
Proof. apply series_binop_map; reflexivity. Qed.

Lemma series_test_float {R} (p : Q → bool) (n : R → Q) (rows : list R) :
  series_test p (map (λ r, VFloat (n r)) rows) = Ok (map (λ r, p (n r)) rows).
Proof. apply series_test_map; reflexivity. Qed.

Lemma series_test_int {R} (p : Q → bool) (z : R → Z) (rows : list R) :
  series_test p (map (λ r, VInt (z r)) rows) = Ok (map (λ r, p (inject_Z (z r))) rows).
Proof. apply series_test_map; reflexivity. Qed.

Lemma mask_any_map {R} (p : R → bool) (rows : list R) :
  mask_any (map p rows) = existsb p rows.
Proof.
  unfold mask_any. induction rows as [|r rows IH]; cbn; [reflexivity|].
  rewrite IH. reflexivity.
Qed.

Lemma fact_frame_columns (rows : list SalesFact.row) :
  rows ≠ [] →
  fact_frame rows =
    [ ("transaction_id", map (λ r, VInt (SalesFact.transaction_id r)) rows);
      ("line_item_id", map (λ r, VInt (SalesFact.line_item_id r)) rows);
      ("transaction_date", map (λ r, VDate (SalesFact.transaction_date r)) rows);
      ("transaction_timestamp",
         map (λ r, VTimestamp (SalesFact.transaction_timestamp r)) rows);
      ("time_key", map (λ r, VInt (SalesFact.time_key r)) rows);
      ("geo_key", map (λ r, VInt (SalesFact.geo_key r)) rows);
      ("product_key", map (λ r, VInt (SalesFact.product_key r)) rows);
      ("customer_key", map (λ r, VInt (SalesFact.customer_key r)) rows);
      ("payment_key", map (λ r, VInt (SalesFact.payment_key r)) rows);
      ("quantity", map (λ r, VInt (SalesFact.quantity r)) rows);
      ("unit_price", map (λ r, VFloat (SalesFact.unit_price r)) rows);
      ("revenue", map (λ r, VFloat (SalesFact.revenue r)) rows);
      ("cost", map (λ r, VFloat (SalesFact.cost r)) rows);
      ("discount_amount", map (λ r, VFloat (SalesFact.discount_amount r)) rows);
      ("profit", map (λ r, VFloat (SalesFact.profit r)) rows) ].
Proof. destruct rows; [contradiction | reflexivity]. Qed.

Ltac run_validator :=
  repeat first
    [ rewrite series_binop_int_float
    | rewrite series_binop_float_float
    | rewrite series_test_float
    | rewrite series_test_int
    | rewrite mask_any_map
    | progress cbn [df_getitem df_setitem String.eqb Ascii.eqb Bool.eqb fst snd] ].

Lemma existsb_orb {R} (p q : R → bool) (l : list R) :
  existsb (λ r, p r || q r) l = existsb p l || existsb q l.
Proof.
  induction l as [|x l IH]; cbn [existsb]; [reflexivity|].
  rewrite IH. destruct (p x), (q x), (existsb p l), (existsb q l); reflexivity.
Qed.

(** What [validate_fact_measures] answers on a frame of fact rows. *)
Lemma validate_fact_measures_run (rows : list SalesFact.row) :
  rows ≠ [] →
  let bad := existsb revenue_error rows || existsb profit_error rows
             || existsb negative_measure rows in
  (bad = true ∧ validation_failure (fst (validate_fact_measures (fact_frame rows)))) ∨
  (bad = false ∧ fst (validate_fact_measures (fact_frame rows)) = Ok true).
Proof.
  intros Hne bad. subst bad. rewrite (fact_frame_columns rows Hne).
  unfold revenue_error, profit_error, negative_measure. rewrite !existsb_orb.
  cbv beta iota zeta delta [validate_fact_measures vbind getitem setitem vlift
                            vret vraise check_non_negative].
  run_validator.
  repeat (match goal with
          | |- context [if existsb ?p rows then _ else _] =>
              destruct (existsb p rows) eqn:?
          end;
          [left; split; [rewrite ?orb_true_r; reflexivity | eexists; reflexivity]
          | cbv beta; run_validator]).
  right. split; reflexivity.
Qed.

Lemma Qlt_bool_false (a b : Q) : Qlt_bool a b = false ↔ (b <= a)%Q.
Proof. unfold Qlt_bool. rewrite negb_false_iff. apply Qle_bool_iff. Qed.

Lemma Qlt_bool_true (a b : Q) : Qlt_bool a b = true ↔ (a < b)%Q.
Proof.
  unfold Qlt_bool. rewrite negb_true_iff. split.
  - intros H. apply Qnot_le_lt. intros Hle. apply Qle_bool_iff in Hle. congruence.
  - intros H. destruct (Qle_bool b a) eqn:E; [|reflexivity].
    apply Qle_bool_iff in E. exfalso. apply (Qlt_not_le _ _ H E).
Qed.

(** On a row sold without a discount, the tests of [validate_fact_measures]
    all pass exactly when the row satisfies both identities and has no
    negative measure. *)
Lemma undiscounted_row_passes (r : SalesFact.row) :
  (SalesFact.discount_amount r == 0)%Q →
  revenue_error r || profit_error r || negative_measure r = false
  ↔ revenue_identity r ∧ profit_identity r ∧ measures_non_negative r.
Proof.
  intros Hd.
  assert (E : (SalesFact.revenue r
               - (inject_Z (SalesFact.quantity r) * SalesFact.unit_price r
                  - SalesFact.discount_amount r)
               == SalesFact.revenue r
                  - inject_Z (SalesFact.quantity r) * SalesFact.unit_price r)%Q)
    by (rewrite Hd; ring).
  unfold revenue_error, profit_error, negative_measure,
    revenue_identity, profit_identity, measures_non_negative.
  rewrite !orb_false_iff, !Qlt_bool_false, E.
  change 0%Q with (inject_Z 0) at 1. rewrite <- Zle_Qle.
  tauto.
Qed.

Lemma within_weaken (x a b : Q) : (a <= b)%Q → (Qabs x <= a)%Q → (Qabs x <= b)%Q.
Proof. intros Hab H. eapply Qle_trans; [exact H | exact Hab]. Qed.

(** C6 (amended). On a frame of fact rows sold without a discount, with
    amounts of at most [10^9], [validate_fact_measures] reports a
    validation failure as soon as some row's revenue differs from
    [quantity * unit_price - discount_amount] by more than 0.011, or its
    profit from [revenue - cost] by more than 0.011, or one of its
    measures [quantity], [unit_price], [revenue], [cost],
    [discount_amount] is negative; it returns [True] when every row is
    within 0.009 of both identities and has no negative measure; and it
    does nothing else than one of the two. Between 0.009 and 0.011 the
    outcome is the one of the float comparison with 0.01. *)
Theorem validate_fact_measures_undiscounted (rows : list SalesFact.row) :
  rows ≠ [] →
  (∀ r, r ∈ rows → (SalesFact.discount_amount r == 0)%Q) →
  (∀ r, r ∈ rows → amounts_within (10 ^ 9) r) →
  ((∃ r, r ∈ rows ∧
         ¬ (revenue_within 0.011 r ∧ profit_within 0.011 r ∧ measures_non_negative r)) →
   validation_failure (fst (validate_fact_measures (fact_frame rows)))) ∧
  ((∀ r, r ∈ rows →
      revenue_within 0.009 r ∧ profit_within 0.009 r ∧ measures_non_negative r) →
   fst (validate_fact_measures (fact_frame rows)) = Ok true) ∧
  (validation_failure (fst (validate_fact_measures (fact_frame rows))) ∨
   fst (validate_fact_measures (fact_frame rows)) = Ok true).
Proof.
  intros Hne Hd _.
  set (row_bad := λ r, revenue_error r || profit_error r || negative_measure r).
  assert (Hbad : existsb revenue_error rows || existsb profit_error rows
                 || existsb negative_measure rows = existsb row_bad rows).
  { unfold row_bad. rewrite !existsb_orb. reflexivity. }
  assert (Hrow : ∀ r, r ∈ rows →
            row_bad r = false
            ↔ revenue_identity r ∧ profit_identity r ∧ measures_non_negative r).
  { intros r Hr. apply (undiscounted_row_passes r (Hd r Hr)). }
  destruct (validate_fact_measures_run rows Hne) as [[Hb Hfail] | [Hb Hok]];
    cbv zeta in Hb; rewrite Hbad in Hb.
  - split; [intros _; exact Hfail|]. split; [|left; exact Hfail].
    intros Hall. exfalso.
    apply existsb_exists in Hb as (r & Hr & Hrb). apply list_elem_of_In in Hr.
    destruct (Hall r Hr) as (H1 & H2 & H3).
    assert (E : row_bad r = false); [|congruence].
    apply (Hrow r Hr). split; [|split; [|exact H3]].
    + apply (within_weaken _ 0.009); [discriminate | exact H1].
    + apply (within_weaken _ 0.009); [discriminate | exact H2].
  - split; [|split; [intros _; exact Hok | right; exact Hok]].
    intros (r & Hr & Hnot). exfalso. apply Hnot.
    assert (E : row_bad r = false).
    { destruct (row_bad r) eqn:E; [|reflexivity].
      assert (existsb row_bad rows = true); [|congruence].
      apply existsb_exists. exists r. split; [apply list_elem_of_In, Hr | exact E]. }
    apply (Hrow r Hr) in E as (H1 & H2 & H3).
    split; [|split; [|exact H3]].
    + apply (within_weaken _ 0.01); [discriminate | exact H1].
    + apply (within_weaken _ 0.01); [discriminate | exact H2].
Qed.

Lemma validate_fact_measures_undiscounted_witness :
  [undiscounted_row] ≠ [] ∧
  (∀ r, r ∈ [undiscounted_row] → (SalesFact.discount_amount r == 0)%Q) ∧
  (∀ r, r ∈ [undiscounted_row] → amounts_within (10 ^ 9) r) ∧
  fst (validate_fact_measures (fact_frame [undiscounted_row])) = Ok true.
Proof.
  assert (Hd : ∀ r, r ∈ [undiscounted_row] → (SalesFact.discount_amount r == 0)%Q).
  { intros r Hr. apply list_elem_of_singleton in Hr as ->. reflexivity. }
  assert (Ha : ∀ r, r ∈ [undiscounted_row] → amounts_within (10 ^ 9) r).
  { intros r Hr. apply list_elem_of_singleton in Hr as ->.
    repeat split; vm_compute; discriminate. }
  split; [discriminate|]. split; [exact Hd|]. split; [exact Ha|].
  apply (proj1 (proj2 (validate_fact_measures_undiscounted [undiscounted_row]
                         ltac:(discriminate) Hd Ha))).
  intros r Hr. apply list_elem_of_singleton in Hr as ->.
  unfold revenue_within, profit_within, measures_non_negative.
  repeat split; vm_compute; discriminate.
Defined.

(** The row [discounted_row] satisfies both identities, and validation of
    the frame that holds it fails: the check compares [revenue] with
    [quantity * unit_price], the discount left out. The row
    [negative_cost_row] satisfies both identities too, and is refused for
    its negative cost. *)
Lemma measure_validator_rule_fails :
  ¬ measure_validator_rule [discounted_row] ∧
  ¬ measure_validator_rule [negative_cost_row].
Proof.
  split; intros [H _].
  - destruct H as (r & Hr & Hnot); [eexists; vm_compute; reflexivity|].
    apply list_elem_of_singleton in Hr as ->. apply Hnot.
    split; vm_compute; discriminate.
  - destruct H as (r & Hr & Hnot); [eexists; vm_compute; reflexivity|].
    apply list_elem_of_singleton in Hr as ->. apply Hnot.
    split; vm_compute; discriminate.
Qed.

Example validate_fact_measures_discounted_row :
  fst (validate_fact_measures (fact_frame [discounted_row]))
  = Raise (ValueError "Found 1 records with incorrect revenue calculation").
Proof. vm_compute. reflexivity. Qed.

Example validate_sales_fact_discounted_row :
  validate_sales_fact discounted_row = Raise (AssertionError "Revenue mismatch").
Proof. vm_compute. reflexivity. Qed.

Example measures_of_spec_scenario :
  validate_sales_fact undiscounted_row = Ok true.
Proof. vm_compute. reflexivity. Qed.

(* ===================================================================== *)
(** ** Results: what validation does to the frame it is given *)
(* ===================================================================== *)

(** Whatever it answers, [validate_fact_measures] leaves the column
    [expected_revenue] in the frame of fact rows it was given. *)
Lemma validate_fact_measures_frame (rows : list SalesFact.row) :
  rows ≠ [] →
  ∃ extra,
    snd (validate_fact_measures (fact_frame rows))
    = (fact_frame rows
       ++ ("expected_revenue",
           map (λ r, VFloat (inject_Z (SalesFact.quantity r) * SalesFact.unit_price r))
               rows) :: extra)%list.
Proof.
  intros Hne. rewrite (fact_frame_columns rows Hne).
  cbv beta iota zeta delta [validate_fact_measures vbind getitem setitem vlift
                            vret vraise check_non_negative].
  run_validator.
  repeat (match goal with
          | |- context [if existsb ?p rows then _ else _] =>
              destruct (existsb p rows) eqn:?
          end;
          [cbn [snd app]; eexists; reflexivity | cbv beta; run_validator]).
  cbn [snd app]. eexists. reflexivity.
Qed.

Lemma df_columns_app {V} (df1 df2 : DataFrame V) :
  df_columns (df1 ++ df2)%list = (df_columns df1 ++ df_columns df2)%list.
Proof. unfold df_columns. apply map_app. Qed.

(** X30. The frame handed to [validate_fact_measures] has a column after
    the call that it did not have before, whatever its rows and whatever
    the outcome. *)
Lemma validate_fact_measures_adds_column (rows : list SalesFact.row) :
  rows ≠ [] →
  ("expected_revenue" ∉ df_columns (fact_frame rows)) ∧
  ("expected_revenue" ∈ df_columns (snd (validate_fact_measures (fact_frame rows)))).
Proof.
  intros Hne. split.
  - rewrite (fact_frame_columns rows Hne). cbn.
    intros H. repeat (apply elem_of_cons in H as [H | H]; [discriminate H|]).
    apply elem_of_nil in H. exact H.
  - destruct (validate_fact_measures_frame rows Hne) as [extra ->].
    rewrite df_columns_app. apply elem_of_app. right. left.
Qed.

(** C10, at inputs where it fails. [validate_time_dimension] returns [True]
    on a well-formed time frame and leaves the column [expected_key] in it;
    [validate_fact_measures] returns [True] on a well-formed fact frame and
    leaves the columns [expected_revenue] and [expected_profit] in it. In
    both cases the caller's frame has changed. *)
Theorem validators_add_columns_to_their_input :
  validate_time_dimension (time_frame demo_time_df)
  = (Ok true,
     (time_frame demo_time_df
      ++ [("expected_key", [VInt 20230101; VInt 20230102])])%list) ∧
  snd (validate_time_dimension (time_frame demo_time_df)) ≠ time_frame demo_time_df ∧
  fst (validate_fact_measures (fact_frame [undiscounted_row])) = Ok true ∧
  df_columns (snd (validate_fact_measures (fact_frame [undiscounted_row])))
  = (df_columns (fact_frame [undiscounted_row])
     ++ ["expected_revenue"; "expected_profit"])%list ∧
  snd (validate_fact_measures (fact_frame [undiscounted_row]))
  ≠ fact_frame [undiscounted_row].
Proof.
  split; [vm_compute; reflexivity|].
  split; [vm_compute; intros E; discriminate E|].
  split; [vm_compute; reflexivity|].
  split; [vm_compute; reflexivity|].
  intros E. apply (f_equal df_columns) in E. vm_compute in E. discriminate E.
Qed.

(* ===================================================================== *)
(** ** Results: the referential integrity check *)
(* ===================================================================== *)

Lemma orphan_keys_of_run (fs : Frames) (fk pk : string) (fkv pkv : list Z) :
  column_values fs fk pk = Some (fkv, pkv) →
  orphan_keys_of fk pk fs = (Ok (orphans fkv pkv), fs).
Proof.
  unfold column_values, orphan_keys_of, cbind, read_dimensions, read_fact, cret.
  destruct (find_dimension _ _) as [d|]; [|discriminate].
  destruct (df_getitem d pk) as [pk_values|]; [|discriminate].
  destruct (df_getitem (fact_df fs) fk) as [fk_values|]; [|discriminate].
  intros [= <- <-]. reflexivity.
Qed.

Lemma Sorted_take_prefix {A} (R : relation A) (n : nat) (l : list A) :
  Sorted R l → Sorted R (take n l).
Proof.
  revert n. induction l as [|x l IH]; intros n H; destruct n; cbn [take];
    try constructor.
  - apply IH. inversion H; assumption.
  - inversion H as [|? ? _ Hhd]; subst.
    destruct l; destruct n; cbn [take]; constructor.
    inversion Hhd; assumption.
Qed.

Lemma orphan_sample_spec (o : gset Z) :
  (length (orphan_sample o) <= 10)%nat ∧
  Sorted Z.le (orphan_sample o) ∧
  (∀ x, x ∈ orphan_sample o → x ∈ o) ∧
  ((size o <= 10)%nat → ∀ x, x ∈ o → x ∈ orphan_sample o).
Proof.
  unfold orphan_sample. split; [rewrite length_take; lia|]. split; [|split].
  - apply Sorted_take_prefix. apply Sorted_merge_sort. apply _.
  - intros x Hx. apply subseteq_take in Hx.
    rewrite merge_sort_Permutation in Hx. apply elem_of_elements, Hx.
  - intros Hsize x Hx. rewrite take_ge.
    + rewrite merge_sort_Permutation. apply elem_of_elements, Hx.
    + rewrite merge_sort_Permutation. exact Hsize.
Qed.

(** One turn of the loop over the foreign keys. *)
Lemma check_body_run (fs : Frames) (results : IntegrityResult)
    (fk pk : string) (fkv pkv : list Z) :
  column_values fs fk pk = Some (fkv, pkv) →
  check_referential_integrity_body results (fk, pk) fs
  = (Ok (if bool_decide (orphans fkv pkv ≠ ∅)
         then mkIntegrityResult false
                (<[fk := Z.of_nat (size (orphans fkv pkv))]> (orphan_counts results))
                (<[fk := orphan_sample (orphans fkv pkv)]> (orphan_records results))
         else results), fs).
Proof.
  intros H. unfold check_referential_integrity_body, cbind.
  rewrite (orphan_keys_of_run fs fk pk fkv pkv H).
  destruct (bool_decide _); reflexivity.
Qed.

(** The loop, from any state of [results]. *)
Lemma check_loop_spec (fs : Frames) (items : list (string * string))
    (results : IntegrityResult) :
  NoDup items.*1 →
  (∀ fk pk, (fk, pk) ∈ items → is_Some (column_values fs fk pk)) →
  ∃ final,
    check_referential_integrity_loop items results fs = (Ok final, fs) ∧
    (valid final = false ↔
       valid results = false ∨
       ∃ fk pk fkv pkv, (fk, pk) ∈ items ∧ column_values fs fk pk = Some (fkv, pkv)
                        ∧ orphans fkv pkv ≠ ∅) ∧
    (∀ fk, fk ∉ items.*1 →
       orphan_counts final !! fk = orphan_counts results !! fk ∧
       orphan_records final !! fk = orphan_records results !! fk) ∧
    (∀ fk pk fkv pkv, (fk, pk) ∈ items → column_values fs fk pk = Some (fkv, pkv) →
       (orphans fkv pkv ≠ ∅ →
          orphan_counts final !! fk = Some (Z.of_nat (size (orphans fkv pkv))) ∧
          orphan_records final !! fk = Some (orphan_sample (orphans fkv pkv))) ∧
       (orphans fkv pkv = ∅ →
          orphan_counts final !! fk = orphan_counts results !! fk ∧
          orphan_records final !! fk = orphan_records results !! fk)).
Proof.
  revert results. induction items as [|[fk0 pk0] rest IH]; intros results Hnd Hres.
  - exists results. split; [reflexivity|]. split; [|split].
    + split; [auto|]. intros [H | (fk & pk & fkv & pkv & Hin & _)]; [exact H|].
      apply elem_of_nil in Hin. contradiction.
    + auto.
    + intros fk pk fkv pkv Hin. apply elem_of_nil in Hin. contradiction.
  - cbn [fmap list_fmap fst] in Hnd. apply NoDup_cons in Hnd as [Hfresh Hnd].
    destruct (Hres fk0 pk0 ltac:(left)) as [[fkv0 pkv0] H0].
    cbn [check_referential_integrity_loop]. unfold cbind.
    rewrite (check_body_run fs results fk0 pk0 fkv0 pkv0 H0).
    set (results1 := if bool_decide (orphans fkv0 pkv0 ≠ ∅) then _ else results).
    destruct (IH results1 Hnd) as (final & Erun & Hvalid & Hframe & Hitems).
    { intros fk pk Hin. apply Hres. right. exact Hin. }
    exists final. split; [exact Erun|]. split; [|split].
    + rewrite Hvalid. split.
      * intros [Hv | (fk & pk & fkv & pkv & Hin & Hc & Ho)].
        -- unfold results1 in Hv. case_bool_decide as Hd.
           ++ right. exists fk0, pk0, fkv0, pkv0. split; [left|]. auto.
           ++ left. exact Hv.
        -- right. exists fk, pk, fkv, pkv. split; [right; exact Hin|]. auto.
      * intros [Hv | (fk & pk & fkv & pkv & Hin & Hc & Ho)].
        -- left. unfold results1. case_bool_decide; [reflexivity | exact Hv].
        -- apply elem_of_cons in Hin as [[= -> ->] | Hin].
           ++ left. rewrite H0 in Hc. injection Hc as <- <-.
              unfold results1. rewrite bool_decide_eq_true_2 by exact Ho. reflexivity.
           ++ right. exists fk, pk, fkv, pkv. auto.
    + intros fk Hfk. cbn [fmap list_fmap fst] in Hfk.
      apply not_elem_of_cons in Hfk as [Hne Hfk].
      destruct (Hframe fk Hfk) as [-> ->].
      unfold results1. case_bool_decide; [|auto].
      cbn [orphan_counts orphan_records].
      rewrite !lookup_insert_ne by congruence. auto.
    + intros fk pk fkv pkv Hin Hc.
      apply elem_of_cons in Hin as [[= -> ->] | Hin].
      * rewrite H0 in Hc. injection Hc as <- <-.
        destruct (Hframe fk0 Hfresh) as [-> ->]. unfold results1. split.
        -- intros Ho. rewrite bool_decide_eq_true_2 by exact Ho.
           cbn [orphan_counts orphan_records]. rewrite !lookup_insert_eq. auto.
        -- intros Ho. rewrite bool_decide_eq_false_2 by (intros Hn; exact (Hn Ho)). auto.
      * assert (Hne : fk ≠ fk0).
        { intros ->. apply Hfresh. apply list_elem_of_fmap. exists (fk0, pk). auto. }
        destruct (Hitems fk pk fkv pkv Hin Hc) as [Hsome Hnone].
        split; [exact Hsome|]. intros Ho. destruct (Hnone Ho) as [-> ->].
        unfold results1. case_bool_decide; [|auto].
        cbn [orphan_counts orphan_records].
        rewrite !lookup_insert_ne by congruence. auto.
Qed.

(** C9. When every foreign key column names a column of the fact frame and
    of the dimension frame found for it, [check_referential_integrity]
    returns its result dictionary without raising and leaves the frames as
    they were; [valid] is false if and only if for some foreign key column
    the set difference of the fact values and the dimension values is not
    empty; for each such column the dictionary records the number of orphan
    keys and, as sample, the first ten of them in increasing order, and for
    the other columns it records nothing. *)
Theorem check_referential_integrity_reports
    (fs : Frames) (foreign_keys : list (string * string)) :
  NoDup foreign_keys.*1 →
  (∀ fk pk, (fk, pk) ∈ foreign_keys → is_Some (column_values fs fk pk)) →
  ∃ results,
    check_referential_integrity foreign_keys fs = (Ok results, fs) ∧
    (valid results = false ↔
       ∃ fk pk fkv pkv, (fk, pk) ∈ foreign_keys ∧
                        column_values fs fk pk = Some (fkv, pkv) ∧
                        orphans fkv pkv ≠ ∅) ∧
    (∀ fk pk fkv pkv,
       (fk, pk) ∈ foreign_keys → column_values fs fk pk = Some (fkv, pkv) →
       (orphans fkv pkv ≠ ∅ →
          orphan_counts results !! fk = Some (Z.of_nat (size (orphans fkv pkv))) ∧
          ∃ sample, orphan_records results !! fk = Some sample ∧
                    sample = take 10 (merge_sort Z.le (elements (orphans fkv pkv))) ∧
                    (length sample <= 10)%nat ∧
                    ∀ x, x ∈ sample → x ∈ fkv ∧ x ∉ pkv) ∧
       (orphans fkv pkv = ∅ →
          orphan_counts results !! fk = None ∧ orphan_records results !! fk = None)).
Proof.
  intros Hnd Hres. unfold check_referential_integrity.
  destruct (check_loop_spec fs foreign_keys (mkIntegrityResult true ∅ ∅) Hnd Hres)
    as (final & Erun & Hvalid & _ & Hitems).
  exists final. split; [exact Erun|]. split.
  - rewrite Hvalid. cbn [valid]. split; [intros [H|H]; [discriminate H | exact H] | auto].
  - intros fk pk fkv pkv Hin Hc.
    destruct (Hitems fk pk fkv pkv Hin Hc) as [Hsome Hnone]. split.
    + intros Ho. destruct (Hsome Ho) as [Hcount Hrec]. split; [exact Hcount|].
      exists (orphan_sample (orphans fkv pkv)). split; [exact Hrec|].
      split; [reflexivity|].
      destruct (orphan_sample_spec (orphans fkv pkv)) as (Hlen & _ & Hsub & _).
      split; [exact Hlen|]. intros x Hx. apply Hsub in Hx.
      unfold orphans in Hx. apply elem_of_difference in Hx as [Hx1 Hx2].
      rewrite !elem_of_list_to_set in *. auto.
    + intros Ho. destruct (Hnone Ho) as [-> ->]. cbn. split; apply lookup_empty.
Qed.

Lemma demo_foreign_keys_resolve (fk pk : string) :
  (fk, pk) ∈ demo_foreign_keys → is_Some (column_values demo_frames fk pk).
Proof.
  intros Hin. unfold demo_foreign_keys in Hin.
  repeat (apply elem_of_cons in Hin as [[= -> ->] | Hin];
          [eexists; vm_compute; reflexivity|]).
  apply elem_of_nil in Hin. contradiction.
Qed.

Lemma check_referential_integrity_reports_witness :
  NoDup demo_foreign_keys.*1 ∧
  (∀ fk pk, (fk, pk) ∈ demo_foreign_keys → is_Some (column_values demo_frames fk pk)) ∧
  ∃ results,
    check_referential_integrity demo_foreign_keys demo_frames = (Ok results, demo_frames) ∧
    valid results = false ∧
    orphan_counts results !! "geo_key" = Some 1 ∧
    orphan_records results !! "geo_key" = Some [9] ∧
    orphan_counts results !! "time_key" = None.
Proof.
  assert (Hnd : NoDup demo_foreign_keys.*1).
  { apply (bool_decide_unpack _). reflexivity. }
  split; [exact Hnd|]. split; [exact demo_foreign_keys_resolve|].
  destruct (check_referential_integrity_reports demo_frames demo_foreign_keys
              Hnd demo_foreign_keys_resolve) as (results & Erun & _ & _).
  exists results. split; [exact Erun|].
  vm_compute in Erun. injection Erun as <-.
  repeat split; vm_compute; reflexivity.
Defined.

(** A foreign key column for which no dimension is found is refused with
    [ValueError]; the frames are left as they were. *)
Example check_referential_integrity_unknown_dimension :
  check_referential_integrity [("store_key", "store_key")] demo_frames
  = (Raise (ValueError "No dimension found for foreign key store_key"), demo_frames).
Proof. vm_compute. reflexivity. Qed.

(** X28. Whatever it answers, [check_referential_integrity] leaves the
    frames as they were. *)
Lemma check_referential_integrity_read_only
    (fs : Frames) (foreign_keys : list (string * string)) :
  snd (check_referential_integrity foreign_keys fs) = fs.
Proof.
  unfold check_referential_integrity.
  generalize (mkIntegrityResult true ∅ ∅).
  induction foreign_keys as [|[fk pk] rest IH]; intros results; [reflexivity|].
  cbn [check_referential_integrity_loop]. unfold cbind at 1.
  assert (Hbody : snd (check_referential_integrity_body results (fk, pk) fs) = fs).
  { unfold check_referential_integrity_body, orphan_keys_of, cbind, read_dimensions,
      read_fact, cret, craise.
    destruct (find_dimension _ _) as [d|]; [|reflexivity].
    destruct (df_getitem d pk); [|reflexivity].
    destruct (df_getitem (fact_df fs) fk); [|reflexivity].
    destruct (bool_decide _); reflexivity. }
  destruct (check_referential_integrity_body results (fk, pk) fs) as [[r|e] fs'];
    cbn [snd] in Hbody; subst fs'; [apply IH | reflexivity].
Qed.

(* ===================================================================== *)
(** ** Results: fact generation returns on non-empty dimensions *)
(* ===================================================================== *)

Lemma last_accumulate_pos (acc : Q) (weights : list Q) :
  Forall (λ x, (0 < x)%Q) weights → weights ≠ [] →
  ∃ total, last (accumulate acc weights) = Some total ∧ (acc < total)%Q.
Proof.
  intros Hpos. revert acc. induction Hpos as [|x r Hx Hr IH]; intros acc Hne;
    [contradiction|].
  cbn [accumulate]. destruct r as [|y r'].
  - exists (acc + x)%Q. split; [reflexivity | lra].
  - destruct (IH (acc + x)%Q ltac:(discriminate)) as (t & Et & Ht).
    exists t. split; [|lra].
    cbn [accumulate] in *. rewrite last_cons. rewrite Et. reflexivity.
Qed.

Lemma bisect_le (a : list Q) (x : Q) (hi : nat) : (bisect a x hi <= hi)%nat.
Proof.
  revert a. induction hi as [|h IH]; intros a; destruct a as [|c r]; cbn [bisect];
    try lia.
  destruct (Qle_bool c x); [|lia]. specialize (IH r). lia.
Qed.

Lemma Qle_bool_false (a b : Q) : (b < a)%Q → Qle_bool a b = false.
Proof.
  intros H. destruct (Qle_bool a b) eqn:E; [|reflexivity].
  apply Qle_bool_iff in E. exfalso. apply (Qlt_not_le _ _ H E).
Qed.

Lemma pareto_weights_positive (n : Z) (factor : Q) :
  1 <= n → (0 < factor)%Q → (factor < 1)%Q →
  ∃ w, _create_pareto_weights n factor = Ok w ∧
       length w = Z.to_nat n ∧ Forall (λ x, (0 < x)%Q) w.
Proof.
  intros Hn H0 H1. destruct (Z.eq_dec n 1) as [-> | Hne].
  - exists [(factor / 1)%Q]. split; [reflexivity|]. split; [reflexivity|].
    constructor; [|constructor]. apply Qlt_shift_div_l; lra.
  - pose proof (pareto_weights_blocks n factor ltac:(lia)) as Hw. cbv zeta in Hw.
    pose proof (top_20_pct_bounds n ltac:(lia)) as Htop.
    set (top := Z.max 1 (n / 5)) in *.
    eexists. split; [exact Hw|]. split.
    + rewrite length_app, !length_replicate. lia.
    + assert (Ht : (0 < inject_Z top)%Q).
      { change 0%Q with (inject_Z 0). rewrite <- Zlt_Qlt. lia. }
      assert (Hr : (0 < inject_Z (n - top))%Q).
      { change 0%Q with (inject_Z 0). rewrite <- Zlt_Qlt. lia. }
      apply Forall_app. split; apply Forall_replicate;
        (apply Qlt_shift_div_l; [assumption | lra]).
Qed.

Section FactGenerationReturns.
Context {RS : RandomStream}.

Lemma returns_random_randint (a b : Z) :
  a <= b → returns (random_randint a b) (λ _, True).
Proof.
  intros Hab. unfold random_randint. destruct (Z.ltb_spec b a); [lia|].
  eapply returns_bind; [apply returns_random_randbelow; lia|].
  intros i _. apply returns_ret. exact I.
Qed.

Lemma returns_random_choices {A} (population : list A) (weights : list Q) :
  population ≠ [] → length weights = length population →
  Forall (λ x, (0 < x)%Q) weights →
  returns (random_choices population weights) (λ x, x ∈ population).
Proof.
  intros Hne Hlen Hpos. unfold random_choices.
  rewrite length_accumulate, Hlen, Nat.eqb_refl. cbn [negb].
  destruct (last_accumulate_pos 0 weights Hpos) as (total & -> & Ht).
  { intros ->. destruct population; [contradiction | discriminate]. }
  rewrite (Qle_bool_false _ _ Ht).
  eapply returns_bind; [apply returns_random_random|]. intros u _.
  pose proof (bisect_le (accumulate 0 weights) (u * total) (length population - 1)).
  destruct (list_getitem_in_range population
              (Z.of_nat (bisect (accumulate 0 weights) (u * total)%Q
                           (length population - 1)))) as (x & E & Hx).
  { destruct population; [contradiction|]. cbn [length] in *. lia. }
  eapply returns_lift; eauto.
Qed.

Lemma returns_df_sample {A} (rows : list A) :
  rows ≠ [] → returns (df_sample rows None) (λ x, x ∈ rows).
Proof.
  intros Hne w. unfold df_sample. destruct rows as [|r0 rows0]; [contradiction|].
  set (rows := r0 :: rows0).
  pose proof (next_below_range (Z.of_nat (length rows)) (np_random w)
                ltac:(unfold rows; cbn [length]; lia)) as Hi.
  destruct (next_below (Z.of_nat (length rows)) (np_random w)) as [i s].
  destruct (list_getitem_in_range rows i Hi) as (x & E & Hx).
  eexists _, _. rewrite E. split; [reflexivity | exact Hx].
Qed.

Lemma returns_df_sample_weighted {A} (rows : list A) (weights : list Q) :
  rows ≠ [] → length weights = length rows →
  Forall (λ x, (0 < x)%Q) weights →
  returns (df_sample rows (Some weights)) (λ x, x ∈ rows).
Proof.
  intros Hne Hlen Hpos w. unfold df_sample. destruct rows as [|r0 rows0]; [contradiction|].
  set (rows := r0 :: rows0) in *.
  rewrite Hlen, Nat.eqb_refl. cbn [negb].
  assert (Hneg : existsb (λ x, negb (Qle_bool 0 x)) weights = false).
  { clear Hlen. induction Hpos as [|x r Hx _ IH]; [reflexivity|]. cbn [existsb].
    rewrite IH, orb_false_r.
    assert (Qle_bool 0 x = true) as -> by (apply Qle_bool_iff; lra). reflexivity. }
  rewrite Hneg.
  destruct (last_accumulate_pos 0 weights Hpos) as (total & -> & Ht).
  { intros ->. discriminate Hlen. }
  rewrite (Qle_bool_false _ _ Ht).
  destruct (next_random (np_random w)) as [u s].
  pose proof (bisect_le (accumulate 0 weights) (u * total) (length rows - 1)).
  destruct (list_getitem_in_range rows
              (Z.of_nat (bisect (accumulate 0 weights) (u * total)%Q
                           (length rows - 1)))) as (x & E & Hx).
  { unfold rows in *. cbn [length] in *. lia. }
  eexists _, _. rewrite E. split; [reflexivity | exact Hx].
Qed.

Lemma recency_weights_positive (n : Z) :
  length (map inject_Z (_create_recency_weights n)) = Z.to_nat n ∧
  Forall (λ x, (0 < x)%Q) (map inject_Z (_create_recency_weights n)).
Proof.
  unfold _create_recency_weights. split.
  - rewrite !length_map, length_range. reflexivity.
  - apply Forall_forall. intros x Hx.
    apply list_elem_of_fmap in Hx as (z & -> & Hz).
    apply list_elem_of_fmap in Hz as (i & -> & Hi).
    apply elem_of_range in Hi.
    change 0%Q with (inject_Z 0). rewrite <- Zlt_Qlt. lia.
Qed.

Lemma range_nonempty (n : Z) : 1 <= n → range n ≠ [].
Proof. intros Hn. destruct (range_pos n Hn) as [l ->]. discriminate. Qed.

Lemma returns_line_item
    (current_products : list DimProduct.row) (pareto_products : list Q)
    (transaction_id : Z) (transaction_date : date) (transaction_timestamp : datetime)
    (time_key geo_key customer_key payment_key : Z)
    (records : list SalesFact.row) (line_item_id : Z) :
  current_products ≠ [] →
  length pareto_products = length current_products →
  Forall (λ x, (0 < x)%Q) pareto_products →
  returns (generate_sales_fact_line_item current_products pareto_products
             transaction_id transaction_date transaction_timestamp
             time_key geo_key customer_key payment_key records line_item_id)
          (λ records', length records' = S (length records)).
Proof.
  intros Hne Hlen Hpos. cbv beta iota zeta delta [generate_sales_fact_line_item].
  eapply returns_bind.
  { apply returns_random_choices; [|rewrite length_range; lia|exact Hpos].
    apply range_nonempty. destruct current_products; [contradiction|].
    cbn [length]. lia. }
  intros product_idx Hidx. cbv beta in Hidx. apply elem_of_range in Hidx.
  destruct (list_getitem_in_range current_products product_idx Hidx) as (p & Ep & _).
  eapply returns_bind; [exact (returns_lift _ p (λ _, True) Ep I)|]. intros product_record _.
  eapply returns_bind; [apply returns_random_uniform; discriminate|]. intros u _.
  eapply returns_bind.
  { apply (returns_random_choices [1; 2; 3; 4; 5] [50; 30; 12; 5; 3]%Q);
      [discriminate | reflexivity | repeat constructor]. }
  intros quantity _.
  eapply returns_bind; [apply returns_random_random|]. intros r _.
  eapply (returns_bind _ _ (λ _, True)).
  { destruct (Qlt_bool r 0.2).
    - eapply returns_bind; [apply returns_random_uniform; discriminate|].
      intros pct _. apply returns_ret. exact I.
    - apply returns_ret. exact I. }
  intros discount_amount _. apply returns_ret.
  rewrite length_app. cbn [length]. lia.
Qed.

Lemma returns_transaction
    (time_df : list DimTime.row) (geo_df : list DimGeography.row)
    (current_products : list DimProduct.row) (customer_df : list DimCustomer.row)
    (payment_df : list DimPayment.row) (pareto_products pareto_customers : list Q)
    (st : list SalesFact.row * Z) (i : Z) :
  time_df ≠ [] → geo_df ≠ [] → current_products ≠ [] → customer_df ≠ [] →
  payment_df ≠ [] →
  length pareto_products = length current_products →
  Forall (λ x, (0 < x)%Q) pareto_products →
  length pareto_customers = length customer_df →
  Forall (λ x, (0 < x)%Q) pareto_customers →
  returns (generate_sales_fact_transaction time_df geo_df current_products
             customer_df payment_df pareto_products pareto_customers st i)
          (λ st', (S (length (fst st)) <= length (fst st'))%nat).
Proof.
  intros Ht Hg Hp Hc Hpay Hlp Hpp Hlc Hpc. destruct st as [records transaction_id].
  cbn [fst]. cbv beta iota zeta delta [generate_sales_fact_transaction].
  destruct (recency_weights_positive (Z.of_nat (length time_df))) as [Hrl Hrp].
  eapply returns_bind.
  { apply returns_df_sample_weighted; [exact Ht | rewrite Hrl; lia | exact Hrp]. }
  intros time_record _.
  do 3 (eapply returns_bind; [apply returns_random_randint; lia|]; intros ? _).
  eapply returns_bind; [apply returns_df_sample; exact Hg|]. intros geo_record _.
  eapply returns_bind.
  { apply returns_random_choices; [|rewrite length_range; lia|exact Hpc].
    apply range_nonempty. destruct customer_df; [contradiction|]. cbn [length]. lia. }
  intros customer_idx Hidx. cbv beta in Hidx. apply elem_of_range in Hidx.
  destruct (list_getitem_in_range customer_df customer_idx Hidx) as (c & Ec & _).
  eapply returns_bind; [exact (returns_lift _ c (λ _, True) Ec I)|].
  intros customer_record _.
  eapply returns_bind; [apply returns_df_sample; exact Hpay|]. intros payment_record _.
  eapply returns_bind.
  { apply (returns_random_choices [1; 2; 3; 4; 5] [40; 30; 15; 10; 5]%Q);
      [discriminate | reflexivity | repeat constructor]. }
  intros num_line_items Hk. cbv beta in Hk.
  assert (1 <= num_line_items).
  { repeat (apply elem_of_cons in Hk as [-> | Hk]; [lia|]).
    apply elem_of_nil in Hk. contradiction. }
  destruct (range_from_pos 1 (num_line_items + 1)) as [l El]; [lia|].
  eapply (returns_bind _ _ (λ records', (S (length records) <= length records')%nat)).
  - rewrite El. cbn [for_each].
    eapply returns_bind; [apply returns_line_item; assumption|].
    intros records1 H1. cbv beta in H1.
    apply (returns_for_each l _ (λ recs, (S (length records) <= length recs)%nat));
      [lia|].
    intros s x _ Hs.
    eapply returns_weaken; [apply returns_line_item; assumption|].
    intros s' Hs'. cbv beta in Hs'. lia.
  - intros records' H'. apply returns_ret. exact H'.
Qed.

(** On non-empty dimensions, with at least one current product and a
    Pareto factor strictly between 0 and 1, [generate_sales_fact] returns a
    frame, with at least one row per transaction. *)
Lemma generate_sales_fact_returns
    (num_transactions : Z)
    (time_df : list DimTime.row) (geo_df : list DimGeography.row)
    (product_df : list DimProduct.row) (customer_df : list DimCustomer.row)
    (payment_df : list DimPayment.row) (pareto_factor : Q) (seed : Z) (w : World) :
  time_df ≠ [] → geo_df ≠ [] → customer_df ≠ [] → payment_df ≠ [] →
  (∃ p, p ∈ product_df ∧ DimProduct.is_current p = true) →
  (0 < pareto_factor)%Q → (pareto_factor < 1)%Q →
  ∃ rows w',
    generate_sales_fact num_transactions time_df geo_df product_df customer_df
      payment_df pareto_factor seed w = (Ok rows, w') ∧
    num_transactions <= Z.of_nat (length rows).
Proof.
  intros Ht Hg Hc Hpay (p & Hp & Hcur) H0 H1. revert w.
  change (returns (generate_sales_fact num_transactions time_df geo_df product_df
                     customer_df payment_df pareto_factor seed)
                  (λ rows, num_transactions <= Z.of_nat (length rows))).
  unfold generate_sales_fact.
  set (current_products := filter (λ p, DimProduct.is_current p = true) product_df).
  assert (Hprod : current_products ≠ []).
  { intros E. assert (Hin : p ∈ current_products)
      by (apply list_elem_of_filter; split; assumption).
    rewrite E in Hin. apply elem_of_nil in Hin. exact Hin. }
  destruct (pareto_weights_positive (Z.of_nat (length current_products)) pareto_factor)
    as (wp & Ewp & Hlp & Hpp); [destruct current_products; [contradiction|cbn [length]; lia]|assumption..|].
  destruct (pareto_weights_positive (Z.of_nat (length customer_df)) pareto_factor)
    as (wc & Ewc & Hlc & Hpc); [destruct customer_df; [contradiction|cbn [length]; lia]|assumption..|].
  eapply returns_bind; [apply returns_DataGenerator|]. intros _ _.
  eapply returns_bind; [exact (returns_lift _ wp (λ x, x = wp) Ewp eq_refl)|].
  intros ? ->.
  eapply returns_bind; [exact (returns_lift _ wc (λ x, x = wc) Ewc eq_refl)|].
  intros ? ->.
  eapply (returns_bind _ _
            (λ st, Z.of_nat (length ([] ++ range num_transactions)%list)
                   <= Z.of_nat (length (fst st)))).
  - apply (returns_for_each_prefix (range num_transactions)
             (generate_sales_fact_transaction time_df geo_df current_products
                customer_df payment_df wp wc)
             (λ done st, Z.of_nat (length done) <= Z.of_nat (length (fst st)))
             [] ([], 1)).
    + cbn. lia.
    + intros pre x st Hst.
      eapply returns_weaken.
      * apply returns_transaction; try assumption; lia.
      * intros st' Hst'. cbv beta in Hst'. rewrite length_app. cbn [length]. lia.
  - intros [records tid] Hlen. cbn [fst app] in Hlen. apply returns_ret.
    rewrite length_range in Hlen. lia.
Qed.

End FactGenerationReturns.

(* ===================================================================== *)
(** ** Examples: the helpers on concrete inputs *)
(* ===================================================================== *)

Example str_replace_key_suffix :
  str_replace "_key" "" "time_key" = "time" ∧
  str_replace "_key" "" "a_key_key_b" = "a_b".
Proof. split; reflexivity. Qed.

Example find_dimension_by_name :
  find_dimension (str_replace "_key" "" "geo_key") (dimension_dfs demo_frames)
  = Some [("geo_key", [1; 2; 3])].
Proof. reflexivity. Qed.

Example format_0d_pads :
  format_0d 5 12 = "00012" ∧ format_0d 5 123456 = "123456" ∧ format_0d 6 0 = "000000".
Proof. repeat split; reflexivity. Qed.

Example round2_ties_to_even :
  (round2 0.125 == 0.12)%Q ∧ (round2 0.135 == 0.14)%Q ∧ (round2 639.78 == 639.78)%Q.
Proof. repeat split; reflexivity. Qed.

Example str_split_keeps_empty_segments :
  str_split "/" "a//b/" = ["a"; ""; "b"; ""] ∧ str_split "/" "" = [""].
Proof. split; reflexivity. Qed.

Example recency_weights_4 : _create_recency_weights 4 = [1; 2; 3; 4].
Proof. reflexivity. Qed.

(* ===================================================================== *)
(** ** Results: building, parsing and filtering partitions *)
(* ===================================================================== *)

Lemma pystr_inj (a b : Z) : pystr a = pystr b → a = b.
Proof.
  unfold pystr. intros H.
  assert (Hn : ∀ z, Z.to_int z ≠ Decimal.Pos Decimal.Nil ∧ Z.to_int z ≠ Decimal.Neg Decimal.Nil).
  { intros [|p|p]; cbn; split; try discriminate;
      intros E; injection E as E; revert E; apply DecimalPos.Unsigned.to_uint_nonnil. }
  apply DecimalZ.to_int_inj.
  assert (E : Some (Z.to_int a) = Some (Z.to_int b)).
  { rewrite <- (NilZero.isi (Z.to_int a)), <- (NilZero.isi (Z.to_int b));
      try apply Hn. rewrite H. reflexivity. }
  injection E as E. exact E.
Qed.

Lemma str_split_cons_sep (sep : ascii) (s t : string) :
  char_in sep s = false →
  str_split sep (s ++ String sep t) = s :: str_split sep t.
Proof.
  induction s as [|a r IH]; rewrite ?str_app_nil, ?str_app_cons;
    cbn [str_split char_in].
  - rewrite Ascii.eqb_refl. reflexivity.
  - destruct (Ascii.eqb a sep); [discriminate|]. intros H.
    rewrite (IH H). reflexivity.
Qed.

Lemma str_split_join (sep : ascii) (parts : list string) :
  parts ≠ [] → Forall (λ p, char_in sep p = false) parts →
  str_split sep (str_join (String sep EmptyString) parts) = parts.
Proof.
  induction parts as [|s r IH]; [congruence|]. intros _ H.
  apply Forall_cons in H as [Hs Hr].
  destruct r as [|s' r'].
  - cbn [str_join]. apply str_split_no_sep, Hs.
  - change (str_join (String sep EmptyString) (s :: s' :: r'))
      with (s ++ String sep EmptyString ++ str_join (String sep EmptyString) (s' :: r')).
    rewrite str_app_cons, str_app_nil, (str_split_cons_sep _ _ _ Hs).
    rewrite IH; [reflexivity | discriminate | exact Hr].
Qed.

Lemma str_split_first_app (sep : ascii) (k v : string) :
  char_in sep k = false → str_split_first sep (k ++ String sep v) = (k, v).
Proof.
  induction k as [|a r IH]; rewrite ?str_app_nil, ?str_app_cons;
    cbn [str_split_first char_in].
  - rewrite Ascii.eqb_refl. reflexivity.
  - destruct (Ascii.eqb a sep); [discriminate|]. intros H.
    rewrite (IH H). reflexivity.
Qed.

Lemma char_in_sep_app (sep : ascii) (k v : string) :
  char_in sep (k ++ String sep v) = true.
Proof.
  rewrite char_in_app. cbn [char_in]. rewrite Ascii.eqb_refl.
  apply orb_true_r.
Qed.

(** Parsing the segments [key=text] sets the entries one after the other. *)
Lemma parse_segments (l : list (string * string)) (acc : gmap string string) :
  Forall (λ kv, char_in "=" (fst kv) = false) l →
  foldl (λ partitions part,
           if char_in "=" part
           then let '(key, value) := str_split_first "=" part in
                <[key := value]> partitions
           else partitions)
        acc (map (λ kv, fst kv ++ "=" ++ snd kv) l)
  = foldl (λ partitions kv, <[fst kv := snd kv]> partitions) acc l.
Proof.
  revert acc. induction l as [|[k v] r IH]; intros acc H; [reflexivity|].
  apply Forall_cons in H as [Hk Hr]. cbn [map foldl fst snd].
  rewrite str_app_cons, str_app_nil, char_in_sep_app,
    (str_split_first_app _ _ _ Hk).
  apply IH, Hr.
Qed.

Lemma foldl_insert_foldr (l : list (string * string)) (acc : gmap string string) :
  foldl (λ partitions kv, <[fst kv := snd kv]> partitions) acc l
  = foldr (λ kv partitions, <[fst kv := snd kv]> partitions) acc (reverse l).
Proof.
  revert acc. induction l as [|kv r IH]; intros acc; [reflexivity|].
  cbn [foldl]. rewrite reverse_cons, foldr_app. apply IH.
Qed.

Lemma foldl_insert_lookup (l : list (string * string)) (k s : string) :
  NoDup l.*1 →
  foldl (λ partitions kv, <[fst kv := snd kv]> partitions) (∅ : gmap string string) l
    !! k = Some s ↔ (k, s) ∈ l.
Proof.
  intros Hnd. rewrite foldl_insert_foldr.
  change (foldr _ ∅ (reverse l)) with (list_to_map (reverse l) : gmap string string).
  rewrite <- elem_of_list_to_map.
  - apply elem_of_reverse.
  - rewrite fmap_reverse, reverse_Permutation. exact Hnd.
Qed.

Lemma res_mapM_item_text (items : list (string * value)) :
  Forall (λ item, ∃ s, format_value (snd item) = Ok s) items →
  ∃ l, res_mapM (λ item, res_bind (format_value (snd item))
                              (λ s, Ok (fst item ++ "=" ++ s))) items
       = Ok (map (λ kv, fst kv ++ "=" ++ snd kv) l) ∧
       Forall2 (λ item kv, fst kv = fst item ∧ format_value (snd item) = Ok (snd kv))
               items l.
Proof.
  induction items as [|[k v] r IH]; intros H.
  - exists []. split; [reflexivity | constructor].
  - apply Forall_cons in H as [[s Hs] Hr].
    destruct (IH Hr) as (l & Hl & Hf).
    exists ((k, s) :: l). split.
    + cbn [res_mapM fst snd]. cbn [fst snd] in Hs. rewrite Hs. cbn [res_bind]. rewrite Hl. reflexivity.
    + constructor; [split; [reflexivity | exact Hs] | exact Hf].
Qed.

(** X1. [build_partition_path] and [parse_partition_path] are inverse to
    each other up to the text of the values: when no key holds [/] or [=]
    and no value is written with a [/], the path built from a dictionary
    parses back to the dictionary of the values' strings. *)
Theorem build_partition_path_round_trip (m : gmap string value) :
  (∀ k v, m !! k = Some v →
     char_in "/" k = false ∧ char_in "=" k = false ∧
     ∃ s, format_value v = Ok s ∧ char_in "/" s = false) →
  ∃ p, build_partition_path m = Ok p ∧
       PartitionManager.parse_partition_path p = formatted m.
Proof.
  intros Hm. unfold build_partition_path.
  assert (Hperm : sorted_items m ≡ₚ map_to_list m)
    by apply merge_sort_Permutation.
  assert (Hin : ∀ k v, (k, v) ∈ sorted_items m ↔ m !! k = Some v).
  { intros k v. rewrite Hperm. apply elem_of_map_to_list. }
  assert (Hnd : NoDup (sorted_items m).*1).
  { rewrite Hperm. apply NoDup_fst_map_to_list. }
  destruct (res_mapM_item_text (sorted_items m)) as (l & Hl & Hf).
  { apply Forall_forall. intros [k v] Hkv. apply Hin in Hkv.
    destruct (Hm k v Hkv) as (_ & _ & s & Hs & _). exists s. exact Hs. }
  rewrite Hl. cbn [res_bind]. eexists. split; [reflexivity|].
  assert (Hkeys : l.*1 = (sorted_items m).*1).
  { clear -Hf. induction Hf as [|x y xs ys [H1 _] _ IH]; [reflexivity|].
    cbn. rewrite H1, IH. reflexivity. }
  assert (Hl_in : ∀ k s, (k, s) ∈ l ↔ ∃ v, m !! k = Some v ∧ format_value v = Ok s).
  { intros k s. split.
    - intros Hks. apply list_elem_of_lookup in Hks as [i Hi].
      destruct (Forall2_lookup_r _ _ _ _ _ Hf Hi) as ([k' v] & Hi' & Hk & Hv).
      cbn in Hk, Hv. subst k'. exists v. split; [|exact Hv].
      apply Hin. eapply list_elem_of_lookup_2, Hi'.
    - intros (v & Hv & Hs). apply Hin in Hv.
      apply list_elem_of_lookup in Hv as [i Hi].
      destruct (Forall2_lookup_l _ _ _ _ _ Hf Hi) as ([k' s'] & Hi' & Hk & Hv').
      cbn in Hk, Hv'. subst k'. rewrite Hs in Hv'. injection Hv' as <-.
      eapply list_elem_of_lookup_2, Hi'. }
  assert (Hl_ok : Forall (λ kv, char_in "/" (fst kv) = false ∧
                                char_in "=" (fst kv) = false ∧
                                char_in "/" (snd kv) = false) l).
  { apply Forall_forall. intros [k s] Hks. apply Hl_in in Hks as (v & Hv & Hs).
    destruct (Hm k v Hv) as (H1 & H2 & s' & Hs' & H3).
    rewrite Hs in Hs'. injection Hs' as <-. cbn. auto. }
  unfold PartitionManager.parse_partition_path.
  destruct l as [|kv0 l0] eqn:El.
  - (* no item: the empty path has one segment, without [=] *)
    cbn. apply map_eq. intros k. rewrite lookup_empty. symmetry.
    unfold formatted. rewrite lookup_omap.
    destruct (m !! k) as [v|] eqn:Ek; [|reflexivity].
    destruct (Hm k v Ek) as (_ & _ & s & Hs & _).
    exfalso. assert (H : (k, s) ∈ ([] : list (string * string)))
      by (apply Hl_in; eauto).
    inversion H.
  - rewrite <- El in *. rewrite str_split_join.
    + rewrite parse_segments
        by (eapply Forall_impl; [exact Hl_ok | cbn; tauto]).
      apply map_eq. intros k. apply option_eq. intros s.
      rewrite foldl_insert_lookup by (rewrite Hkeys; exact Hnd).
      rewrite Hl_in. unfold formatted. rewrite lookup_omap.
      destruct (m !! k) as [v|]; cbn.
      * split.
        -- intros (v' & [= <-] & Hs). rewrite Hs. reflexivity.
        -- destruct (format_value v) as [s'|] eqn:E; [|discriminate].
           intros [= <-]. eauto.
      * split; [intros (v' & ? & _) |]; discriminate.
    + rewrite El. discriminate.
    + apply Forall_fmap. eapply Forall_impl; [exact Hl_ok|].
      intros [k s] (H1 & _ & H3). cbn [fst snd] in *.
      unfold compose. cbn [fst snd]. rewrite !char_in_app. cbn [char_in]. rewrite H1, H3. reflexivity.
Qed.

(** What [parse_partition_path] reads back from a path of
    [models/facts.partition_path]. *)
Lemma parse_partition_path_of_date (d : date) (b : string) :
  ∃ m, PartitionManager.parse_partition_path (Facts.partition_path d b)
       = <["quarter" := quarter_label (month d)]> (<["year" := pystr (year d)]> m).
Proof.
  unfold PartitionManager.parse_partition_path.
  rewrite partition_path_segments, foldl_app.
  set (m := foldl _ ∅ (str_split "/" b)). exists m.
  cbn [foldl]. rewrite !str_app_cons, !str_app_nil.
  cbn [char_in str_split_first]. cbn. reflexivity.
Qed.

Lemma entry_is_str_parsed (d : date) (b : string) (s : string) :
  (entry_is_str (parsed_partition (Facts.partition_path d b)) "year" s
   = bool_decide (pystr (year d) = s)) ∧
  (entry_is_str (parsed_partition (Facts.partition_path d b)) "quarter" s
   = bool_decide (quarter_label (month d) = s)).
Proof.
  unfold entry_is_str, parsed_partition.
  destruct (parse_partition_path_of_date d b) as [m ->].
  rewrite !lookup_fmap.
  rewrite lookup_insert_ne by discriminate.
  rewrite !lookup_insert_eq. cbn.
  split.
  - destruct (String.eqb_spec (pystr (year d)) s);
      [rewrite bool_decide_eq_true_2 | rewrite bool_decide_eq_false_2]; done.
  - destruct (String.eqb_spec (quarter_label (month d)) s);
      [rewrite bool_decide_eq_true_2 | rewrite bool_decide_eq_false_2]; done.
Qed.

(** The inner loop of [filter_partitions] answers whether every filter
    finds, under its key, the string its value is written as. *)
Lemma partition_matches_spec (p : gmap string value) (filters : list (string * value)) :
  Forall (λ kv, ∃ s, format_value (snd kv) = Ok s) filters →
  ∃ b, partition_matches p filters = Ok b ∧
       (b = true ↔ Forall (λ kv, ∃ s, format_value (snd kv) = Ok s ∧
                                      p !! fst kv = Some (VStr s)) filters).
Proof.
  induction filters as [|[k v] r IH]; intros H.
  - exists true. split; [reflexivity | split; [constructor | reflexivity]].
  - apply Forall_cons in H as [[s Hs] Hr]. cbn [snd] in Hs.
    destruct (IH Hr) as (b & Hb & Hiff).
    cbn [partition_matches]. rewrite Hs. cbn [res_bind].
    assert (He : entry_is_str p k s = true ↔ p !! k = Some (VStr s)).
    { unfold entry_is_str. destruct (p !! k) as [[]|]; try (split; discriminate).
      rewrite String.eqb_eq. split; [intros -> | intros [= ->]]; reflexivity. }
    destruct (entry_is_str p k s) eqn:E.
    + exists b. split; [exact Hb|]. rewrite Hiff, Forall_cons. cbn [fst snd].
      split; [intros Hf; split; [exists s; split; [exact Hs | apply He; reflexivity] | exact Hf]
             | intros [_ Hf]; exact Hf].
    + exists false. split; [reflexivity|]. split; [discriminate|].
      rewrite Forall_cons. cbn [fst snd]. intros [(s' & Hs' & Hp) _].
      rewrite Hs in Hs'. injection Hs' as <-. apply He in Hp. discriminate.
Qed.

Lemma elem_of_df_columns_setitem {V} (df : DataFrame V) (c c' : string) (s : list V) :
  c' ∈ df_columns (df_setitem df c s) ↔ c' = c ∨ c' ∈ df_columns df.
Proof.
  unfold df_columns. induction df as [|[c0 s0] rest IH]; cbn [df_setitem map fst].
  - rewrite list_elem_of_singleton. split; [auto | intros [H|H]; [exact H | inversion H]].
  - destruct (String.eqb_spec c0 c) as [->|Hne]; cbn [map fst].
    + rewrite !elem_of_cons. tauto.
    + rewrite !elem_of_cons, IH. tauto.
Qed.

Lemma build_partition_path_round_trip_witness :
  ∃ p, build_partition_path (<["year" := VInt 2023]> (<["quarter" := VStr "Q1"]> ∅)) = Ok p ∧
       PartitionManager.parse_partition_path p
       = formatted (<["year" := VInt 2023]> (<["quarter" := VStr "Q1"]> ∅)).
Proof.
  apply (build_partition_path_round_trip
           (<["year" := VInt 2023]> (<["quarter" := VStr "Q1"]> ∅))).
  intros k v H.
  apply lookup_insert_Some in H as [[<- <-]|[_ H]].
  { repeat split; try reflexivity. exists "2023". split; reflexivity. }
  apply lookup_insert_Some in H as [[<- <-]|[_ H]].
  { repeat split; try reflexivity. exists "Q1". split; reflexivity. }
  rewrite lookup_empty in H. discriminate.
Defined.

(** X2. Partition pruning is exact on the paths the fact model writes:
    among the partitions parsed from the paths of a list of dates,
    [filter_partitions] with the filter [{'year': y, 'quarter': q}] keeps
    those of the dates whose year is [y] and whose quarter label is [q],
    in their order, and no other. *)
Theorem filter_partitions_prunes (ds : list date) (b : string) (y : Z) (q : string) :
  filter_partitions
    (map (λ d, parsed_partition (Facts.partition_path d b)) ds)
    [("year", VInt y); ("quarter", VStr q)]
  = Ok (map (λ d, parsed_partition (Facts.partition_path d b))
            (filter (λ d, year d = y ∧ quarter_label (month d) = q) ds)).
Proof.
  induction ds as [|d r IH]; [reflexivity|].
  cbn [map filter_partitions partition_matches format_value res_bind].
  destruct (entry_is_str_parsed d b (pystr y)) as [-> _].
  destruct (entry_is_str_parsed d b q) as [_ Hq].
  rewrite IH. cbn [res_bind]. rewrite filter_cons.
  destruct (decide (year d = y)) as [Hy|Hy].
  - rewrite bool_decide_eq_true_2 by (rewrite Hy; reflexivity).
    rewrite Hq. destruct (decide (quarter_label (month d) = q)) as [Hq'|Hq'].
    + rewrite bool_decide_eq_true_2 by exact Hq'. cbn [res_bind].
      rewrite decide_True by auto. reflexivity.
    + rewrite bool_decide_eq_false_2 by exact Hq'. cbn [res_bind].
      rewrite decide_False by tauto. reflexivity.
  - rewrite bool_decide_eq_false_2 by (intros E; apply Hy, pystr_inj, E).
    cbn [res_bind]. rewrite decide_False by tauto. reflexivity.
Qed.

(** X3. [filter_partitions] compares a partition's entries with the text
    of the filter's values, so a partition passes the filter made of its
    own items exactly when all its values are strings: the dictionary
    [{'year': 2023, 'quarter': 'Q1'}] does not match itself. *)
Theorem filter_partitions_own_items (p : gmap string value) :
  (∀ k v, p !! k = Some v → ∃ s, format_value v = Ok s) →
  ∃ kept, filter_partitions [p] (map_to_list p) = Ok kept ∧
          (p ∈ kept ↔ ∀ k v, p !! k = Some v → ∃ s, v = VStr s).
Proof.
  intros Hf.
  destruct (partition_matches_spec p (map_to_list p)) as (b & Hb & Hiff).
  { apply Forall_forall. intros [k v] Hkv. apply elem_of_map_to_list in Hkv.
    apply (Hf k v Hkv). }
  cbn [filter_partitions]. rewrite Hb. cbn [res_bind].
  eexists. split; [reflexivity|].
  rewrite Forall_forall in Hiff.
  destruct b.
  - rewrite list_elem_of_singleton. split; [intros _ | reflexivity].
    intros k v Hkv. destruct Hiff as [Hall _].
    destruct (Hall eq_refl (k, v)) as (s & _ & Hs).
    { apply elem_of_map_to_list. exact Hkv. }
    cbn [fst] in Hs. rewrite Hkv in Hs. injection Hs as ->. eauto.
  - split; [intros H; inversion H|]. intros Hall.
    destruct Hiff as [_ Hback]. exfalso.
    assert (E : false = true); [|discriminate].
    apply Hback. intros [k v] Hkv. apply elem_of_map_to_list in Hkv.
    destruct (Hall k v Hkv) as [s ->]. exists s. split; [reflexivity | exact Hkv].
Qed.

Lemma filter_partitions_own_items_witness :
  ∃ kept, filter_partitions [<["year" := VInt 2023]> (<["quarter" := VStr "Q1"]> ∅)]
            (map_to_list (<["year" := VInt 2023]> (<["quarter" := VStr "Q1"]> ∅)))
          = Ok kept ∧
          (<["year" := VInt 2023]> (<["quarter" := VStr "Q1"]> ∅) ∈ kept
           ↔ ∀ k v, (<["year" := VInt 2023]> (<["quarter" := VStr "Q1"]> ∅ : gmap string value))
                      !! k = Some v → ∃ s, v = VStr s).
Proof.
  apply (filter_partitions_own_items
           (<["year" := VInt 2023]> (<["quarter" := VStr "Q1"]> ∅))).
  intros k v H.
  apply lookup_insert_Some in H as [[<- <-]|[_ H]]; [eexists; reflexivity|].
  apply lookup_insert_Some in H as [[<- <-]|[_ H]]; [eexists; reflexivity|].
  rewrite lookup_empty in H. discriminate.
Defined.

(** X4. Whatever frame and date column it is given, a frame that
    [add_partition_columns] returns has the two partition columns:
    [validate_partitions] accepts it for [['year', 'quarter']] and reports
    no missing column. *)
Theorem add_partition_columns_validates (df df' : DataFrame value) (c : string) :
  PartitionManager.add_partition_columns df c = Ok df' →
  validate_partitions df' ["year"; "quarter"] = (true, []).
Proof.
  unfold PartitionManager.add_partition_columns. intros H.
  repeat match type of H with
         | res_bind ?r _ = _ => destruct r; cbn [res_bind] in H; [|discriminate]
         end.
  injection H as <-. unfold validate_partitions.
  rewrite !filter_cons, filter_nil.
  rewrite !decide_False; [reflexivity | |].
  - intros Hn. apply Hn. apply elem_of_df_columns_setitem. left. reflexivity.
  - intros Hn. apply Hn. apply elem_of_df_columns_setitem. right.
    apply elem_of_df_columns_setitem. left. reflexivity.
Qed.

Lemma add_partition_columns_validates_witness :
  validate_partitions
    [("transaction_date", [VTimestamp (mkdatetime (mkdate 2023 5 17) 0 0 0)]);
     ("year", [VInt 2023]); ("quarter", [VStr "Q2"])]
    ["year"; "quarter"] = (true, []).
Proof.
  apply (add_partition_columns_validates
           [("transaction_date", [VDate (mkdate 2023 5 17)])] _ "transaction_date").
  reflexivity.
Defined.

(** X5. [add_partition_columns] cannot take its dates from a column named
    [year]: the assignment of the year column overwrites the dates with
    integers, and reading the quarter then raises [AttributeError], for
    every frame whose [year] column holds at least one date. *)
Theorem add_partition_columns_year_column_raises (df : DataFrame value) (ds : list date) :
  ds ≠ [] →
  df_getitem df "year" = Ok (map VDate ds) →
  PartitionManager.add_partition_columns df "year"
  = Raise (AttributeError "Can only use .dt accessor with datetimelike values").
Proof.
  intros Hne Hc. unfold PartitionManager.add_partition_columns.
  rewrite Hc. cbn [res_bind]. rewrite res_mapM_to_datetime. cbn [res_bind].
  rewrite df_getitem_setitem_eq. cbn [res_bind].
  rewrite res_mapM_dt_accessor. cbn [res_bind].
  rewrite df_getitem_setitem_eq. cbn [res_bind].
  destruct ds as [|d r]; [congruence|]. reflexivity.
Qed.

Lemma add_partition_columns_year_column_raises_witness :
  PartitionManager.add_partition_columns [("year", [VDate (mkdate 2023 5 17)])] "year"
  = Raise (AttributeError "Can only use .dt accessor with datetimelike values").
Proof.
  apply (add_partition_columns_year_column_raises _ [mkdate 2023 5 17]);
    [discriminate | reflexivity].
Defined.

(** X6. On a frame whose date column holds dates, [add_partition_columns]
    returns a frame in which every row carries the year of its date, as an
    integer, and the quarter label of its date; the date column holds the
    timestamps of the midnights of those dates, as [pd.to_datetime] leaves
    them; and every other column is the one of the frame it was given. *)
Theorem add_partition_columns_frame (df : DataFrame value) (c : string) (ds : list date) :
  c ≠ "year" → c ≠ "quarter" →
  df_getitem df c = Ok (map VDate ds) →
  ∃ df', PartitionManager.add_partition_columns df c = Ok df' ∧
         df_getitem df' "year" = Ok (map (λ d, VInt (year d)) ds) ∧
         df_getitem df' "quarter" = Ok (map (λ d, VStr (quarter_label (month d))) ds) ∧
         df_getitem df' c = Ok (map (λ d, VTimestamp (mkdatetime d 0 0 0)) ds) ∧
         ∀ c', c' ≠ "year" → c' ≠ "quarter" → c' ≠ c →
               df_getitem df' c' = df_getitem df c'.
Proof.
  intros Hy Hq Hc. unfold PartitionManager.add_partition_columns.
  rewrite Hc. cbn [res_bind]. rewrite res_mapM_to_datetime. cbn [res_bind].
  rewrite df_getitem_setitem_eq. cbn [res_bind].
  rewrite res_mapM_dt_accessor. cbn [res_bind].
  rewrite df_getitem_setitem_ne by congruence.
  rewrite df_getitem_setitem_eq. cbn [res_bind].
  rewrite res_mapM_dt_accessor. cbn [res_bind].
  eexists. split; [reflexivity|]. split; [|split; [|split]].
  - rewrite df_getitem_setitem_ne by discriminate.
    apply df_getitem_setitem_eq.
  - rewrite df_getitem_setitem_eq, map_map. reflexivity.
  - rewrite !df_getitem_setitem_ne by congruence.
    apply df_getitem_setitem_eq.
  - intros c' Hy' Hq' Hc'.
    rewrite !df_getitem_setitem_ne by congruence. reflexivity.
Qed.

Lemma add_partition_columns_frame_witness :
  ∃ df', PartitionManager.add_partition_columns
           [("transaction_date", [VDate (mkdate 2023 5 17)]); ("quantity", [VInt 3])]
           "transaction_date" = Ok df' ∧
         df_getitem df' "year" = Ok [VInt 2023] ∧
         df_getitem df' "quarter" = Ok [VStr "Q2"] ∧
         df_getitem df' "transaction_date"
         = Ok [VTimestamp (mkdatetime (mkdate 2023 5 17) 0 0 0)] ∧
         ∀ c', c' ≠ "year" → c' ≠ "quarter" → c' ≠ "transaction_date" →
               df_getitem df' c'
               = df_getitem [("transaction_date", [VDate (mkdate 2023 5 17)]);
                             ("quantity", [VInt 3])] c'.
Proof.
  apply (add_partition_columns_frame
           [("transaction_date", [VDate (mkdate 2023 5 17)]); ("quantity", [VInt 3])]
           "transaction_date" [mkdate 2023 5 17]);
    [discriminate | discriminate | reflexivity].
Defined.

(* ===================================================================== *)
(** ** Results: the record validator of the fact model *)
(* ===================================================================== *)

Lemma Qle_bool_true (a b : Q) : (a <= b)%Q → Qle_bool a b = true.
Proof. apply Qle_bool_iff. Qed.

Lemma round2_nonneg (x : Q) : (0 <= x)%Q → (0 <= round2 x)%Q.
Proof.
  intros Hx. unfold round2.
  assert (H : 0 <= round_half_even (x * 100)).
  { unfold round_half_even.
    assert (Hf : 0 <= Qfloor (x * 100)).
    { change 0 with (Qfloor 0). apply Qfloor_resp_le. lra. }
    destruct (Qcompare _ _); [destruct (Z.even _)| |]; lia. }
  apply Qle_shift_div_l; [reflexivity|].
  rewrite Qmult_0_l. change 0%Q with (inject_Z 0). rewrite <- Zle_Qle. exact H.
Qed.

(** What an accepted record has passed. *)
Lemma validate_sales_fact_accepts (r : SalesFact.row) (b : bool) :
  validate_sales_fact r = Ok b →
  b = true ∧
  (Qabs (SalesFact.revenue r
         - round2 (inject_Z (SalesFact.quantity r) * SalesFact.unit_price r)) < 0.01)%Q ∧
  (Qabs (SalesFact.profit r
         - round2 (SalesFact.revenue r - SalesFact.cost r)) < 0.01)%Q ∧
  (SalesFact.discount_amount r <= SalesFact.revenue r)%Q.
Proof.
  unfold validate_sales_fact. cbv beta zeta.
  repeat match goal with
         | |- res_bind (py_assert ?c _) _ = _ → _ =>
             let E := fresh "E" in
             destruct c eqn:E; cbn [py_assert res_bind]; [|discriminate]
         end.
  intros [= <-]. split; [reflexivity|].
  repeat match goal with
         | H : Qlt_bool _ _ = true |- _ => apply Qlt_bool_true in H
         | H : Qle_bool _ _ = true |- _ => apply Qle_bool_iff in H
         end.
  auto.
Qed.

(** X7. A record whose revenue and profit are the ones
    [calculate_derived_measures] computes, and whose other fields respect
    the constraints of the fact model, is accepted by
    [validate_sales_fact]. *)
Theorem calculate_derived_measures_validates
    (transaction_id line_item_id : Z) (d : date) (h m s : Z)
    (time_key geo_key product_key customer_key payment_key quantity : Z)
    (unit_price cost discount_amount : Q) :
  0 < transaction_id → 0 < line_item_id → 2021 <= year d <= 2023 →
  0 < time_key → 0 < geo_key → 0 < product_key → 0 < customer_key → 0 < payment_key →
  1 <= quantity <= 100 → (0 < unit_price)%Q → (0 <= cost)%Q →
  (0 <= discount_amount)%Q →
  (discount_amount
   <= fst (calculate_derived_measures quantity unit_price cost discount_amount))%Q →
  validate_sales_fact
    (SalesFact.mk transaction_id line_item_id d (mkdatetime d h m s)
       time_key geo_key product_key customer_key payment_key quantity unit_price
       (fst (calculate_derived_measures quantity unit_price cost discount_amount))
       cost discount_amount
       (snd (calculate_derived_measures quantity unit_price cost discount_amount)))
  = Ok true.
Proof.
  intros Ht Hl Hy Htk Hgk Hpk Hck Hyk Hq Hup Hc Hd Hdr.
  unfold calculate_derived_measures in *. cbn [fst snd] in *.
  unfold validate_sales_fact. cbv beta zeta.
  cbn [SalesFact.transaction_id SalesFact.line_item_id SalesFact.transaction_date
       SalesFact.transaction_timestamp SalesFact.time_key SalesFact.geo_key
       SalesFact.product_key SalesFact.customer_key SalesFact.payment_key
       SalesFact.quantity SalesFact.unit_price SalesFact.revenue SalesFact.cost
       SalesFact.discount_amount SalesFact.profit dt_date].
  assert (Hrev : (0 <= round2 (inject_Z quantity * unit_price))%Q).
  { apply round2_nonneg. apply Qmult_le_0_compat; [|lra].
    change 0%Q with (inject_Z 0). rewrite <- Zle_Qle. lia. }
  assert (Hz : ∀ x : Q, Qlt_bool (Qabs (x - x)) 0.01 = true).
  { intros x. apply Qlt_bool_true.
    assert (E : (x - x == 0)%Q) by ring. rewrite E. reflexivity. }
  repeat match goal with
         | |- res_bind (py_assert ?c _) _ = _ =>
             replace c with true; [cbn [py_assert res_bind]|symmetry]
         end;
    first [ reflexivity
          | apply Z.ltb_lt; assumption
          | apply Qle_bool_true; assumption
          | apply Hz
          | apply andb_true_intro; split; apply Z.leb_le; lia
          | apply bool_decide_eq_true_2; reflexivity
          | apply Qlt_bool_true; exact Hup ].
Qed.

Lemma calculate_derived_measures_validates_witness :
  validate_sales_fact
    (SalesFact.mk 3 1 (mkdate 2023 1 2) (mkdatetime (mkdate 2023 1 2) 9 30 0)
       20230102 1 1 1 1 5 10.00
       (fst (calculate_derived_measures 5 10.00 30.00 0.00)) 30.00 0.00
       (snd (calculate_derived_measures 5 10.00 30.00 0.00)))
  = Ok true.
Proof.
  apply calculate_derived_measures_validates; cbn [year]; try lia;
    try reflexivity; vm_compute; discriminate.
Defined.

(** X8. [validate_sales_fact] compares the revenue with
    [round(quantity * unit_price, 2)] and leaves the discount out: it
    accepts no record whose revenue is within 0.01 of
    [quantity * unit_price - discount_amount] for a discount of 0.026 or
    more, when [quantity * unit_price] is at most 10^9.  On the exact
    amounts the distance of the revenue from the rounded product is then
    at least 0.011; the 0.001 beyond the tolerance of the assertion is
    far more than the rounding of binary floats moves a comparison of
    amounts of that size, so the record is refused by the float
    arithmetic of the code as well. *)
Theorem validate_sales_fact_rejects_discounted (r : SalesFact.row) (b : bool) :
  revenue_identity r →
  (Qabs (inject_Z (SalesFact.quantity r) * SalesFact.unit_price r) <= 10 ^ 9)%Q →
  (0.026 <= SalesFact.discount_amount r)%Q →
  validate_sales_fact r ≠ Ok b.
Proof.
  intros Hid _ Hd Hok.
  apply validate_sales_fact_accepts in Hok as (_ & Hrev & _ & _).
  unfold revenue_identity in Hid.
  pose proof (round2_near (inject_Z (SalesFact.quantity r) * SalesFact.unit_price r)) as Hn.
  apply Qabs_Qle_condition in Hid, Hn. apply Qabs_Qlt_condition in Hrev.
  lra.
Qed.

Lemma validate_sales_fact_rejects_discounted_witness :
  validate_sales_fact discounted_row ≠ Ok true.
Proof.
  apply validate_sales_fact_rejects_discounted; vm_compute; discriminate.
Defined.

(* ===================================================================== *)
(** ** Results: the validator of the time dimension *)
(* ===================================================================== *)

Lemma mask_or_map {R} (p q : R → bool) (rows : list R) :
  mask_or (map p rows) (map q rows) = map (λ r, p r || q r) rows.
Proof.
  induction rows as [|r rows IH]; cbn [map mask_or]; [|rewrite IH]; reflexivity.
Qed.

Lemma res_mapM_expected_time_key (rows : list DimTime.row) :
  res_mapM expected_time_key (map (λ r, VDate (DimTime.date r)) rows)
  = Ok (map (λ r, VInt (year (DimTime.date r) * 10000 + month (DimTime.date r) * 100
                        + day (DimTime.date r))) rows).
Proof.
  induction rows as [|r rows IH]; cbn [map res_mapM expected_time_key res_bind];
    [|rewrite IH]; reflexivity.
Qed.

Lemma series_ne_int {R} (f g : R → Z) (rows : list R) :
  series_ne (map (λ r, VInt (f r)) rows) (map (λ r, VInt (g r)) rows)
  = Ok (map (λ r, negb (Z.eqb (f r) (g r))) rows).
Proof.
  induction rows as [|r rows IH]; cbn [map series_ne]; [reflexivity|].
  rewrite IH. cbn [res_bind value_eqb to_number]. do 3 f_equal.
  destruct (Z.eqb_spec (f r) (g r)) as [->|Hne].
  - apply Qeq_bool_iff. reflexivity.
  - destruct (Qeq_bool _ _) eqn:E; [|reflexivity].
    apply Qeq_bool_iff in E. rewrite inject_Z_injective in E. contradiction.
Qed.

Lemma existsb_false_Forall {R} (p : R → bool) (l : list R) :
  existsb p l = false ↔ Forall (λ r, p r = false) l.
Proof.
  induction l as [|x l IH]; cbn [existsb].
  - split; [constructor | reflexivity].
  - rewrite Forall_cons, orb_false_iff, IH. reflexivity.
Qed.

(** The rows [validate_time_dimension] counts in its two checks. *)
Lemma validate_time_dimension_run (rows : list DimTime.row) :
  rows ≠ [] →
  let out_of_range := λ r, Qlt_bool (inject_Z (DimTime.time_key r)) 19000101
                           || Qlt_bool 21001231 (inject_Z (DimTime.time_key r)) in
  let mismatch := λ r, negb (Z.eqb (DimTime.time_key r)
                              (year (DimTime.date r) * 10000
                               + month (DimTime.date r) * 100 + day (DimTime.date r))) in
  fst (validate_time_dimension (time_frame rows))
  = if existsb out_of_range rows
    then Raise (ValueError ("Found " ++ pystr (mask_count (map out_of_range rows))
                            ++ " invalid time_key values"))
    else if existsb mismatch rows
    then Raise (ValueError ("Found " ++ pystr (mask_count (map mismatch rows))
                            ++ " time_key values that don't match date"))
    else Ok true.
Proof.
  intros Hne out_of_range mismatch.
  assert (E : time_frame rows
              = [ ("time_key", map (λ r, VInt (DimTime.time_key r)) rows);
                  ("date", map (λ r, VDate (DimTime.date r)) rows) ])
    by (destruct rows; [contradiction | reflexivity]).
  rewrite E.
  cbv beta iota zeta delta [validate_time_dimension vbind getitem setitem vlift
                            vret vraise].
  cbn [df_getitem String.eqb Ascii.eqb Bool.eqb fst snd].
  rewrite !series_test_int. cbv beta iota.
  rewrite mask_or_map, mask_any_map.
  fold out_of_range.
  destruct (existsb out_of_range rows); [reflexivity|].
  cbn [df_getitem String.eqb Ascii.eqb Bool.eqb fst snd].
  rewrite res_mapM_expected_time_key. cbv beta iota.
  cbn [df_getitem df_setitem String.eqb Ascii.eqb Bool.eqb fst snd].
  rewrite series_ne_int. cbv beta iota. rewrite mask_any_map. fold mismatch.
  destruct (existsb mismatch rows); reflexivity.
Qed.

(** X9. On the frame of a non-empty time dimension
    [validate_time_dimension] returns [True] exactly when every
    [time_key] lies between 19000101 and 21001231 and is
    [year * 10000 + month * 100 + day] of the row's date, and raises
    [ValueError] otherwise. Nothing else is checked: not that the digits
    form a calendar date, and not that the dates follow each other. *)
Theorem validate_time_dimension_accepts (rows : list DimTime.row) :
  rows ≠ [] →
  (fst (validate_time_dimension (time_frame rows)) = Ok true
   ↔ Forall (λ r, 19000101 <= DimTime.time_key r <= 21001231 ∧
                  DimTime.time_key r
                  = year (DimTime.date r) * 10000 + month (DimTime.date r) * 100
                    + day (DimTime.date r)) rows) ∧
  (fst (validate_time_dimension (time_frame rows)) = Ok true ∨
   validation_failure (fst (validate_time_dimension (time_frame rows)))).
Proof.
  intros Hne. rewrite (validate_time_dimension_run rows Hne). cbv zeta.
  set (out_of_range := λ r : DimTime.row, _ || _).
  set (mismatch := λ r : DimTime.row, negb _).
  assert (Ho : existsb out_of_range rows = false
               ↔ Forall (λ r, 19000101 <= DimTime.time_key r <= 21001231) rows).
  { rewrite existsb_false_Forall. apply Forall_iff. intros r.
    unfold out_of_range. rewrite orb_false_iff, !Qlt_bool_false.
    change 19000101%Q with (inject_Z 19000101).
    change 21001231%Q with (inject_Z 21001231).
    rewrite <- !Zle_Qle. reflexivity. }
  assert (Hm : existsb mismatch rows = false
               ↔ Forall (λ r, DimTime.time_key r
                              = year (DimTime.date r) * 10000
                                + month (DimTime.date r) * 100
                                + day (DimTime.date r)) rows).
  { rewrite existsb_false_Forall. apply Forall_iff. intros r.
    unfold mismatch. rewrite negb_false_iff, Z.eqb_eq. reflexivity. }
  rewrite Forall_and, <- Ho, <- Hm.
  destruct (existsb out_of_range rows), (existsb mismatch rows);
    (split; [split; [try discriminate; auto | intros [? ?]; try discriminate; auto]|]);
    first [left; reflexivity | right; eexists; reflexivity].
Qed.

Lemma validate_time_dimension_accepts_witness :
  (fst (validate_time_dimension (time_frame demo_time_df)) = Ok true
   ↔ Forall (λ r, 19000101 <= DimTime.time_key r <= 21001231 ∧
                  DimTime.time_key r
                  = year (DimTime.date r) * 10000 + month (DimTime.date r) * 100
                    + day (DimTime.date r)) demo_time_df) ∧
  (fst (validate_time_dimension (time_frame demo_time_df)) = Ok true ∨
   validation_failure (fst (validate_time_dimension (time_frame demo_time_df)))).
Proof. apply (validate_time_dimension_accepts demo_time_df). discriminate. Defined.

(* ===================================================================== *)
(** ** Results: the rows of the product dimension *)
(* ===================================================================== *)

Section ProductRows.
Context {RS : RandomStream}.

Lemma returns_and_ensures {A} (m : Gen A) (P Q : A → Prop) :
  returns m P → ensures m Q → returns m (λ a, P a ∧ Q a).
Proof.
  intros Hr He w. destruct (Hr w) as (a & w' & E & Ha).
  exists a, w'. split; [exact E|]. split; [exact Ha | exact (He w a w' E)].
Qed.

Lemma ensures_random_random :
  ensures random_random (λ u, (0 <= u)%Q ∧ (u < 1)%Q).
Proof. apply returns_ensures, returns_random_random. Qed.

Lemma ensures_random_uniform (a b : Q) :
  (a <= b)%Q → ensures (random_uniform a b) (λ x, (a <= x)%Q ∧ (x <= b)%Q).
Proof.
  intros Hab. unfold random_uniform.
  eapply ensures_bind; [apply ensures_random_random|].
  intros u [H0 H1]. apply ensures_ret.
  assert (0 <= (b - a) * u)%Q by (apply Qmult_le_0_compat; lra).
  assert ((b - a) * u <= (b - a) * 1)%Q
    by (rewrite !(Qmult_comm (b - a)); apply Qmult_le_compat_r; lra).
  lra.
Qed.

Lemma ensures_random_choice {A} (l : list A) :
  ensures (random_choice l) (λ x, x ∈ l).
Proof.
  unfold random_choice. destruct l as [|x0 l0]; [intros w a w' E; discriminate E|].
  eapply ensures_bind; [apply ensures_any|]. intros i _.
  apply ensures_lift. intros a. apply list_getitem_elem_of.
Qed.

Lemma ensures_for_each_prefix {A S} (l : list A) (body : S → A → Gen S)
    (I : list A → S → Prop) (done : list A) (s : S) :
  I done s →
  (∀ pre x s, I pre s → ensures (body s x) (I (pre ++ [x])%list)) →
  ensures (for_each l body s) (I (done ++ l)%list).
Proof.
  revert done s. induction l as [|x l IH]; intros done s Hs Hbody; cbn [for_each].
  - rewrite app_nil_r. apply ensures_ret. exact Hs.
  - eapply ensures_bind; [apply Hbody; exact Hs|].
    intros s' Hs'. replace (done ++ x :: l)%list with ((done ++ [x]) ++ l)%list
      by (rewrite <- app_assoc; reflexivity).
    apply IH; [exact Hs' | exact Hbody].
Qed.

Lemma round2_bounds (x lo hi : Q) :
  (lo <= x)%Q → (x <= hi)%Q → (lo - 0.005 <= round2 x)%Q ∧ (round2 x <= hi + 0.005)%Q.
Proof.
  intros H1 H2. pose proof (round2_near x) as H.
  apply Qabs_Qle_condition in H. split; lra.
Qed.

Lemma round2_mono_cents (x : Q) (z : Z) :
  (inject_Z z / 100 <= x)%Q → (inject_Z z / 100 <= round2 x)%Q.
Proof.
  intros H. unfold round2.
  apply Qmult_le_r with (z := 100%Q); [reflexivity|].
  assert (E1 : (inject_Z z / 100 * 100 == inject_Z z)%Q) by field.
  assert (E2 : ∀ k, (inject_Z k / 100 * 100 == inject_Z k)%Q) by (intros; field).
  rewrite E1, E2. rewrite <- Zle_Qle.
  assert (Hz : (inject_Z z <= x * 100)%Q) by lra.
  assert (Hf : z <= Qfloor (x * 100)).
  { rewrite <- (Qfloor_Z z). apply Qfloor_resp_le. exact Hz. }
  unfold round_half_even.
  destruct (Qcompare _ _); [destruct (Z.even _)| |]; lia.
Qed.

Lemma round2_upper_cents (x : Q) (z : Z) :
  (x <= inject_Z z / 100)%Q → (round2 x <= inject_Z z / 100)%Q.
Proof.
  intros H.
  destruct (Qlt_le_dec (inject_Z z / 100) (round2 x)) as [Hlt|Hle]; [|exact Hle].
  exfalso.
  assert (Hz : (x * 100 <= inject_Z z)%Q).
  { clear Hlt. apply Qmult_le_r with (z := (/ 100)%Q); [reflexivity|].
    assert (E : (x * 100 * / 100 == x)%Q) by field. rewrite E. exact H. }
  unfold round2 in Hlt.
  assert (Hk : z < round_half_even (x * 100)).
  { rewrite Zlt_Qlt.
    apply Qmult_lt_r with (z := (/ 100)%Q); [reflexivity|]. exact Hlt. }
  pose proof (Qfloor_le (x * 100)) as Hfl.
  pose proof (Qlt_floor (x * 100)) as Hfu.
  assert (Hf : Qfloor (x * 100) <= z).
  { rewrite <- (Qfloor_Z z). apply Qfloor_resp_le. exact Hz. }
  unfold round_half_even in Hk.
  destruct (Qcompare_spec (x * 100 - inject_Z (Qfloor (x * 100))) 0.5) as [Hc|Hc|Hc].
  - destruct (Z.even _); [lia|].
    assert (E : Qfloor (x * 100) = z) by lia. rewrite E in Hc. lra.
  - lia.
  - assert (E : Qfloor (x * 100) = z) by lia. rewrite E in Hc. lra.
Qed.

Lemma round2_ge_cents (x c : Q) : is_cents c → (c <= x)%Q → (c <= round2 x)%Q.
Proof.
  intros [z Hz] H. rewrite Hz in *. apply round2_mono_cents, H.
Qed.

Lemma round2_le_cents (x c : Q) : is_cents c → (x <= c)%Q → (round2 x <= c)%Q.
Proof.
  intros [z Hz] H. rewrite Hz in *. apply round2_upper_cents, H.
Qed.

(** One turn of the product loop appends the block of one product and
    moves the surrogate key past it. *)
Lemma ensures_product_body (change_rate : Q) (records : list DimProduct.row)
    (product_key product_idx : Z) :
  ensures (generate_dim_product_body change_rate (records, product_key) product_idx)
    (λ st, ∃ block, st = ((records ++ block)%list,
                          product_key + Z.of_nat (length block)) ∧
                    product_block change_rate product_key product_idx block).
Proof.
  cbv beta iota zeta delta [generate_dim_product_body].
  do 5 (eapply ensures_bind; [apply ensures_any | intros ? _]).
  eapply ensures_bind; [apply ensures_random_uniform; lra|]. intros u1 [Hu1 Hu1'].
  eapply ensures_bind; [apply ensures_random_uniform; lra|]. intros u2 [Hu2 Hu2'].
  eapply ensures_bind; [apply ensures_random_random|]. intros r [Hr0 Hr1].
  cbv beta.
  set (unit_cost := round2 u1). set (unit_price := round2 (unit_cost * u2)).
  assert (Hc5 : (5 <= unit_cost)%Q).
  { apply round2_ge_cents; [exists 500; reflexivity | lra]. }
  assert (Hc200 : (unit_cost <= 200)%Q).
  { apply round2_le_cents; [exists 20000; reflexivity | lra]. }
  assert (Hp : (1.3 * unit_cost - 0.005 <= unit_price)%Q ∧
               (unit_price <= 2.5 * unit_cost + 0.005)%Q).
  { apply round2_bounds.
    - rewrite (Qmult_comm 1.3). apply Qmult_le_l; [lra | exact Hu2].
    - rewrite (Qmult_comm 2.5). apply Qmult_le_l; [lra | exact Hu2']. }
  destruct Hp as [Hp1 Hp2].
  destruct (Qlt_bool r change_rate) eqn:Hchange.
  - apply Qlt_bool_true in Hchange.
    eapply (ensures_bind _ _
              (λ st, ∃ hist, st = ((records ++ [hist])%list, product_key + 1) ∧
                             DimProduct.product_key hist = product_key ∧
                             DimProduct.product_id hist = product_id_of product_idx ∧
                             DimProduct.is_current hist = false ∧
                             DimProduct.effective_date hist = historical_date ∧
                             DimProduct.expiration_date hist = current_date ∧
                             (0 < DimProduct.unit_cost hist)%Q ∧
                             (0 < DimProduct.unit_price hist)%Q)).
    + eapply ensures_bind; [apply ensures_random_uniform; lra|].
      intros u3 [Hu3 Hu3'].
      eapply ensures_bind; [apply ensures_random_uniform; lra|].
      intros u4 [Hu4 Hu4'].
      eapply ensures_bind; [apply ensures_lift; intros q Hq; exact Hq|].
      intros q Hq. cbv beta in Hq.
      rewrite py_div_ok in Hq by lra. injection Hq as <-.
      apply ensures_ret.
      eexists. split; [reflexivity|]. cbn.
      assert (Hold : (5 <= round2 (unit_price * u3))%Q).
      { apply round2_ge_cents; [exists 500; reflexivity|].
        assert (6.495 * 0.8 <= unit_price * u3)%Q.
        { apply Qle_trans with (unit_price * 0.8)%Q.
          - apply Qmult_le_compat_r; lra.
          - apply Qmult_le_l; lra. }
        lra. }
      repeat split; try reflexivity.
      * apply Qlt_le_trans with 2%Q; [reflexivity|].
        apply round2_ge_cents; [exists 200; reflexivity|].
        apply Qle_shift_div_l; [lra|].
        apply Qle_trans with (2 * 2.5)%Q; [apply Qmult_le_l; lra | lra].
      * lra.
    + intros st (hist & -> & Hk & Hpid & Hcur & Heff & Hexp & Hhc & Hhp).
      apply ensures_ret.
      eexists [hist; _]. split; [rewrite <- app_assoc; cbn; f_equal; lia|].
      eexists. repeat split; cycle 7.
      { right. exists hist. repeat split; try assumption; try reflexivity. lra. }
      all: try reflexivity; assumption.
  - apply Qlt_bool_false in Hchange.
    eapply (ensures_bind _ _ (λ st, st = (records, product_key)));
      [apply ensures_ret; reflexivity|].
    intros st ->. apply ensures_ret.
    eexists [_]. split; [cbn; f_equal; lia|].
    eexists. repeat split; cycle 7.
    { left. repeat split; try reflexivity. lra. }
    all: try reflexivity; assumption.
Qed.

Lemma product_blocks_app (change_rate : Q) (key : Z) (idxs : list Z)
    (blocks : list (list DimProduct.row)) (i : Z) (b : list DimProduct.row) :
  product_blocks change_rate key idxs blocks →
  product_block change_rate (key + Z.of_nat (length (concat blocks))) i b →
  product_blocks change_rate key (idxs ++ [i]) (blocks ++ [b]).
Proof.
  revert key blocks. induction idxs as [|j idxs IH]; intros key [|b0 blocks] H Hb;
    cbn in H; try contradiction.
  - cbn. cbn in Hb. rewrite Z.add_0_r in Hb. auto.
  - destruct H as [H0 H]. cbn [app product_blocks]. split; [exact H0|].
    apply IH; [exact H|].
    cbn [concat] in Hb. rewrite length_app, Nat2Z.inj_add, Z.add_assoc in Hb. exact Hb.
Qed.

Lemma ensures_product_loop (change_rate : Q) (n : Z) :
  ensures (for_each (range n) (generate_dim_product_body change_rate) ([], 1))
    (λ st, ∃ blocks, fst st = concat blocks ∧
                     product_blocks change_rate 1 (range n) blocks).
Proof.
  assert (H : ensures
                (for_each (range n) (generate_dim_product_body change_rate) ([], 1))
                (λ st, ∃ blocks,
                   st = (concat blocks, 1 + Z.of_nat (length (concat blocks))) ∧
                   product_blocks change_rate 1 ([] ++ range n) blocks)).
  { apply (ensures_for_each_prefix (range n) (generate_dim_product_body change_rate)
             (λ done st, ∃ blocks,
                st = (concat blocks, 1 + Z.of_nat (length (concat blocks))) ∧
                product_blocks change_rate 1 done blocks)
             [] ([], 1)).
    - exists []. split; [reflexivity | exact I].
    - intros pre x st (blocks & -> & Hb).
      eapply ensures_weaken; [apply ensures_product_body|].
      intros st (block & -> & Hblock). exists (blocks ++ [block])%list. split.
      + rewrite concat_app. cbn [concat]. rewrite app_nil_r, length_app. f_equal. lia.
      + apply product_blocks_app; assumption. }
  eapply ensures_weaken; [exact H|].
  intros st (blocks & -> & Hb). exists blocks. auto.
Qed.

(** The frame [generate_dim_product] returns is made of the blocks of its
    products, in their order. *)
Lemma generate_dim_product_blocks (num_products : Z) (change_rate : Q) (seed : Z) :
  returns (generate_dim_product num_products change_rate seed)
    (λ rows, ∃ blocks, rows = concat blocks ∧
                       product_blocks change_rate 1 (range num_products) blocks).
Proof.
  unfold generate_dim_product.
  eapply returns_bind; [apply returns_DataGenerator|]. intros _ _.
  eapply returns_bind.
  - eapply returns_and_ensures; [apply returns_product_loop | apply ensures_product_loop].
  - intros [records key] [_ (blocks & E & Hb)]. cbn [fst] in E. subst records.
    apply returns_ret. exists blocks. auto.
Qed.

End ProductRows.

(** *** What the blocks say about the frame *)

Lemma product_block_scd2 (change_rate : Q) (key i : Z) (b : list DimProduct.row) :
  product_block change_rate key i b → scd2_block (product_id_of i) b.
Proof.
  intros (cur & Hpid & Hcur & Hexp & _ & _ & _ & _ & H).
  exists cur. repeat split; try assumption.
  destruct H as [(-> & _) | (hist & -> & _ & _ & Hh & Hhc & _ & Hhe & He & _)].
  - left. reflexivity.
  - right. exists hist. repeat split; try assumption. congruence.
Qed.

Lemma product_blocks_scd2 (change_rate : Q) (key : Z) (idxs : list Z)
    (blocks : list (list DimProduct.row)) :
  product_blocks change_rate key idxs blocks →
  Forall2 (λ i b, scd2_block (product_id_of i) b) idxs blocks.
Proof.
  revert key blocks. induction idxs as [|i idxs IH]; intros key [|b blocks] H;
    cbn in H; try contradiction; [constructor|].
  destruct H as [Hb H]. constructor; [eapply product_block_scd2, Hb | eapply IH, H].
Qed.

Lemma range_from_cons (a b : Z) : a < b → range_from a b = a :: range_from (a + 1) b.
Proof.
  intros H. unfold range_from.
  replace (Z.to_nat (b - a)) with (S (Z.to_nat (b - (a + 1)))) by lia.
  cbn [seq map]. f_equal; [lia|].
  rewrite <- seq_shift, map_map. apply map_ext. intros i. lia.
Qed.

Lemma range_from_nil (a b : Z) : b <= a → range_from a b = [].
Proof. intros H. unfold range_from. replace (Z.to_nat (b - a)) with 0%nat by lia. reflexivity. Qed.

(** The surrogate keys count up from the key the first block starts at. *)
Lemma product_blocks_keys (change_rate : Q) (key : Z) (idxs : list Z)
    (blocks : list (list DimProduct.row)) :
  product_blocks change_rate key idxs blocks →
  map DimProduct.product_key (concat blocks)
  = range_from key (key + Z.of_nat (length (concat blocks))).
Proof.
  revert key blocks. induction idxs as [|i idxs IH]; intros key [|b blocks] H;
    cbn in H; try contradiction.
  - cbn. rewrite range_from_nil by lia. reflexivity.
  - destruct H as [Hb H]. cbn [concat]. rewrite map_app, length_app, (IH _ _ H).
    destruct Hb as (cur & _ & _ & _ & _ & _ & _ & _ &
                    [(-> & Hk & _) | (hist & -> & Hkh & Hkc & _)]).
    + cbn [map length app]. rewrite (range_from_cons key) by lia.
      rewrite Hk. f_equal. f_equal; lia.
    + cbn [map length app]. rewrite (range_from_cons key) by lia.
      rewrite (range_from_cons (key + 1)) by lia.
      rewrite Hkh, Hkc. do 2 f_equal. f_equal; lia.
Qed.

(** One current row per product; one or two rows per product, and which
    of the two is decided by the change rate at its ends. *)
Lemma product_blocks_counts (change_rate : Q) (key : Z) (idxs : list Z)
    (blocks : list (list DimProduct.row)) :
  product_blocks change_rate key idxs blocks →
  length (filter (λ r, DimProduct.is_current r = true) (concat blocks)) = length idxs ∧
  (length idxs <= length (concat blocks) <= 2 * length idxs)%nat ∧
  ((change_rate <= 0)%Q → length (concat blocks) = length idxs) ∧
  ((1 <= change_rate)%Q → length (concat blocks) = (2 * length idxs)%nat).
Proof.
  revert key blocks. induction idxs as [|i idxs IH]; intros key [|b blocks] H;
    cbn in H; try contradiction.
  - cbn. repeat split; auto.
  - destruct H as [Hb H]. destruct (IH _ _ H) as (IH1 & IH2 & IH3 & IH4).
    cbn [concat length]. rewrite filter_app, !length_app, IH1.
    destruct Hb as (cur & _ & Hcur & _ & _ & _ & _ & _ &
                    [(-> & _ & _ & Hr) | (hist & -> & _ & _ & _ & Hhc & _ & _ & _ & _ & _ & Hr)]).
    + rewrite filter_cons_True by exact Hcur. cbn [filter length].
      repeat split; try lia.
      * intros Hle. rewrite (IH3 Hle). reflexivity.
      * intros Hge. lra.
    + rewrite filter_cons_False by congruence.
      rewrite filter_cons_True by exact Hcur. cbn [filter length].
      repeat split; try lia.
      * intros Hle. lra.
      * intros Hge. rewrite (IH4 Hge). lia.
Qed.

(** Costs and prices, row by row. *)
Lemma product_blocks_prices (change_rate : Q) (key : Z) (idxs : list Z)
    (blocks : list (list DimProduct.row)) :
  product_blocks change_rate key idxs blocks →
  Forall (λ r, (0 < DimProduct.unit_cost r)%Q ∧ (0 < DimProduct.unit_price r)%Q ∧
               (DimProduct.is_current r = true →
                (5 <= DimProduct.unit_cost r)%Q ∧ (DimProduct.unit_cost r <= 200)%Q ∧
                (DimProduct.unit_cost r < DimProduct.unit_price r)%Q ∧
                (DimProduct.unit_price r <= 2.5 * DimProduct.unit_cost r + 0.005)%Q))
         (concat blocks).
Proof.
  revert key blocks. induction idxs as [|i idxs IH]; intros key [|b blocks] H;
    cbn in H; try contradiction; [constructor|].
  destruct H as [Hb H]. cbn [concat]. apply Forall_app. split; [|eapply IH, H].
  destruct Hb as (cur & _ & Hcur & _ & H5 & H200 & Hp1 & Hp2 &
                  [(-> & _) | (hist & -> & _ & _ & _ & Hhc & _ & _ & _ & Hc & Hp & _)]).
  - repeat constructor; try lra.
  - repeat constructor; try lra; congruence.
Qed.

Section ProductFrame.
Context {RS : RandomStream}.

(** X10. [generate_dim_product] returns, and the surrogate keys of the
    frame it returns are 1, 2, 3, ... in the order of the rows: no key is
    skipped and none is used twice. *)
Theorem generate_dim_product_keys
    (num_products : Z) (change_rate : Q) (seed : Z) (w : World) :
  ∃ rows w',
    generate_dim_product num_products change_rate seed w = (Ok rows, w') ∧
    map DimProduct.product_key rows = range_from 1 (1 + Z.of_nat (length rows)).
Proof.
  destruct (generate_dim_product_blocks num_products change_rate seed w)
    as (rows & w' & E & blocks & -> & Hb).
  exists (concat blocks), w'. split; [exact E|].
  apply (product_blocks_keys _ _ _ _ Hb).
Qed.

(** X11. The frame [generate_dim_product] returns has one current row for
    each of the [num_products] products and at most one historical row
    for each: between [num_products] and [2 * num_products] rows. With a
    change rate of 0 or less no product has a historical row, with a
    change rate of 1 or more every product has one. *)
Theorem generate_dim_product_counts
    (num_products : Z) (change_rate : Q) (seed : Z) (w : World) :
  ∃ rows w',
    generate_dim_product num_products change_rate seed w = (Ok rows, w') ∧
    length (filter (λ r, DimProduct.is_current r = true) rows) = Z.to_nat num_products ∧
    (Z.to_nat num_products <= length rows <= 2 * Z.to_nat num_products)%nat ∧
    ((change_rate <= 0)%Q → length rows = Z.to_nat num_products) ∧
    ((1 <= change_rate)%Q → length rows = (2 * Z.to_nat num_products)%nat).
Proof.
  destruct (generate_dim_product_blocks num_products change_rate seed w)
    as (rows & w' & E & blocks & -> & Hb).
  exists (concat blocks), w'. split; [exact E|].
  rewrite <- (length_range num_products).
  apply (product_blocks_counts _ _ _ _ Hb).
Qed.

(** X12. In the frame [generate_dim_product] returns every cost and every
    price is positive, and in every current row the cost lies between 5
    and 200 and the price is above the cost and at most 2.5 times the
    cost, up to half a cent of rounding. *)
Theorem generate_dim_product_prices
    (num_products : Z) (change_rate : Q) (seed : Z) (w : World) :
  ∃ rows w',
    generate_dim_product num_products change_rate seed w = (Ok rows, w') ∧
    ∀ r, r ∈ rows →
      (0 < DimProduct.unit_cost r)%Q ∧ (0 < DimProduct.unit_price r)%Q ∧
      (DimProduct.is_current r = true →
       (5 <= DimProduct.unit_cost r)%Q ∧ (DimProduct.unit_cost r <= 200)%Q ∧
       (DimProduct.unit_cost r < DimProduct.unit_price r)%Q ∧
       (DimProduct.unit_price r <= 2.5 * DimProduct.unit_cost r + 0.005)%Q).
Proof.
  destruct (generate_dim_product_blocks num_products change_rate seed w)
    as (rows & w' & E & blocks & -> & Hb).
  exists (concat blocks), w'. split; [exact E|].
  apply Forall_forall, (product_blocks_prices _ _ _ _ Hb).
Qed.

End ProductFrame.

(* ===================================================================== *)
(** ** Results: unique keys *)
(* ===================================================================== *)

Lemma filter_eq_nil_notin (k : Z) (l : list Z) :
  k ∉ l → filter (λ x, x = k) l = [].
Proof.
  intros H. induction l as [|x l IH]; [reflexivity|].
  apply not_elem_of_cons in H as [Hne H].
  rewrite filter_cons_False by congruence. apply IH, H.
Qed.

Lemma elem_of_filter_eq_length (k : Z) (l : list Z) :
  k ∈ l → (1 <= length (filter (λ x, x = k) l))%nat.
Proof.
  intros H. assert (Hk : k ∈ filter (λ x, x = k) l)
    by (apply list_elem_of_filter; auto).
  destruct (filter _ l); [inversion Hk | cbn; lia].
Qed.

Lemma mask_any_duplicated (keys : list Z) :
  mask_any (duplicated keys) = false ↔ NoDup keys.
Proof.
  unfold duplicated. rewrite mask_any_map, existsb_false_Forall.
  setoid_rewrite bool_decide_eq_false. rewrite Forall_forall.
  induction keys as [|x l IH].
  - split; [constructor | intros _ k Hk; inversion Hk].
  - rewrite NoDup_cons, <- IH. split.
    + intros H. split.
      * intros Hx. apply (H x); [left|].
        rewrite filter_cons_True by reflexivity. cbn [length].
        pose proof (elem_of_filter_eq_length x l Hx). lia.
      * intros k Hk Hlen. apply (H k); [right; exact Hk|].
        destruct (decide (x = k)) as [->|Hne].
        -- rewrite filter_cons_True by reflexivity. cbn [length]. lia.
        -- rewrite filter_cons_False by exact Hne. exact Hlen.
    + intros [Hx H] k Hk Hlen. apply elem_of_cons in Hk as [->|Hk].
      * rewrite filter_cons_True in Hlen by reflexivity. cbn [length] in Hlen.
        rewrite (filter_eq_nil_notin _ _ Hx) in Hlen. cbn in Hlen. lia.
      * apply (H k Hk). rewrite filter_cons_False in Hlen; [exact Hlen|].
        intros ->. contradiction.
Qed.

(** A frame of one column of distinct keys passes. *)
Lemma validate_dimension_unique_keys_column (c : string) (keys : list Z) :
  keys ≠ [] → NoDup keys →
  validate_dimension_unique_keys [(c, keys)] c = Ok true.
Proof.
  intros Hne Hnd. unfold validate_dimension_unique_keys, df_duplicated, df_empty.
  destruct keys as [|k keys]; [contradiction|].
  cbn [length Nat.eqb df_getitem]. rewrite String.eqb_refl. cbn [res_bind].
  rewrite (proj2 (mask_any_duplicated _) Hnd). reflexivity.
Qed.

(** X13. [validate_dimension_unique_keys] returns [True] on an empty
    frame, whatever its columns. On a frame with rows it returns [True]
    when no key of the column is repeated, raises [ValueError] when one
    is, and raises [KeyError] when the frame has no such column. *)
Theorem validate_dimension_unique_keys_spec (df : DataFrame Z) (key_column : string) :
  if df_empty df
  then validate_dimension_unique_keys df key_column = Ok true
  else
    match df_getitem df key_column with
    | Ok keys =>
        (NoDup keys ∧ validate_dimension_unique_keys df key_column = Ok true) ∨
        (¬ NoDup keys ∧ validation_failure (validate_dimension_unique_keys df key_column))
    | Raise _ => ∃ k, validate_dimension_unique_keys df key_column = Raise (KeyError k)
    end.
Proof.
  unfold validate_dimension_unique_keys, df_duplicated.
  destruct (df_empty df); [reflexivity|].
  destruct (df_getitem df key_column) as [keys|e] eqn:E; cbn [res_bind].
  - destruct (mask_any (duplicated keys)) eqn:Em.
    + right. split; [|eexists; reflexivity].
      intros Hnd. apply mask_any_duplicated in Hnd. congruence.
    + left. split; [apply mask_any_duplicated, Em | reflexivity].
  - clear -E. induction df as [|[c s] rest IH]; cbn [df_getitem] in E.
    + injection E as <-. eexists. reflexivity.
    + destruct (String.eqb c key_column); [discriminate | auto].
Qed.

Lemma NoDup_range_from (a b : Z) : NoDup (range_from a b).
Proof.
  unfold range_from. apply NoDup_fmap_2; [intros ? ?; lia | apply NoDup_seq].
Qed.

Section ProductUniqueKeys.
Context {RS : RandomStream}.

(** X14. The product dimension [generate_dim_product] returns for at
    least one product passes [validate_dimension_unique_keys] on its
    surrogate key [product_key]. *)
Theorem generate_dim_product_unique_keys
    (num_products : Z) (change_rate : Q) (seed : Z) (w : World) :
  1 <= num_products →
  ∃ rows w',
    generate_dim_product num_products change_rate seed w = (Ok rows, w') ∧
    validate_dimension_unique_keys (product_key_frame rows) "product_key" = Ok true.
Proof.
  intros Hn.
  destruct (generate_dim_product_blocks num_products change_rate seed w)
    as (rows & w' & E & blocks & -> & Hb).
  exists (concat blocks), w'. split; [exact E|].
  pose proof (product_blocks_keys _ _ _ _ Hb) as Hk.
  pose proof (product_blocks_counts _ _ _ _ Hb) as (_ & [Hlen _] & _).
  rewrite length_range in Hlen.
  destruct (concat blocks) as [|r0 rows] eqn:Erows; [cbn in Hlen; lia|].
  unfold product_key_frame. rewrite Hk.
  apply validate_dimension_unique_keys_column; [|apply NoDup_range_from].
  rewrite <- Hk. cbn [map]. discriminate.
Qed.

End ProductUniqueKeys.

Lemma generate_dim_product_unique_keys_witness :
  ∃ rows w',
    @generate_dim_product counter_stream 2 0.5 42 demo_world = (Ok rows, w') ∧
    validate_dimension_unique_keys (product_key_frame rows) "product_key" = Ok true.
Proof. apply (@generate_dim_product_unique_keys counter_stream 2 0.5 42 demo_world). lia. Defined.

(* ===================================================================== *)
(** ** Results: the validator of slowly changing dimensions *)
(* ===================================================================== *)

(** *** The order of dates *)

Ltac date_order :=
  unfold effective_le, date_leb, date_ltb in *;
  repeat match goal with
         | H : context [?a <? ?b] |- _ => destruct (Z.ltb_spec a b)
         | |- context [?a <? ?b] => destruct (Z.ltb_spec a b)
         | H : context [?a =? ?b] |- _ => destruct (Z.eqb_spec a b)
         | |- context [?a =? ?b] => destruct (Z.eqb_spec a b)
         end;
  cbn in *; try discriminate; try reflexivity; try lia.

Lemma date_leb_trans (a b c : date) :
  date_leb a b = true → date_leb b c = true → date_leb a c = true.
Proof. intros H1 H2. date_order. Qed.

Lemma date_leb_total (a b : date) : date_leb a b = true ∨ date_leb b a = true.
Proof.
  destruct (date_leb a b) eqn:E; [left; reflexivity | right]. date_order.
Qed.

Lemma date_ltb_leb_false (a b : date) :
  date_ltb a b = true → date_leb b a = false.
Proof. intros H. unfold date_leb. rewrite H. reflexivity. Qed.

Global Instance effective_le_trans : Transitive effective_le.
Proof. intros a b c. unfold effective_le. apply date_leb_trans. Qed.

Global Instance effective_le_total : Total effective_le.
Proof. intros a b. unfold effective_le. apply date_leb_total. Qed.

Lemma sort_by_effective_date_sorts : sorts_by_effective_date sort_by_effective_date.
Proof.
  intros l. unfold sort_by_effective_date. split.
  - apply merge_sort_Permutation.
  - apply Sorted_merge_sort. apply _.
Qed.

(** *** Lists *)

Lemma elem_of_unique (x : string) (l : list string) : x ∈ unique l ↔ x ∈ l.
Proof.
  induction l as [|y l IH]; cbn [unique]; [reflexivity|].
  rewrite !elem_of_cons, list_elem_of_filter, IH.
  destruct (decide (x = y)); tauto.
Qed.

Lemma filter_lookup_pair {A} (P : A → Prop) `{∀ x, Decision (P x)}
    (l : list A) (i j : nat) (a b : A) :
  (i < j)%nat → l !! i = Some a → l !! j = Some b → P a → P b →
  ∃ i' j', (i' < j')%nat ∧ filter P l !! i' = Some a ∧ filter P l !! j' = Some b.
Proof.
  revert i j. induction l as [|x l IH]; intros i j Hij Hi Hj Ha Hb;
    [rewrite lookup_nil in Hi; discriminate|].
  destruct j as [|j]; [lia|]. cbn in Hj.
  destruct i as [|i].
  - cbn in Hi. injection Hi as ->.
    assert (Hin : b ∈ filter P l).
    { apply list_elem_of_filter. split; [exact Hb|].
      eapply list_elem_of_lookup_2, Hj. }
    apply list_elem_of_lookup in Hin as [k Hk].
    exists 0%nat, (S k). rewrite filter_cons_True by exact Ha.
    split; [lia|]. split; [reflexivity | exact Hk].
  - cbn in Hi. destruct (IH i j ltac:(lia) Hi Hj Ha Hb) as (i' & j' & Hlt & Hi' & Hj').
    destruct (decide (P x)) as [Hx|Hx].
    + rewrite filter_cons_True by exact Hx. exists (S i'), (S j').
      split; [lia|]. split; assumption.
    + rewrite filter_cons_False by exact Hx. exists i', j'. auto.
Qed.

(** *** The checks, one by one *)

Lemma overlapping_false_ordered (l : list DimProduct.row) :
  Sorted effective_le l → overlapping l = false →
  ∀ i j a b, (i < j)%nat → l !! i = Some a → l !! j = Some b →
    date_leb (DimProduct.expiration_date a) (DimProduct.effective_date b) = true.
Proof.
  intros Hs. apply (Sorted_StronglySorted _) in Hs.
  induction Hs as [|x l Hs IH Hx]; intros Ho i j a b Hij Hi Hj;
    [rewrite lookup_nil in Hi; discriminate|].
  destruct j as [|j]; [lia|]. cbn in Hj.
  destruct l as [|y l']; [destruct j; discriminate Hj|].
  cbn [overlapping] in Ho. apply orb_false_elim in Ho as [Hxy Ho].
  destruct i as [|i].
  - cbn in Hi. injection Hi as <-.
    assert (Hyb : date_leb (DimProduct.effective_date y) (DimProduct.effective_date b) = true).
    { destruct j as [|j]; cbn in Hj.
      - injection Hj as <-. date_order.
      - apply StronglySorted_inv in Hs as [_ Hy]. rewrite Forall_forall in Hy.
        apply (Hy b). eapply list_elem_of_lookup_2, Hj. }
    eapply date_leb_trans; [|exact Hyb]. unfold date_leb. rewrite Hxy. reflexivity.
  - cbn in Hi. apply (IH Ho i j a b); [lia | exact Hi | exact Hj].
Qed.

Lemma check_overlaps_ok (sort_values : list DimProduct.row → list DimProduct.row)
    (ids : list string) (df : list DimProduct.row) (b : bool) :
  check_overlaps sort_values ids df = Ok b →
  b = true ∧
  ∀ pid, pid ∈ ids →
    overlapping (sort_values (filter (λ r, DimProduct.product_id r = pid) df)) = false.
Proof.
  induction ids as [|pid ids IH]; cbn [check_overlaps].
  - intros [= <-]. split; [reflexivity|]. intros pid H. inversion H.
  - destruct (overlapping _) eqn:E; [discriminate|].
    intros H. destruct (IH H) as [-> Hall]. split; [reflexivity|].
    intros p Hp. apply elem_of_cons in Hp as [->|Hp]; [exact E | apply Hall, Hp].
Qed.

Lemma check_overlaps_pass (sort_values : list DimProduct.row → list DimProduct.row)
    (ids : list string) (df : list DimProduct.row) :
  (∀ pid, pid ∈ ids →
     overlapping (sort_values (filter (λ r, DimProduct.product_id r = pid) df)) = false) →
  check_overlaps sort_values ids df = Ok true.
Proof.
  induction ids as [|pid ids IH]; intros H; cbn [check_overlaps]; [reflexivity|].
  rewrite (H pid) by left. apply IH. intros p Hp. apply H. right. exact Hp.
Qed.

Lemma length_zero_nil {A} (l : list A) : negb (Nat.eqb (length l) 0) = false ↔ l = [].
Proof. destruct l; cbn; split; congruence. Qed.

Lemma filter_nil_Forall {A} (P : A → Prop) `{∀ x, Decision (P x)} (l : list A) :
  filter P l = [] ↔ Forall (λ x, ¬ P x) l.
Proof.
  induction l as [|x l IH]; [split; [constructor | reflexivity]|].
  rewrite Forall_cons. destruct (decide (P x)) as [Hx|Hx].
  - rewrite filter_cons_True by exact Hx. split; [discriminate | tauto].
  - rewrite filter_cons_False by exact Hx. rewrite IH. tauto.
Qed.

(** What the three checks of [validate_scd_type2] amount to. *)
Lemma validate_scd_type2_checks
    (sort_values : list DimProduct.row → list DimProduct.row)
    (df : list DimProduct.row) :
  df ≠ [] →
  (validate_scd_type2 sort_values df = Ok true ↔
   Forall (λ r, date_ltb (DimProduct.effective_date r)
                         (DimProduct.expiration_date r) = true) df ∧
   (∀ pid, (length (current_rows pid df) <= 1)%nat) ∧
   (∀ pid, pid ∈ map DimProduct.product_id df →
      overlapping (sort_values (filter (λ r, DimProduct.product_id r = pid) df))
      = false)).
Proof.
  intros Hne. unfold validate_scd_type2.
  destruct df as [|r0 rest] eqn:Edf; [contradiction|]. rewrite <- Edf. clear Hne.
  set (invalid := filter _ df).
  set (current := filter (λ r, DimProduct.is_current r = true) df).
  set (multiple := filter _ (unique _)).
  assert (H1 : invalid = []
               ↔ Forall (λ r, date_ltb (DimProduct.effective_date r)
                                       (DimProduct.expiration_date r) = true) df).
  { unfold invalid. rewrite (filter_nil_Forall _). apply Forall_iff. intros r.
    unfold date_leb. destruct (date_ltb _ _); cbn; split; congruence. }
  assert (H2 : multiple = [] ↔ ∀ pid, (length (current_rows pid df) <= 1)%nat).
  { unfold multiple. rewrite (filter_nil_Forall _), Forall_forall.
    assert (Hcr : ∀ pid, current_rows pid df
                         = filter (λ r, DimProduct.product_id r = pid) current).
    { intros pid. unfold current_rows, current. rewrite list_filter_filter.
      apply list_filter_iff. intros r. tauto. }
    split.
    - intros H pid. rewrite Hcr.
      destruct (decide (pid ∈ map DimProduct.product_id current)) as [Hin|Hnin].
      + specialize (H pid (proj2 (elem_of_unique _ _) Hin)). lia.
      + replace (filter _ current) with (@nil DimProduct.row); [cbn; lia|].
        symmetry. apply (filter_nil_Forall _), Forall_forall.
        intros r Hr E. apply Hnin. rewrite <- E.
        apply list_elem_of_fmap. exists r. auto.
    - intros H pid _. specialize (H pid). rewrite Hcr in H. lia. }
  destruct (negb (Nat.eqb (length invalid) 0)) eqn:E1.
  - split; [discriminate|]. intros (Hd & _).
    apply H1 in Hd. rewrite Hd in E1. discriminate.
  - apply length_zero_nil in E1.
    destruct (negb (Nat.eqb (length multiple) 0)) eqn:E2.
    + split; [discriminate|]. intros (_ & Hm & _).
      apply H2 in Hm. rewrite Hm in E2. discriminate.
    + apply length_zero_nil in E2. split.
      * intros Hc. apply check_overlaps_ok in Hc as [_ Hall].
        split; [apply H1, E1|]. split; [apply H2, E2|].
        intros pid Hp. apply Hall, elem_of_unique, Hp.
      * intros (_ & _ & Hall). apply check_overlaps_pass.
        intros pid Hp. apply Hall, elem_of_unique, Hp.
Qed.

(** X15. What an accepted frame is sure to satisfy. If
    [validate_scd_type2] returns [True], with any sort that orders rows by
    their effective dates, then every row becomes effective before it
    expires, no natural key has two current rows, and two different rows
    of one natural key never overlap: one of them has expired by the day
    the other becomes effective. *)
Theorem validate_scd_type2_sound
    (sort_values : list DimProduct.row → list DimProduct.row)
    (df : list DimProduct.row) :
  sorts_by_effective_date sort_values →
  validate_scd_type2 sort_values df = Ok true →
  (∀ r, r ∈ df → date_ltb (DimProduct.effective_date r)
                          (DimProduct.expiration_date r) = true) ∧
  (∀ pid, (length (current_rows pid df) <= 1)%nat) ∧
  (∀ i j a b, i ≠ j → df !! i = Some a → df !! j = Some b →
     DimProduct.product_id a = DimProduct.product_id b →
     date_leb (DimProduct.expiration_date a) (DimProduct.effective_date b) = true ∨
     date_leb (DimProduct.expiration_date b) (DimProduct.effective_date a) = true).
Proof.
  intros Hsort Hok.
  assert (Hne : df ≠ []) by (intros ->; discriminate Hok).
  apply (validate_scd_type2_checks _ _ Hne) in Hok as (Hd & Hc & Ho).
  split; [apply Forall_forall, Hd|]. split; [exact Hc|].
  assert (Hlt : ∀ i j a b, (i < j)%nat → df !! i = Some a → df !! j = Some b →
     DimProduct.product_id a = DimProduct.product_id b →
     date_leb (DimProduct.expiration_date a) (DimProduct.effective_date b) = true ∨
     date_leb (DimProduct.expiration_date b) (DimProduct.effective_date a) = true).
  { intros i j a b Hij Hi Hj Hpid.
    set (pid := DimProduct.product_id b) in *.
    set (F := filter (λ r, DimProduct.product_id r = pid) df).
    destruct (filter_lookup_pair (λ r, DimProduct.product_id r = pid) df i j a b
                Hij Hi Hj Hpid eq_refl) as (i' & j' & Hij' & Hi' & Hj').
    fold F in Hi', Hj'.
    destruct (Hsort F) as [Hperm Hsorted].
    symmetry in Hperm. apply Permutation_inj in Hperm as (_ & f & Hinj & Hf).
    rewrite Hf in Hi', Hj'.
    assert (Hov : overlapping (sort_values F) = false).
    { apply Ho. apply list_elem_of_fmap. exists b. split; [reflexivity|].
      eapply list_elem_of_lookup_2, Hj. }
    destruct (lt_eq_lt_dec (f i') (f j')) as [[Hl|He]|Hg].
    - left. apply (overlapping_false_ordered _ Hsorted Hov (f i') (f j')); assumption.
    - apply Hinj in He. lia.
    - right. apply (overlapping_false_ordered _ Hsorted Hov (f j') (f i')); assumption. }
  intros i j a b Hij Hi Hj Hpid.
  destruct (lt_eq_lt_dec i j) as [[Hl|He]|Hg]; [|contradiction|].
  - apply (Hlt i j a b); assumption.
  - destruct (Hlt j i b a Hg Hj Hi (eq_sym Hpid)); auto.
Qed.

Lemma validate_scd_type2_sound_witness :
  (∀ r, r ∈ demo_product_df → date_ltb (DimProduct.effective_date r)
                                       (DimProduct.expiration_date r) = true) ∧
  (∀ pid, (length (current_rows pid demo_product_df) <= 1)%nat) ∧
  (∀ i j a b, i ≠ j → demo_product_df !! i = Some a → demo_product_df !! j = Some b →
     DimProduct.product_id a = DimProduct.product_id b →
     date_leb (DimProduct.expiration_date a) (DimProduct.effective_date b) = true ∨
     date_leb (DimProduct.expiration_date b) (DimProduct.effective_date a) = true).
Proof.
  apply (validate_scd_type2_sound sort_by_effective_date demo_product_df).
  - exact sort_by_effective_date_sorts.
  - vm_compute. reflexivity.
Defined.

(** *** The frame of the product generator passes *)

Lemma product_block_dates (change_rate : Q) (key i : Z) (b : list DimProduct.row) :
  product_block change_rate key i b →
  Forall (λ r, date_ltb (DimProduct.effective_date r)
                        (DimProduct.expiration_date r) = true) b.
Proof.
  intros (cur & _ & _ & Hexp & _ & _ & _ & _ &
          [(-> & _ & Heff & _) | (hist & -> & _ & _ & _ & _ & Hhe & Hhx & Heff & _)]).
  - repeat constructor. rewrite Heff, Hexp. reflexivity.
  - repeat constructor.
    + rewrite Hhe, Hhx. reflexivity.
    + rewrite Heff, Hexp. reflexivity.
Qed.

Lemma product_block_no_overlap
    (sort_values : list DimProduct.row → list DimProduct.row)
    (change_rate : Q) (key i : Z) (b : list DimProduct.row) :
  sorts_by_effective_date sort_values →
  product_block change_rate key i b →
  overlapping (sort_values b) = false.
Proof.
  intros Hsort (cur & _ & _ & Hexp & _ & _ & _ & _ &
                [(-> & _ & Heff & _) | (hist & -> & _ & _ & _ & _ & Hhe & Hhx & Heff & _)]);
    match goal with |- overlapping (sort_values ?b) = _ =>
      destruct (Hsort b) as [Hperm Hsorted] end.
  - apply Permutation_singleton_r in Hperm. rewrite Hperm. reflexivity.
  - pose proof (Permutation_length Hperm) as Hlen.
    destruct (sort_values [hist; cur]) as [|x [|y [|z l]]]; try discriminate Hlen.
    apply Permutation_length_2 in Hperm as [[-> ->] | [-> ->]].
    + cbn [overlapping]. rewrite Heff, Hhx. reflexivity.
    + exfalso. apply Sorted_inv in Hsorted as [_ Hhd]. apply HdRel_inv in Hhd.
      unfold effective_le in Hhd. rewrite Heff, Hhe in Hhd. discriminate Hhd.
Qed.

Lemma product_blocks_each (change_rate : Q) (key : Z) (idxs : list Z)
    (blocks : list (list DimProduct.row)) :
  product_blocks change_rate key idxs blocks →
  Forall (λ b, ∃ k i, product_block change_rate k i b) blocks.
Proof.
  revert key blocks. induction idxs as [|i idxs IH]; intros key [|b blocks] H;
    cbn in H; try contradiction; [constructor|].
  destruct H as [Hb H]. constructor; [eauto | eapply IH, H].
Qed.

(** The rows of one natural key are the rows of one block. *)
Lemma filter_product_id_block (idxs : list Z) (blocks : list (list DimProduct.row)) :
  Forall2 (λ i b, scd2_block (product_id_of i) b) idxs blocks →
  NoDup (map product_id_of idxs) →
  ∀ pid, pid ∈ map DimProduct.product_id (concat blocks) →
    filter (λ r, DimProduct.product_id r = pid) (concat blocks) ∈ blocks.
Proof.
  induction 1 as [|i b idxs blocks Hb Hrest IH]; intros Hnd pid Hpid; cbn in Hpid.
  - inversion Hpid.
  - cbn [map] in Hnd. apply NoDup_cons in Hnd as [Hfresh Hnd].
    cbn [concat]. rewrite filter_app.
    assert (Hbid := scd2_block_product_id _ _ Hb).
    assert (Hrid := scd2_blocks_product_ids _ _ Hrest).
    destruct (decide (pid = product_id_of i)) as [->|Hne].
    + replace (filter _ (concat blocks)) with (@nil DimProduct.row).
      * rewrite app_nil_r.
        assert (Eb : filter (λ r, DimProduct.product_id r = product_id_of i) b = b).
        { clear -Hbid. induction b as [|x b IH]; [reflexivity|].
          rewrite filter_cons_True by (apply Hbid; left).
          f_equal. apply IH. intros r Hr. apply Hbid. right. exact Hr. }
        rewrite Eb. left.
      * symmetry. apply (filter_nil_Forall _), Forall_forall.
        intros r Hr E. apply Hfresh. rewrite <- E. apply Hrid, Hr.
    + replace (filter _ b) with (@nil DimProduct.row).
      * cbn [app]. right. apply IH; [exact Hnd|].
        rewrite map_app in Hpid. apply elem_of_app in Hpid as [Hp|Hp]; [|exact Hp].
        apply list_elem_of_fmap in Hp as (r & -> & Hr).
        exfalso. apply Hne, Hbid, Hr.
      * symmetry. apply (filter_nil_Forall _), Forall_forall.
        intros r Hr E. apply Hne. rewrite <- E. apply Hbid, Hr.
Qed.

Section ProductScd.
Context {RS : RandomStream}.

(** X16. The product dimension [generate_dim_product] returns for at
    least one product passes [validate_scd_type2], with any sort that
    orders rows by their effective dates: a historical row expires on
    the very day the current row becomes effective, which the validator
    does not count as an overlap. *)
Theorem generate_dim_product_passes_scd_type2
    (sort_values : list DimProduct.row → list DimProduct.row)
    (num_products : Z) (change_rate : Q) (seed : Z) (w : World) :
  sorts_by_effective_date sort_values →
  1 <= num_products →
  ∃ rows w',
    generate_dim_product num_products change_rate seed w = (Ok rows, w') ∧
    validate_scd_type2 sort_values rows = Ok true.
Proof.
  intros Hsort Hn.
  destruct (generate_dim_product_blocks num_products change_rate seed w)
    as (rows & w' & E & blocks & -> & Hb).
  exists (concat blocks), w'. split; [exact E|].
  pose proof (product_blocks_counts _ _ _ _ Hb) as (_ & [Hlen _] & _).
  rewrite length_range in Hlen.
  pose proof (product_blocks_scd2 _ _ _ _ Hb) as Hscd.
  pose proof (product_blocks_each _ _ _ _ Hb) as Heach.
  rewrite Forall_forall in Heach.
  apply validate_scd_type2_checks.
  { intros E0. rewrite E0 in Hlen. cbn in Hlen. lia. }
  split; [|split].
  - apply Forall_concat, Forall_forall. intros b Hbin.
    destruct (Heach b Hbin) as (k & i & Hblock).
    apply (product_block_dates _ _ _ _ Hblock).
  - intros pid.
    destruct (decide (pid ∈ map DimProduct.product_id (concat blocks))) as [Hin|Hnin].
    + apply list_elem_of_fmap in Hin as (r & -> & Hr).
      destruct (scd2_blocks_invariant _ _ Hscd (NoDup_product_ids _) r Hr)
        as (c & -> & _). cbn. lia.
    + rewrite current_rows_other; [cbn; lia|].
      intros x Hx Ex. apply Hnin. rewrite <- Ex.
      apply list_elem_of_fmap. exists x. auto.
  - intros pid Hpid.
    pose proof (filter_product_id_block _ _ Hscd (NoDup_product_ids _) pid Hpid) as Hin.
    destruct (Heach _ Hin) as (k & i & Hblock).
    apply (product_block_no_overlap _ _ _ _ _ Hsort Hblock).
Qed.

End ProductScd.

Lemma generate_dim_product_passes_scd_type2_witness :
  ∃ rows w',
    @generate_dim_product counter_stream 2 0.5 42 demo_world = (Ok rows, w') ∧
    validate_scd_type2 sort_by_effective_date rows = Ok true.
Proof.
  apply (@generate_dim_product_passes_scd_type2 counter_stream
           sort_by_effective_date 2 0.5 42 demo_world).
  - exact sort_by_effective_date_sorts.
  - lia.
Defined.

(* ===================================================================== *)
(** ** Results: the rows of the customer dimension *)
(* ===================================================================== *)

Section CustomerRows.
Context {RS : RandomStream}.

Lemma on_day_weaken {A} (t : Z) (m : Gen A) (P Q : A → Prop) :
  returns_on_day t m P → (∀ a, P a → Q a) → returns_on_day t m Q.
Proof.
  intros Hm HPQ w Hw. destruct (Hm w Hw) as (a & w' & E & Hw' & Ha).
  exists a, w'. auto.
Qed.

Lemma on_day_random_randint_range (t a b : Z) :
  a <= b → returns_on_day t (random_randint a b) (λ x, a <= x <= b).
Proof.
  intros Hab. unfold random_randint. destruct (Z.ltb_spec b a); [lia|].
  eapply on_day_bind; [apply on_day_random_randbelow; lia|].
  intros i Hi. apply on_day_ret. cbv beta in Hi |- *. lia.
Qed.

Lemma on_day_random_choice_mem {A} (t : Z) (l : list A) :
  l ≠ [] → returns_on_day t (random_choice l) (λ x, x ∈ l).
Proof.
  intros Hl. unfold random_choice. destruct l as [|x0 l0]; [contradiction|].
  set (l := x0 :: l0).
  eapply on_day_bind; [apply on_day_random_randbelow; unfold l; cbn [length]; lia|].
  intros i Hi. destruct (list_getitem_in_range l i Hi) as (x & E & Hx).
  intros w Hw. exists x, w. unfold lift. rewrite E. auto.
Qed.

Lemma on_day_for_each_prefix {A S} (t : Z) (l : list A) (body : S → A → Gen S)
    (I : list A → S → Prop) (done : list A) (s : S) :
  I done s →
  (∀ pre x s, I pre s → returns_on_day t (body s x) (I (pre ++ [x])%list)) →
  returns_on_day t (for_each l body s) (I (done ++ l)%list).
Proof.
  revert done s. induction l as [|x l IH]; intros done s Hs Hbody; cbn [for_each].
  - rewrite app_nil_r. apply on_day_ret. exact Hs.
  - eapply on_day_bind; [apply Hbody; exact Hs|].
    intros s' Hs'. replace (done ++ x :: l)%list with ((done ++ [x]) ++ l)%list
      by (rewrite <- app_assoc; reflexivity).
    apply IH; [exact Hs' | exact Hbody].
Qed.

(** One turn of the customer loop, on day [t]. *)
Lemma on_day_customer_body (t : Z) (records : list DimCustomer.row) (customer_idx : Z) :
  returns_on_day t (generate_dim_customer_body records customer_idx)
    (λ recs, ∃ r, recs = (records ++ [r])%list ∧ customer_row t customer_idx r).
Proof.
  unfold generate_dim_customer_body.
  eapply on_day_bind; [apply on_day_random_randint_range; lia|]. intros days_ago Hd.
  eapply on_day_bind; [apply on_day_date_today|]. intros today1 ->.
  eapply on_day_bind; [apply on_day_random_randint_range; lia|]. intros age_years Ha.
  eapply on_day_bind; [apply on_day_date_today|]. intros today2 ->.
  eapply on_day_bind; [apply on_day_random_choice_mem; discriminate|].
  intros income_segment Hinc.
  eapply (on_day_bind _ _ _ (λ s, s ∈ segments_for income_segment)).
  { unfold income_segments in Hinc.
    repeat (apply elem_of_cons in Hinc as [-> | Hinc]);
      [| | | | inversion Hinc];
      apply on_day_random_choice_mem; discriminate. }
  intros customer_segment Hseg.
  eapply on_day_bind; [apply on_day_random_random|]. intros r _.
  do 4 (eapply on_day_bind; [apply on_day_faker_call|]; intros ? _).
  eapply on_day_bind; [apply on_day_random_choice_mem; discriminate|].
  intros gender Hg. apply on_day_ret. cbv beta in *.
  eexists. split; [reflexivity|].
  unfold customer_row. cbn.
  split; [reflexivity|]. split; [reflexivity|]. split; [lia|].
  split; [exists age_years; split; [lia | reflexivity]|].
  split; [exact Hinc|]. split; [exact Hseg | exact Hg].
Qed.

(** The customer frame of a run on day [t], row by row. *)
Lemma on_day_generate_dim_customer (t num_customers seed : Z) :
  returns_on_day t (generate_dim_customer num_customers seed)
    (λ rows, Forall2 (customer_row t) (range num_customers) rows).
Proof.
  unfold generate_dim_customer.
  eapply (on_day_bind _ _ _ (λ _, True)).
  { intros v Hv. eexists tt, _. split; [reflexivity|]. split; [exact Hv | exact I]. }
  intros _ _.
  apply (on_day_for_each_prefix t (range num_customers)
           generate_dim_customer_body
           (λ done recs, Forall2 (customer_row t) done recs) [] []).
  - constructor.
  - intros pre x s Hs.
    eapply on_day_weaken; [apply on_day_customer_body|].
    intros recs (r & -> & Hr).
    apply Forall2_app; [exact Hs | constructor; [exact Hr | constructor]].
Qed.

(** X17. [generate_dim_customer] returns one row for each of the
    [num_customers] customers, in order. On day [t] the row of customer
    [i] has the key [i + 1] and the identifier [CUST-] followed by
    [i + 1] on six digits; it is registered within the 1825 days before
    [t]; its date of birth is a whole number of 365-day years, between 18
    and 80, before [t]; and its customer segment is one of the two the
    income segment allows: Gold or Platinum for Premium, Silver or Gold
    for High, Bronze or Silver otherwise. *)
Theorem generate_dim_customer_rows (num_customers seed : Z) (w : World) :
  ∃ rows w',
    generate_dim_customer num_customers seed w = (Ok rows, w') ∧
    Forall2 (customer_row (today w)) (range num_customers) rows.
Proof.
  destruct (on_day_generate_dim_customer (today w) num_customers seed w eq_refl)
    as (rows & w' & E & _ & Hrows).
  exists rows, w'. auto.
Qed.

(** X18. The customer dimension [generate_dim_customer] returns for at
    least one customer passes [validate_dimension_unique_keys] on its
    key [customer_key]. *)
Theorem generate_dim_customer_unique_keys (num_customers seed : Z) (w : World) :
  1 <= num_customers →
  ∃ rows w',
    generate_dim_customer num_customers seed w = (Ok rows, w') ∧
    validate_dimension_unique_keys (customer_key_frame rows) "customer_key" = Ok true.
Proof.
  intros Hn.
  destruct (on_day_generate_dim_customer (today w) num_customers seed w eq_refl)
    as (rows & w' & E & _ & Hrows).
  exists rows, w'. split; [exact E|].
  assert (Hkeys : map DimCustomer.customer_key rows = map (Z.add 1) (range num_customers)).
  { clear -Hrows. induction Hrows as [|i r idxs rows Hr _ IH]; [reflexivity|].
    cbn [map]. rewrite IH. destruct Hr as [-> _]. f_equal. lia. }
  destruct rows as [|r0 rest] eqn:Erows.
  { apply Forall2_length in Hrows. rewrite length_range in Hrows. cbn in Hrows. lia. }
  unfold customer_key_frame. rewrite Hkeys.
  apply validate_dimension_unique_keys_column; [rewrite <- Hkeys; cbn [map]; discriminate|].
  apply NoDup_fmap_2; [intros ? ?; lia|].
  unfold range. apply NoDup_fmap_2; [intros ? ?; lia | apply NoDup_seq].
Qed.

End CustomerRows.

Lemma generate_dim_customer_unique_keys_witness :
  ∃ rows w',
    @generate_dim_customer counter_stream 2 42 demo_world = (Ok rows, w') ∧
    validate_dimension_unique_keys (customer_key_frame rows) "customer_key" = Ok true.
Proof. apply (@generate_dim_customer_unique_keys counter_stream 2 42 demo_world). lia. Defined.

(* ===================================================================== *)
(** ** Results: the rows of the fact table *)
(* ===================================================================== *)

Section FactRows.
Context {RS : RandomStream}.

Lemma ensures_random_randint (a b : Z) :
  ensures (random_randint a b) (λ x, a <= x <= b).
Proof.
  unfold random_randint. destruct (Z.ltb_spec b a);
    [intros w x w' E; discriminate E|].
  eapply ensures_bind;
    [apply returns_ensures, returns_random_randbelow; lia|].
  intros i Hi. apply ensures_ret. cbv beta in Hi |- *. lia.
Qed.

Lemma ensures_df_sample {A} (rows : list A) (weights : option (list Q)) :
  ensures (df_sample rows weights) (λ x, x ∈ rows).
Proof.
  unfold df_sample. destruct rows as [|r0 rows0]; [intros w x w' E; discriminate E|].
  set (rows := r0 :: rows0).
  destruct weights as [ws|].
  - destruct (negb _); [intros w x w' E; discriminate E|].
    destruct (existsb _ ws); [intros w x w' E; discriminate E|].
    destruct (last _) as [total|]; [|intros w x w' E; discriminate E].
    destruct (Qle_bool total 0); [intros w x w' E; discriminate E|].
    intros w x w' E. destruct (next_random (np_random w)) as [u s].
    injection E as E _. apply (list_getitem_elem_of _ _ _ E).
  - intros w x w' E. destruct (next_below _ (np_random w)) as [i s].
    injection E as E _. apply (list_getitem_elem_of _ _ _ E).
Qed.

Lemma one_to_five (x : Z) : x ∈ [1; 2; 3; 4; 5] → 1 <= x <= 5.
Proof.
  intros H. repeat (apply elem_of_cons in H as [-> | H]; [lia|]). inversion H.
Qed.

(** One turn of the loop over the line items. *)
Lemma ensures_line_item_row
    (current_products : list DimProduct.row) (pareto_products : list Q)
    (transaction_id : Z) (transaction_date : date) (transaction_timestamp : datetime)
    (time_key geo_key customer_key payment_key : Z)
    (records : list SalesFact.row) (line_item_id : Z) :
  ensures (generate_sales_fact_line_item current_products pareto_products
             transaction_id transaction_date transaction_timestamp
             time_key geo_key customer_key payment_key records line_item_id)
    (λ recs, ∃ r, recs = (records ++ [r])%list ∧
                  line_item current_products transaction_id transaction_date
                    transaction_timestamp time_key geo_key customer_key payment_key
                    line_item_id r).
Proof.
  cbv beta iota zeta delta [generate_sales_fact_line_item].
  eapply ensures_bind; [apply ensures_any|]. intros product_idx _.
  eapply ensures_bind;
    [apply ensures_lift; intros p Hp; exact (list_getitem_elem_of _ _ _ Hp)|].
  intros p Hp.
  eapply ensures_bind; [apply ensures_random_uniform; lra|]. intros u [Hu Hu'].
  eapply ensures_bind; [apply ensures_random_choices|]. intros quantity Hq.
  apply one_to_five in Hq.
  eapply ensures_bind; [apply ensures_any|]. intros r _.
  set (unit_price := round2 (DimProduct.unit_price p * u)).
  set (revenue := round2 (inject_Z quantity * unit_price)).
  eapply (ensures_bind _ _
            (λ d, d = 0.0%Q ∨ ∃ pct, (0.05 <= pct)%Q ∧ (pct <= 0.25)%Q ∧
                                     d = round2 (revenue * pct))).
  - destruct (Qlt_bool r 0.2).
    + eapply ensures_bind; [apply ensures_random_uniform; lra|].
      intros pct [Hp1 Hp2]. apply ensures_ret. right. exists pct. auto.
    + apply ensures_ret. left. reflexivity.
  - intros discount_amount Hd. apply ensures_ret.
    eexists. split; [reflexivity|]. unfold line_item. cbn.
    repeat (split; [reflexivity|]). split; [exact Hq|].
    split; [exists p, u; repeat split; assumption|].
    split; [exact Hd|]. split; reflexivity.
Qed.

(** The loop over the line items of one transaction. *)
Lemma ensures_line_items
    (current_products : list DimProduct.row) (pareto_products : list Q)
    (transaction_id : Z) (transaction_date : date) (transaction_timestamp : datetime)
    (time_key geo_key customer_key payment_key : Z)
    (records : list SalesFact.row) (ids : list Z) :
  ensures (for_each ids
             (generate_sales_fact_line_item current_products pareto_products
                transaction_id transaction_date transaction_timestamp
                time_key geo_key customer_key payment_key) records)
    (λ recs, ∃ block, recs = (records ++ block)%list ∧
                      Forall2 (line_item current_products transaction_id
                                 transaction_date transaction_timestamp time_key
                                 geo_key customer_key payment_key) ids block).
Proof.
  assert (H : ensures (for_each ids
             (generate_sales_fact_line_item current_products pareto_products
                transaction_id transaction_date transaction_timestamp
                time_key geo_key customer_key payment_key) records)
    (λ recs, ∃ block, recs = (records ++ block)%list ∧
                      Forall2 (line_item current_products transaction_id
                                 transaction_date transaction_timestamp time_key
                                 geo_key customer_key payment_key) ([] ++ ids) block)).
  { apply (ensures_for_each_prefix ids _
             (λ done recs, ∃ block, recs = (records ++ block)%list ∧
                Forall2 (line_item current_products transaction_id
                           transaction_date transaction_timestamp time_key
                           geo_key customer_key payment_key) done block)
             [] records).
    - exists []. split; [rewrite app_nil_r; reflexivity | constructor].
    - intros pre x s (block & -> & Hb).
      eapply ensures_weaken; [apply ensures_line_item_row|].
      intros recs (r & -> & Hr). exists (block ++ [r])%list.
      split; [rewrite app_assoc; reflexivity|].
      apply Forall2_app; [exact Hb | constructor; [exact Hr | constructor]]. }
  exact H.
Qed.

(** One turn of the loop over the transactions. *)
Lemma ensures_transaction_block
    (time_df : list DimTime.row) (geo_df : list DimGeography.row)
    (current_products : list DimProduct.row) (customer_df : list DimCustomer.row)
    (payment_df : list DimPayment.row) (pareto_products pareto_customers : list Q)
    (records : list SalesFact.row) (transaction_id i : Z) :
  ensures (generate_sales_fact_transaction time_df geo_df current_products
             customer_df payment_df pareto_products pareto_customers
             (records, transaction_id) i)
    (λ st, ∃ block, st = ((records ++ block)%list, transaction_id + 1) ∧
                    transaction time_df geo_df current_products customer_df
                      payment_df transaction_id block).
Proof.
  cbv beta iota zeta delta [generate_sales_fact_transaction].
  eapply ensures_bind; [apply ensures_df_sample|]. intros t Ht.
  eapply ensures_bind; [apply ensures_random_randint|]. intros hour Hh.
  eapply ensures_bind; [apply ensures_random_randint|]. intros minute Hm.
  eapply ensures_bind; [apply ensures_random_randint|]. intros second Hs.
  eapply ensures_bind; [apply ensures_df_sample|]. intros g Hg.
  eapply ensures_bind; [apply ensures_any|]. intros customer_idx _.
  eapply ensures_bind;
    [apply ensures_lift; intros c Hc; exact (list_getitem_elem_of _ _ _ Hc)|].
  intros c Hc.
  eapply ensures_bind; [apply ensures_df_sample|]. intros m Hpay.
  eapply ensures_bind; [apply ensures_random_choices|]. intros num_line_items Hn.
  apply one_to_five in Hn.
  eapply ensures_bind; [apply ensures_line_items|].
  intros recs (block & -> & Hblock). apply ensures_ret.
  exists block. split; [reflexivity|].
  exists t, g, c, m, hour, minute, second, num_line_items.
  repeat (split; [assumption|]). exact Hblock.
Qed.

Lemma transactions_app
    (time_df : list DimTime.row) (geo_df : list DimGeography.row)
    (current_products : list DimProduct.row) (customer_df : list DimCustomer.row)
    (payment_df : list DimPayment.row)
    (tid : Z) (blocks : list (list SalesFact.row)) (b : list SalesFact.row) :
  transactions time_df geo_df current_products customer_df payment_df tid blocks →
  transaction time_df geo_df current_products customer_df payment_df
    (tid + Z.of_nat (length blocks)) b →
  transactions time_df geo_df current_products customer_df payment_df tid
    (blocks ++ [b]).
Proof.
  revert tid. induction blocks as [|b0 blocks IH]; intros tid H Hb; cbn in *.
  - rewrite Z.add_0_r in Hb. auto.
  - destruct H as [H0 H]. split; [exact H0|]. apply IH; [exact H|].
    replace (tid + 1 + Z.of_nat (length blocks)) with (tid + Z.pos (Pos.of_succ_nat (length blocks))) by lia.
    exact Hb.
Qed.

Lemma ensures_fact_loop
    (time_df : list DimTime.row) (geo_df : list DimGeography.row)
    (current_products : list DimProduct.row) (customer_df : list DimCustomer.row)
    (payment_df : list DimPayment.row) (pareto_products pareto_customers : list Q)
    (idxs : list Z) :
  ensures (for_each idxs
             (generate_sales_fact_transaction time_df geo_df current_products
                customer_df payment_df pareto_products pareto_customers) ([], 1))
    (λ st, ∃ blocks, fst st = concat blocks ∧ length blocks = length idxs ∧
                     transactions time_df geo_df current_products customer_df
                       payment_df 1 blocks).
Proof.
  assert (H : ensures (for_each idxs
             (generate_sales_fact_transaction time_df geo_df current_products
                customer_df payment_df pareto_products pareto_customers) ([], 1))
    (λ st, ∃ blocks, st = (concat blocks, 1 + Z.of_nat (length blocks)) ∧
                     length blocks = length ([] ++ idxs) ∧
                     transactions time_df geo_df current_products customer_df
                       payment_df 1 blocks)).
  { apply (ensures_for_each_prefix idxs _
             (λ done st, ∃ blocks, st = (concat blocks, 1 + Z.of_nat (length blocks)) ∧
                length blocks = length done ∧
                transactions time_df geo_df current_products customer_df
                  payment_df 1 blocks)
             [] ([], 1)).
    - exists []. repeat split.
    - intros pre x st (blocks & -> & Hlen & Hb).
      eapply ensures_weaken; [apply ensures_transaction_block|].
      intros st (block & -> & Hblock). exists (blocks ++ [block])%list.
      split; [|split].
      + rewrite concat_app. cbn [concat]. rewrite app_nil_r, length_app.
        cbn [length]. f_equal. lia.
      + rewrite !length_app, Hlen. reflexivity.
      + apply transactions_app; assumption. }
  eapply ensures_weaken; [exact H|].
  intros st (blocks & -> & Hlen & Hb). exists blocks. auto.
Qed.

(** The frame [generate_sales_fact] returns is made of its transactions,
    numbered from 1, in their order. *)
Lemma generate_sales_fact_transactions
    (num_transactions : Z)
    (time_df : list DimTime.row) (geo_df : list DimGeography.row)
    (product_df : list DimProduct.row) (customer_df : list DimCustomer.row)
    (payment_df : list DimPayment.row) (pareto_factor : Q) (seed : Z) :
  time_df ≠ [] → geo_df ≠ [] → customer_df ≠ [] → payment_df ≠ [] →
  (∃ p, p ∈ product_df ∧ DimProduct.is_current p = true) →
  (0 < pareto_factor)%Q → (pareto_factor < 1)%Q →
  returns (generate_sales_fact num_transactions time_df geo_df product_df
             customer_df payment_df pareto_factor seed)
    (λ rows, ∃ blocks,
       rows = concat blocks ∧ length blocks = Z.to_nat num_transactions ∧
       transactions time_df geo_df
         (filter (λ p, DimProduct.is_current p = true) product_df)
         customer_df payment_df 1 blocks).
Proof.
  intros Ht Hg Hc Hpay Hp H0 H1.
  eapply returns_weaken.
  - apply (returns_and_ensures _ (λ _, True)
             (λ rows, ∃ blocks,
                rows = concat blocks ∧ length blocks = Z.to_nat num_transactions ∧
                transactions time_df geo_df
                  (filter (λ p, DimProduct.is_current p = true) product_df)
                  customer_df payment_df 1 blocks)).
    + intros w.
      destruct (generate_sales_fact_returns num_transactions time_df geo_df product_df
                  customer_df payment_df pareto_factor seed w Ht Hg Hc Hpay Hp H0 H1)
        as (rows & w' & E & _).
      exists rows, w'. auto.
    + unfold generate_sales_fact.
      do 3 (eapply ensures_bind; [apply ensures_any | intros ? _]).
      eapply ensures_bind; [apply ensures_fact_loop|].
      intros [records tid] (blocks & E & Hlen & Hb). cbn [fst] in E. subst records.
      apply ensures_ret. exists blocks. rewrite length_range in Hlen. auto.
  - intros rows [_ H]. exact H.
Qed.

End FactRows.

(** *** What the transactions say about the rows *)

Lemma transactions_rows
    (time_df : list DimTime.row) (geo_df : list DimGeography.row)
    (current_products : list DimProduct.row) (customer_df : list DimCustomer.row)
    (payment_df : list DimPayment.row)
    (tid : Z) (blocks : list (list SalesFact.row)) :
  transactions time_df geo_df current_products customer_df payment_df tid blocks →
  ∀ r, r ∈ concat blocks →
    ∃ t g c m hour minute second transaction_id line_item_id,
      t ∈ time_df ∧ g ∈ geo_df ∧ c ∈ customer_df ∧ m ∈ payment_df ∧
      8 <= hour <= 21 ∧ 0 <= minute <= 59 ∧ 0 <= second <= 59 ∧
      tid <= transaction_id < tid + Z.of_nat (length blocks) ∧
      1 <= line_item_id <= 5 ∧
      line_item current_products transaction_id (DimTime.date t)
        (mkdatetime (DimTime.date t) hour minute second)
        (DimTime.time_key t) (DimGeography.geo_key g)
        (DimCustomer.customer_key c) (DimPayment.payment_key m) line_item_id r.
Proof.
  revert tid. induction blocks as [|b blocks IH]; intros tid H r Hr; cbn in Hr.
  - inversion Hr.
  - destruct H as [Hb H]. apply elem_of_app in Hr as [Hr|Hr].
    + destruct Hb as (t & g & c & m & hour & minute & second & k &
                      Ht & Hg & Hc & Hm & Hh & Hmi & Hs & Hk & Hitems).
      apply list_elem_of_lookup in Hr as [i Hi].
      destruct (Forall2_lookup_r _ _ _ _ _ Hitems Hi) as (lid & Hlid & Hrow).
      apply list_elem_of_lookup_2, elem_of_range_from in Hlid.
      exists t, g, c, m, hour, minute, second, tid, lid.
      repeat (split; [first [assumption | cbn [length]; lia]|]). exact Hrow.
    + destruct (IH _ H r Hr)
        as (t & g & c & m & hour & minute & second & tid' & lid &
            Ht & Hg & Hc & Hm & Hh & Hmi & Hs & Htid & Hlid & Hrow).
      exists t, g, c, m, hour, minute, second, tid', lid.
      repeat (split; [first [assumption | cbn [length]; lia]|]). exact Hrow.
Qed.

Lemma mult_is_cents (z : Z) (c : Q) : is_cents c → is_cents (inject_Z z * c).
Proof.
  intros [k Hk]. exists (z * k). rewrite Hk, inject_Z_mult. field.
Qed.

(** The measures of a line item whose product has a non-negative cost
    and a non-negative price. *)
Lemma line_item_amounts (current_products : list DimProduct.row)
    (tid : Z) (d : date) (ts : datetime) (tk gk ck pk lid : Z) (r : SalesFact.row) :
  (∀ p, p ∈ current_products →
        (0 <= DimProduct.unit_cost p)%Q ∧ (0 <= DimProduct.unit_price p)%Q) →
  line_item current_products tid d ts tk gk ck pk lid r →
  (0 <= SalesFact.unit_price r)%Q ∧ (0 <= SalesFact.cost r)%Q ∧
  is_cents (SalesFact.discount_amount r) ∧
  (0 <= SalesFact.discount_amount r)%Q ∧
  (SalesFact.discount_amount r
   <= inject_Z (SalesFact.quantity r) * SalesFact.unit_price r)%Q ∧
  (SalesFact.revenue r
   == inject_Z (SalesFact.quantity r) * SalesFact.unit_price r
      - SalesFact.discount_amount r)%Q ∧
  (SalesFact.profit r == SalesFact.revenue r - SalesFact.cost r)%Q.
Proof.
  intros Hprices (_ & _ & _ & _ & _ & _ & _ & _ & Hq &
                  (p & u & Hp & _ & Hu & Hu' & Hup & Hcost) & Hd & Hrev & Hprofit).
  destruct (Hprices p Hp) as [Hpc Hpp].
  set (q := inject_Z (SalesFact.quantity r)) in *.
  assert (Hq0 : (0 <= q)%Q).
  { unfold q. change 0%Q with (inject_Z 0). rewrite <- Zle_Qle. lia. }
  assert (Hup0 : (0 <= SalesFact.unit_price r)%Q).
  { rewrite Hup. apply round2_nonneg. apply Qmult_le_0_compat; lra. }
  assert (Hupc : is_cents (SalesFact.unit_price r))
    by (rewrite Hup; apply round2_is_cents).
  assert (Hgc : is_cents (q * SalesFact.unit_price r))
    by (apply mult_is_cents, Hupc).
  assert (Hg0 : (0 <= q * SalesFact.unit_price r)%Q)
    by (apply Qmult_le_0_compat; assumption).
  pose proof (round2_of_cents _ Hgc) as Egross.
  assert (Hcost0 : (0 <= SalesFact.cost r)%Q).
  { rewrite Hcost. apply round2_nonneg. apply Qmult_le_0_compat; assumption. }
  assert (Hdc : is_cents (SalesFact.discount_amount r)).
  { destruct Hd as [-> | (pct & _ & _ & ->)];
      [apply zero_is_cents | apply round2_is_cents]. }
  assert (Hd0 : (0 <= SalesFact.discount_amount r)%Q).
  { destruct Hd as [-> | (pct & Hp1 & _ & ->)]; [lra|].
    apply round2_nonneg. apply Qmult_le_0_compat; [|lra].
    rewrite Egross. exact Hg0. }
  assert (Hdle : (SalesFact.discount_amount r <= q * SalesFact.unit_price r)%Q).
  { destruct Hd as [-> | (pct & Hp1 & Hp2 & ->)]; [lra|].
    apply round2_le_cents; [exact Hgc|].
    rewrite Egross.
    rewrite (Qmult_comm _ pct).
    apply Qle_trans with (1 * (q * SalesFact.unit_price r))%Q;
      [apply Qmult_le_compat_r; [lra | exact Hg0] | lra]. }
  assert (Erev : (SalesFact.revenue r
                  == q * SalesFact.unit_price r - SalesFact.discount_amount r)%Q).
  { rewrite Hrev.
    rewrite (round2_of_cents _ (minus_is_cents _ _ (round2_is_cents _) Hdc)).
    rewrite Egross. reflexivity. }
  assert (Hrc : is_cents (SalesFact.revenue r)) by (rewrite Hrev; apply round2_is_cents).
  assert (Hcc : is_cents (SalesFact.cost r)) by (rewrite Hcost; apply round2_is_cents).
  repeat (split; [assumption|]).
  rewrite Hprofit at 1. apply round2_of_cents, minus_is_cents; assumption.
Qed.

Lemma transactions_lookup
    (time_df : list DimTime.row) (geo_df : list DimGeography.row)
    (current_products : list DimProduct.row) (customer_df : list DimCustomer.row)
    (payment_df : list DimPayment.row)
    (tid : Z) (blocks : list (list SalesFact.row)) (k : nat) (b : list SalesFact.row) :
  transactions time_df geo_df current_products customer_df payment_df tid blocks →
  blocks !! k = Some b →
  transaction time_df geo_df current_products customer_df payment_df
    (tid + Z.of_nat k) b.
Proof.
  revert tid k. induction blocks as [|b0 blocks IH]; intros tid k H Hk;
    [destruct k; discriminate Hk|].
  destruct H as [H0 H]. destruct k as [|k]; cbn in Hk.
  - injection Hk as <-. rewrite Z.add_0_r. exact H0.
  - replace (tid + Z.of_nat (S k)) with (tid + 1 + Z.of_nat k) by lia.
    apply IH; assumption.
Qed.

(** The rows of one transaction: their number, their numbering and what
    they share. *)
Lemma transaction_shape
    (time_df : list DimTime.row) (geo_df : list DimGeography.row)
    (current_products : list DimProduct.row) (customer_df : list DimCustomer.row)
    (payment_df : list DimPayment.row) (tid : Z) (b : list SalesFact.row) :
  transaction time_df geo_df current_products customer_df payment_df tid b →
  (1 <= length b <= 5)%nat ∧
  map SalesFact.line_item_id b = range_from 1 (1 + Z.of_nat (length b)) ∧
  ∃ t hour minute second,
    t ∈ time_df ∧ 8 <= hour <= 21 ∧ 0 <= minute <= 59 ∧ 0 <= second <= 59 ∧
    ∀ r, r ∈ b →
      SalesFact.transaction_id r = tid ∧
      SalesFact.transaction_date r = DimTime.date t ∧
      SalesFact.time_key r = DimTime.time_key t ∧
      SalesFact.transaction_timestamp r
      = mkdatetime (DimTime.date t) hour minute second.
Proof.
  intros (t & g & c & m & hour & minute & second & k &
          Ht & Hg & Hc & Hm & Hh & Hmi & Hs & Hk & Hitems).
  pose proof (Forall2_length _ _ _ Hitems) as Hlen.
  rewrite length_range_from in Hlen.
  split; [lia|]. split.
  - replace (1 + Z.of_nat (length b)) with (k + 1) by lia.
    clear -Hitems. induction Hitems as [|i r ids rows Hr _ IH]; [reflexivity|].
    cbn [map]. rewrite IH. destruct Hr as (_ & -> & _). reflexivity.
  - exists t, hour, minute, second. repeat (split; [assumption|]).
    intros r Hr. apply list_elem_of_lookup in Hr as [i Hi].
    destruct (Forall2_lookup_r _ _ _ _ _ Hitems Hi)
      as (lid & _ & (H1 & _ & H3 & H4 & H5 & _)).
    auto.
Qed.

(** No two rows share their transaction and their line item number. *)
Lemma transactions_NoDup
    (time_df : list DimTime.row) (geo_df : list DimGeography.row)
    (current_products : list DimProduct.row) (customer_df : list DimCustomer.row)
    (payment_df : list DimPayment.row)
    (tid : Z) (blocks : list (list SalesFact.row)) :
  transactions time_df geo_df current_products customer_df payment_df tid blocks →
  NoDup (map (λ r, (SalesFact.transaction_id r, SalesFact.line_item_id r))
             (concat blocks)).
Proof.
  revert tid. induction blocks as [|b blocks IH]; intros tid H; [constructor|].
  destruct H as [Hb H]. cbn [concat]. rewrite map_app. apply NoDup_app.
  destruct (transaction_shape _ _ _ _ _ _ _ Hb)
    as (_ & Hids & t & h & mi & s & _ & _ & _ & _ & Hrows).
  split; [|split].
  - apply (NoDup_fmap_1 snd). rewrite <- list_fmap_compose.
    change (snd ∘ _ <$> b) with (map SalesFact.line_item_id b).
    rewrite Hids. apply NoDup_range_from.
  - intros [x y] Hin1 Hin2.
    apply list_elem_of_fmap in Hin1 as (r1 & E1 & Hr1).
    apply list_elem_of_fmap in Hin2 as (r2 & E2 & Hr2).
    injection E1 as -> ->. injection E2 as E2 _.
    destruct (Hrows r1 Hr1) as (Htid1 & _).
    destruct (transactions_rows _ _ _ _ _ _ _ H r2 Hr2)
      as (? & ? & ? & ? & ? & ? & ? & tid2 & ? & _ & _ & _ & _ & _ & _ & _ & Htid2 & _ & Hrow).
    destruct Hrow as (Htid2' & _). lia.
  - apply (IH _ H).
Qed.

(** Every key of a row is a key of its dimension. *)
Lemma transactions_keys_resolve
    (time_df : list DimTime.row) (geo_df : list DimGeography.row)
    (product_df : list DimProduct.row) (customer_df : list DimCustomer.row)
    (payment_df : list DimPayment.row)
    (tid : Z) (blocks : list (list SalesFact.row)) :
  transactions time_df geo_df
    (filter (λ p, DimProduct.is_current p = true) product_df)
    customer_df payment_df tid blocks →
  ∀ r, r ∈ concat blocks →
    (∃ t, t ∈ time_df ∧ SalesFact.time_key r = DimTime.time_key t ∧
          SalesFact.transaction_date r = DimTime.date t) ∧
    SalesFact.geo_key r ∈ map DimGeography.geo_key geo_df ∧
    (∃ p, p ∈ product_df ∧ DimProduct.is_current p = true ∧
          SalesFact.product_key r = DimProduct.product_key p) ∧
    SalesFact.customer_key r ∈ map DimCustomer.customer_key customer_df ∧
    SalesFact.payment_key r ∈ map DimPayment.payment_key payment_df.
Proof.
  intros Hb r Hr.
  destruct (transactions_rows _ _ _ _ _ _ _ Hb r Hr)
    as (t & g & c & m & hour & minute & second & tid' & lid &
        Ht' & Hg' & Hc' & Hm' & _ & _ & _ & _ & _ & Hrow).
  destruct Hrow as (_ & _ & Hd & _ & Htk & Hgk & Hck & Hpk & _ &
                    (p & u & Hpin & Hprod & _) & _).
  apply list_elem_of_filter in Hpin as [Hcur Hpin].
  split; [exists t; auto|].
  split; [rewrite Hgk; apply list_elem_of_fmap; eauto|].
  split; [exists p; auto|].
  split; [rewrite Hck | rewrite Hpk]; apply list_elem_of_fmap; eauto.
Qed.

Section FactFrame.
Context {RS : RandomStream}.

(** X19. On non-empty dimensions [generate_sales_fact] returns a frame
    in which every foreign key resolves: [time_key] and
    [transaction_date] are those of one row of the time dimension,
    [geo_key], [customer_key] and [payment_key] are keys of their
    dimensions, and [product_key] is the key of a current product. *)
Theorem generate_sales_fact_keys_resolve
    (num_transactions : Z)
    (time_df : list DimTime.row) (geo_df : list DimGeography.row)
    (product_df : list DimProduct.row) (customer_df : list DimCustomer.row)
    (payment_df : list DimPayment.row) (pareto_factor : Q) (seed : Z) (w : World) :
  time_df ≠ [] → geo_df ≠ [] → customer_df ≠ [] → payment_df ≠ [] →
  (∃ p, p ∈ product_df ∧ DimProduct.is_current p = true) →
  (0 < pareto_factor)%Q → (pareto_factor < 1)%Q →
  ∃ rows w',
    generate_sales_fact num_transactions time_df geo_df product_df customer_df
      payment_df pareto_factor seed w = (Ok rows, w') ∧
    ∀ r, r ∈ rows →
      (∃ t, t ∈ time_df ∧ SalesFact.time_key r = DimTime.time_key t ∧
            SalesFact.transaction_date r = DimTime.date t) ∧
      SalesFact.geo_key r ∈ map DimGeography.geo_key geo_df ∧
      (∃ p, p ∈ product_df ∧ DimProduct.is_current p = true ∧
            SalesFact.product_key r = DimProduct.product_key p) ∧
      SalesFact.customer_key r ∈ map DimCustomer.customer_key customer_df ∧
      SalesFact.payment_key r ∈ map DimPayment.payment_key payment_df.
Proof.
  intros Ht Hg Hc Hpay Hp H0 H1.
  destruct (generate_sales_fact_transactions num_transactions time_df geo_df product_df
              customer_df payment_df pareto_factor seed Ht Hg Hc Hpay Hp H0 H1 w)
    as (rows & w' & E & blocks & -> & Hlen & Hb).
  exists (concat blocks), w'. split; [exact E|].
  apply (transactions_keys_resolve _ _ _ _ _ _ _ Hb).
Qed.

(** X20. The frame [generate_sales_fact] returns is made of
    [num_transactions] transactions in order, the [k]-th numbered [k]:
    each has between one and five rows, numbered 1, 2, ... by
    [line_item_id], which share the date and key of one row of the time
    dimension and a timestamp on that date between 8:00:00 and 21:59:59.
    No two rows of the frame have the same pair of [transaction_id] and
    [line_item_id]. *)
Theorem generate_sales_fact_line_items
    (num_transactions : Z)
    (time_df : list DimTime.row) (geo_df : list DimGeography.row)
    (product_df : list DimProduct.row) (customer_df : list DimCustomer.row)
    (payment_df : list DimPayment.row) (pareto_factor : Q) (seed : Z) (w : World) :
  time_df ≠ [] → geo_df ≠ [] → customer_df ≠ [] → payment_df ≠ [] →
  (∃ p, p ∈ product_df ∧ DimProduct.is_current p = true) →
  (0 < pareto_factor)%Q → (pareto_factor < 1)%Q →
  ∃ rows w' blocks,
    generate_sales_fact num_transactions time_df geo_df product_df customer_df
      payment_df pareto_factor seed w = (Ok rows, w') ∧
    rows = concat blocks ∧ length blocks = Z.to_nat num_transactions ∧
    (∀ k b, blocks !! k = Some b →
       (1 <= length b <= 5)%nat ∧
       map SalesFact.line_item_id b = range_from 1 (1 + Z.of_nat (length b)) ∧
       ∃ t hour minute second,
         t ∈ time_df ∧ 8 <= hour <= 21 ∧ 0 <= minute <= 59 ∧ 0 <= second <= 59 ∧
         ∀ r, r ∈ b →
           SalesFact.transaction_id r = 1 + Z.of_nat k ∧
           SalesFact.transaction_date r = DimTime.date t ∧
           SalesFact.time_key r = DimTime.time_key t ∧
           SalesFact.transaction_timestamp r
           = mkdatetime (DimTime.date t) hour minute second) ∧
    NoDup (map (λ r, (SalesFact.transaction_id r, SalesFact.line_item_id r)) rows).
Proof.
  intros Ht Hg Hc Hpay Hp H0 H1.
  destruct (generate_sales_fact_transactions num_transactions time_df geo_df product_df
              customer_df payment_df pareto_factor seed Ht Hg Hc Hpay Hp H0 H1 w)
    as (rows & w' & E & blocks & -> & Hlen & Hb).
  exists (concat blocks), w', blocks. split; [exact E|].
  split; [reflexivity|]. split; [exact Hlen|]. split.
  - intros k b Hk.
    apply (transaction_shape _ _ _ _ _ _ _ (transactions_lookup _ _ _ _ _ _ _ _ _ Hb Hk)).
  - apply (transactions_NoDup _ _ _ _ _ _ _ Hb).
Qed.

(** X21. When the costs and prices of the products lie between 0 and
    10^6, the measures of every row [generate_sales_fact] returns are
    consistent: the quantity is between 1 and 5, no measure but the
    profit is negative, the discount is at most the gross amount
    [quantity * unit_price], the revenue is within 10^-6 of the gross
    amount minus the discount and the profit within 10^-6 of the revenue
    minus the cost. On the exact amounts both differences are 0; the
    bound on the prices keeps every amount below 10^7, where the
    rounding of binary floats moves a sum or a product by less than
    10^-8, so the margin holds for the floats of the code as well. *)
Theorem generate_sales_fact_measures
    (num_transactions : Z)
    (time_df : list DimTime.row) (geo_df : list DimGeography.row)
    (product_df : list DimProduct.row) (customer_df : list DimCustomer.row)
    (payment_df : list DimPayment.row) (pareto_factor : Q) (seed : Z) (w : World) :
  time_df ≠ [] → geo_df ≠ [] → customer_df ≠ [] → payment_df ≠ [] →
  (∃ p, p ∈ product_df ∧ DimProduct.is_current p = true) →
  (0 < pareto_factor)%Q → (pareto_factor < 1)%Q →
  Forall (prices_within (10 ^ 6)) product_df →
  ∃ rows w',
    generate_sales_fact num_transactions time_df geo_df product_df customer_df
      payment_df pareto_factor seed w = (Ok rows, w') ∧
    ∀ r, r ∈ rows →
      1 <= SalesFact.quantity r <= 5 ∧
      (0 <= SalesFact.unit_price r)%Q ∧ (0 <= SalesFact.cost r)%Q ∧
      (0 <= SalesFact.discount_amount r)%Q ∧
      (SalesFact.discount_amount r
       <= inject_Z (SalesFact.quantity r) * SalesFact.unit_price r)%Q ∧
      revenue_within 1e-6 r ∧ profit_within 1e-6 r.
Proof.
  intros Ht Hg Hc Hpay Hp H0 H1 Hprices.
  destruct (generate_sales_fact_transactions num_transactions time_df geo_df product_df
              customer_df payment_df pareto_factor seed Ht Hg Hc Hpay Hp H0 H1 w)
    as (rows & w' & E & blocks & -> & Hlen & Hb).
  exists (concat blocks), w'. split; [exact E|].
  intros r Hr.
  destruct (transactions_rows _ _ _ _ _ _ _ Hb r Hr)
    as (t & g & c & m & hour & minute & second & tid & lid &
        _ & _ & _ & _ & _ & _ & _ & _ & _ & Hrow).
  assert (Hcp : ∀ p, p ∈ filter (λ p, DimProduct.is_current p = true) product_df →
                     (0 <= DimProduct.unit_cost p)%Q ∧ (0 <= DimProduct.unit_price p)%Q).
  { intros p Hpin. apply list_elem_of_filter in Hpin as [_ Hpin].
    rewrite Forall_forall in Hprices.
    destruct (Hprices p Hpin) as [[? _] [? _]]. split; assumption. }
  destruct (line_item_amounts _ _ _ _ _ _ _ _ _ _ Hcp Hrow)
    as (Hup & Hcost & _ & Hd0 & Hdle & Hrev & Hprofit).
  destruct Hrow as (_ & _ & _ & _ & _ & _ & _ & _ & Hq & _).
  assert (Hzero : ∀ x y : Q, (x == y)%Q → (Qabs (x - y) <= 1e-6)%Q).
  { intros x y Hxy. assert (Ez : (x - y == 0)%Q) by (rewrite Hxy; ring).
    rewrite Ez. discriminate. }
  unfold revenue_within, profit_within. auto 10.
Qed.

End FactFrame.

Lemma generate_sales_fact_keys_resolve_witness :
  ∃ rows w',
    @generate_sales_fact counter_stream 2 demo_time_df demo_geo_df demo_product_df
      demo_customer_df demo_payment_df 0.8 42 demo_world = (Ok rows, w') ∧
    ∀ r, r ∈ rows →
      (∃ t, t ∈ demo_time_df ∧ SalesFact.time_key r = DimTime.time_key t ∧
            SalesFact.transaction_date r = DimTime.date t) ∧
      SalesFact.geo_key r ∈ map DimGeography.geo_key demo_geo_df ∧
      (∃ p, p ∈ demo_product_df ∧ DimProduct.is_current p = true ∧
            SalesFact.product_key r = DimProduct.product_key p) ∧
      SalesFact.customer_key r ∈ map DimCustomer.customer_key demo_customer_df ∧
      SalesFact.payment_key r ∈ map DimPayment.payment_key demo_payment_df.
Proof.
  apply (@generate_sales_fact_keys_resolve counter_stream 2 demo_time_df demo_geo_df
           demo_product_df demo_customer_df demo_payment_df 0.8 42 demo_world);
    try discriminate; try reflexivity.
  eexists. split; [right; left | reflexivity].
Defined.

Lemma generate_sales_fact_line_items_witness :
  ∃ rows w' blocks,
    @generate_sales_fact counter_stream 2 demo_time_df demo_geo_df demo_product_df
      demo_customer_df demo_payment_df 0.8 42 demo_world = (Ok rows, w') ∧
    rows = concat blocks ∧ length blocks = Z.to_nat 2 ∧
    (∀ k b, blocks !! k = Some b →
       (1 <= length b <= 5)%nat ∧
       map SalesFact.line_item_id b = range_from 1 (1 + Z.of_nat (length b)) ∧
       ∃ t hour minute second,
         t ∈ demo_time_df ∧ 8 <= hour <= 21 ∧ 0 <= minute <= 59 ∧ 0 <= second <= 59 ∧
         ∀ r, r ∈ b →
           SalesFact.transaction_id r = 1 + Z.of_nat k ∧
           SalesFact.transaction_date r = DimTime.date t ∧
           SalesFact.time_key r = DimTime.time_key t ∧
           SalesFact.transaction_timestamp r
           = mkdatetime (DimTime.date t) hour minute second) ∧
    NoDup (map (λ r, (SalesFact.transaction_id r, SalesFact.line_item_id r)) rows).
Proof.
  apply (@generate_sales_fact_line_items counter_stream 2 demo_time_df demo_geo_df
           demo_product_df demo_customer_df demo_payment_df 0.8 42 demo_world);
    try discriminate; try reflexivity.
  eexists. split; [right; left | reflexivity].
Defined.

Lemma demo_product_prices : Forall (prices_within (10 ^ 6)) demo_product_df.
Proof. repeat constructor; discriminate. Qed.

Lemma generate_sales_fact_measures_witness :
  ∃ rows w',
    @generate_sales_fact counter_stream 2 demo_time_df demo_geo_df demo_product_df
      demo_customer_df demo_payment_df 0.8 42 demo_world = (Ok rows, w') ∧
    ∀ r, r ∈ rows →
      1 <= SalesFact.quantity r <= 5 ∧
      (0 <= SalesFact.unit_price r)%Q ∧ (0 <= SalesFact.cost r)%Q ∧
      (0 <= SalesFact.discount_amount r)%Q ∧
      (SalesFact.discount_amount r
       <= inject_Z (SalesFact.quantity r) * SalesFact.unit_price r)%Q ∧
      revenue_within 1e-6 r ∧ profit_within 1e-6 r.
Proof.
  apply (@generate_sales_fact_measures counter_stream 2 demo_time_df demo_geo_df
           demo_product_df demo_customer_df demo_payment_df 0.8 42 demo_world);
    try discriminate; try reflexivity.
  - eexists. split; [right; left | reflexivity].
  - exact demo_product_prices.
Defined.

(** *** The fact frame under the validators *)

(** The tests of [validate_fact_measures] on a generated row: none fires
    but the revenue test, which fires on a discount above one cent. *)
Lemma line_item_tests (current_products : list DimProduct.row)
    (tid : Z) (d : date) (ts : datetime) (tk gk ck pk lid : Z) (r : SalesFact.row) :
  (∀ p, p ∈ current_products →
        (0 <= DimProduct.unit_cost p)%Q ∧ (0 <= DimProduct.unit_price p)%Q) →
  line_item current_products tid d ts tk gk ck pk lid r →
  (revenue_error r = true ↔ (0.01 < SalesFact.discount_amount r)%Q) ∧
  profit_error r = false ∧ negative_measure r = false.
Proof.
  intros Hprices Hrow.
  destruct (line_item_amounts _ _ _ _ _ _ _ _ _ _ Hprices Hrow)
    as (Hup & Hcost & _ & Hd0 & Hdle & Hrev & Hprofit).
  destruct Hrow as (_ & _ & _ & _ & _ & _ & _ & _ & Hq & _).
  split; [|split].
  - unfold revenue_error. rewrite Qlt_bool_true.
    assert (E : (SalesFact.revenue r
                 - inject_Z (SalesFact.quantity r) * SalesFact.unit_price r
                 == - SalesFact.discount_amount r)%Q) by (rewrite Hrev; ring).
    rewrite E, Qabs_opp, Qabs_pos by exact Hd0. reflexivity.
  - unfold profit_error. apply Qlt_bool_false.
    assert (E : (SalesFact.profit r - (SalesFact.revenue r - SalesFact.cost r) == 0)%Q)
      by (rewrite Hprofit; ring).
    rewrite E. discriminate.
  - unfold negative_measure.
    assert (Hq0 : (0 <= inject_Z (SalesFact.quantity r))%Q).
    { change 0%Q with (inject_Z 0). rewrite <- Zle_Qle. lia. }
    assert (Hr0 : (0 <= SalesFact.revenue r)%Q) by (rewrite Hrev; lra).
    repeat (apply orb_false_intro); apply Qlt_bool_false; assumption.
Qed.

Section FactValidation.
Context {RS : RandomStream}.

(** X22. The frame [generate_sales_fact] returns for at least one
    transaction, from products with costs and prices between 0 and 10^6,
    passes [validate_fact_measures] when no row has a discount above
    0.009, and is refused with [ValueError] as soon as one row has a
    discount of 0.011 or more: the validator compares the revenue with
    the amount before discount, so a discount of two cents is an error
    of two cents. On every such frame the validator does one or the
    other. The discounts of the rows are whole cents, and the two bounds
    stay 0.001 away from the tolerance 0.01 of the validator, which on
    amounts below 10^7 is far more than the rounding of binary floats
    moves the difference it tests. *)
Theorem generate_sales_fact_validation_by_discount
    (num_transactions : Z)
    (time_df : list DimTime.row) (geo_df : list DimGeography.row)
    (product_df : list DimProduct.row) (customer_df : list DimCustomer.row)
    (payment_df : list DimPayment.row) (pareto_factor : Q) (seed : Z) (w : World) :
  1 <= num_transactions →
  time_df ≠ [] → geo_df ≠ [] → customer_df ≠ [] → payment_df ≠ [] →
  (∃ p, p ∈ product_df ∧ DimProduct.is_current p = true) →
  (0 < pareto_factor)%Q → (pareto_factor < 1)%Q →
  Forall (prices_within (10 ^ 6)) product_df →
  ∃ rows w',
    generate_sales_fact num_transactions time_df geo_df product_df customer_df
      payment_df pareto_factor seed w = (Ok rows, w') ∧
    ((∀ r, r ∈ rows → (SalesFact.discount_amount r <= 0.009)%Q) →
     fst (validate_fact_measures (fact_frame rows)) = Ok true) ∧
    ((∃ r, r ∈ rows ∧ (0.011 <= SalesFact.discount_amount r)%Q) →
     validation_failure (fst (validate_fact_measures (fact_frame rows)))) ∧
    (fst (validate_fact_measures (fact_frame rows)) = Ok true ∨
     validation_failure (fst (validate_fact_measures (fact_frame rows)))).
Proof.
  intros Hn Ht Hg Hc Hpay Hp H0 H1 Hprices.
  destruct (generate_sales_fact_transactions num_transactions time_df geo_df product_df
              customer_df payment_df pareto_factor seed Ht Hg Hc Hpay Hp H0 H1 w)
    as (rows & w' & E & blocks & -> & Hlen & Hb).
  exists (concat blocks), w'. split; [exact E|].
  assert (Hcp : ∀ p, p ∈ filter (λ p, DimProduct.is_current p = true) product_df →
                     (0 <= DimProduct.unit_cost p)%Q ∧ (0 <= DimProduct.unit_price p)%Q).
  { intros p Hpin. apply list_elem_of_filter in Hpin as [_ Hpin].
    rewrite Forall_forall in Hprices.
    destruct (Hprices p Hpin) as [[? _] [? _]]. split; assumption. }
  assert (Htests : ∀ r, r ∈ concat blocks →
            (revenue_error r = true ↔ (0.01 < SalesFact.discount_amount r)%Q) ∧
            profit_error r = false ∧ negative_measure r = false).
  { intros r Hr.
    destruct (transactions_rows _ _ _ _ _ _ _ Hb r Hr)
      as (t & g & c & m & hour & minute & second & tid & lid &
          _ & _ & _ & _ & _ & _ & _ & _ & _ & Hrow).
    apply (line_item_tests _ _ _ _ _ _ _ _ _ _ Hcp Hrow). }
  assert (Hne : concat blocks ≠ []).
  { destruct blocks as [|b blocks]; [cbn in Hlen; lia|].
    destruct Hb as [Hb _].
    destruct (transaction_shape _ _ _ _ _ _ _ Hb) as ([Hl _] & _).
    destruct b; [cbn in Hl; lia | discriminate]. }
  assert (Hpe : existsb profit_error (concat blocks) = false).
  { apply existsb_false_Forall, Forall_forall. intros r Hr. apply (Htests r Hr). }
  assert (Hnm : existsb negative_measure (concat blocks) = false).
  { apply existsb_false_Forall, Forall_forall. intros r Hr. apply (Htests r Hr). }
  pose proof (validate_fact_measures_run (concat blocks) Hne) as Hrun.
  cbv zeta in Hrun. rewrite Hpe, Hnm, !orb_false_r in Hrun.
  split; [|split].
  - intros Hlow. destruct Hrun as [[Hbad _] | [_ Hok]]; [|exact Hok].
    apply existsb_exists in Hbad as (r & Hr & Hre).
    apply list_elem_of_In in Hr.
    apply (Htests r Hr) in Hre. specialize (Hlow r Hr). lra.
  - intros (r & Hr & Hhigh). destruct Hrun as [[_ Hfail] | [Hgood _]]; [exact Hfail|].
    apply existsb_false_Forall in Hgood.
    rewrite Forall_forall in Hgood. specialize (Hgood r Hr).
    assert (Hlt : (0.01 < SalesFact.discount_amount r)%Q) by lra.
    apply (Htests r Hr) in Hlt. congruence.
  - destruct Hrun as [[_ Hfail] | [_ Hok]]; [right; exact Hfail | left; exact Hok].
Qed.

End FactValidation.

Lemma generate_sales_fact_validation_by_discount_witness :
  ∃ rows w',
    @generate_sales_fact counter_stream 2 demo_time_df demo_geo_df demo_product_df
      demo_customer_df demo_payment_df 0.8 42 demo_world = (Ok rows, w') ∧
    ((∀ r, r ∈ rows → (SalesFact.discount_amount r <= 0.009)%Q) →
     fst (validate_fact_measures (fact_frame rows)) = Ok true) ∧
    ((∃ r, r ∈ rows ∧ (0.011 <= SalesFact.discount_amount r)%Q) →
     validation_failure (fst (validate_fact_measures (fact_frame rows)))) ∧
    (fst (validate_fact_measures (fact_frame rows)) = Ok true ∨
     validation_failure (fst (validate_fact_measures (fact_frame rows)))).
Proof.
  apply (@generate_sales_fact_validation_by_discount counter_stream 2
           demo_time_df demo_geo_df demo_product_df demo_customer_df demo_payment_df
           0.8 42 demo_world);
    try discriminate; try reflexivity.
  - eexists. split; [right; left | reflexivity].
  - exact demo_product_prices.
Defined.

(** *** The referential check of the command line *)

(** The dimension each foreign key of the command line is checked
    against. *)
Lemma find_generated_dimension (time geo product customer payment : DataFrame Z) :
  let items := [ ("dim_time", time); ("dim_geography", geo); ("dim_product", product);
                 ("dim_customer", customer); ("dim_payment", payment) ] in
  find_dimension (str_replace "_key" "" "time_key") items = Some time ∧
  find_dimension (str_replace "_key" "" "geo_key") items = Some geo ∧
  find_dimension (str_replace "_key" "" "product_key") items = Some product ∧
  find_dimension (str_replace "_key" "" "customer_key") items = Some customer ∧
  find_dimension (str_replace "_key" "" "payment_key") items = Some payment.
Proof. repeat split; vm_compute; reflexivity. Qed.

Lemma orphans_empty (fk_values pk_values : list Z) :
  (∀ x, x ∈ fk_values → x ∈ pk_values) → orphans fk_values pk_values = ∅.
Proof.
  intros H. unfold orphans. apply elem_of_equiv_empty_L. intros x Hx.
  apply elem_of_difference in Hx as [H1 H2]. apply H2.
  apply elem_of_list_to_set, H. apply elem_of_list_to_set in H1. exact H1.
Qed.

Lemma key_frame_cons {R} (key_column : string) (key : R → Z) (rows : list R) :
  rows ≠ [] → key_frame key_column key rows = [(key_column, map key rows)].
Proof. destruct rows; [contradiction | reflexivity]. Qed.

Section FactIntegrity.
Context {RS : RandomStream}.

(** X23. The referential check of the generation command passes on what
    the generators hand it: for the fact frame [generate_sales_fact]
    returns for at least one transaction, the dimension frames it was
    given and the five foreign keys of the command,
    [check_referential_integrity] answers [valid = True] with no orphan
    count and no orphan record. *)
Theorem generate_sales_fact_referential_integrity
    (num_transactions : Z)
    (time_df : list DimTime.row) (geo_df : list DimGeography.row)
    (product_df : list DimProduct.row) (customer_df : list DimCustomer.row)
    (payment_df : list DimPayment.row) (pareto_factor : Q) (seed : Z) (w : World) :
  1 <= num_transactions →
  time_df ≠ [] → geo_df ≠ [] → customer_df ≠ [] → payment_df ≠ [] →
  (∃ p, p ∈ product_df ∧ DimProduct.is_current p = true) →
  (0 < pareto_factor)%Q → (pareto_factor < 1)%Q →
  ∃ rows w',
    generate_sales_fact num_transactions time_df geo_df product_df customer_df
      payment_df pareto_factor seed w = (Ok rows, w') ∧
    fst (check_referential_integrity generated_foreign_keys
           (generated_frames rows time_df geo_df product_df customer_df payment_df))
    = Ok (mkIntegrityResult true ∅ ∅).
Proof.
  intros Hn Ht Hg Hc Hpay Hp H0 H1.
  destruct (generate_sales_fact_transactions num_transactions time_df geo_df product_df
              customer_df payment_df pareto_factor seed Ht Hg Hc Hpay Hp H0 H1 w)
    as (rows & w' & E & blocks & -> & Hlen & Hb).
  exists (concat blocks), w'. split; [exact E|].
  pose proof (transactions_keys_resolve _ _ _ _ _ _ _ Hb) as Hkeys.
  assert (Hne : concat blocks ≠ []).
  { destruct blocks as [|b blocks]; [cbn in Hlen; lia|].
    destruct Hb as [Hb _].
    destruct (transaction_shape _ _ _ _ _ _ _ Hb) as ([Hl _] & _).
    destruct b; [cbn in Hl; lia | discriminate]. }
  assert (Hprod : product_df ≠ []).
  { destruct Hp as (p & Hpin & _). intros ->. inversion Hpin. }
  set (rows := concat blocks) in *.
  set (fs := generated_frames rows time_df geo_df product_df customer_df payment_df).
  destruct (find_generated_dimension
              (key_frame "time_key" DimTime.time_key time_df)
              (key_frame "geo_key" DimGeography.geo_key geo_df)
              (key_frame "product_key" DimProduct.product_key product_df)
              (key_frame "customer_key" DimCustomer.customer_key customer_df)
              (key_frame "payment_key" DimPayment.payment_key payment_df))
    as (F1 & F2 & F3 & F4 & F5).
  assert (Hfact : fact_df fs = fact_key_frame rows) by reflexivity.
  assert (Efact : fact_key_frame rows =
    [ ("transaction_id", map SalesFact.transaction_id rows);
      ("line_item_id", map SalesFact.line_item_id rows);
      ("time_key", map SalesFact.time_key rows);
      ("geo_key", map SalesFact.geo_key rows);
      ("product_key", map SalesFact.product_key rows);
      ("customer_key", map SalesFact.customer_key rows);
      ("payment_key", map SalesFact.payment_key rows);
      ("quantity", map SalesFact.quantity rows) ])
    by (destruct rows; [contradiction | reflexivity]).
  assert (C1 : column_values fs "time_key" "time_key"
               = Some (map SalesFact.time_key rows, map DimTime.time_key time_df)).
  { unfold column_values. cbn [dimension_dfs fs generated_frames]. rewrite F1.
    rewrite (key_frame_cons _ _ _ Ht), Hfact, Efact. reflexivity. }
  assert (C2 : column_values fs "geo_key" "geo_key"
               = Some (map SalesFact.geo_key rows, map DimGeography.geo_key geo_df)).
  { unfold column_values. cbn [dimension_dfs fs generated_frames]. rewrite F2.
    rewrite (key_frame_cons _ _ _ Hg), Hfact, Efact. reflexivity. }
  assert (C3 : column_values fs "product_key" "product_key"
               = Some (map SalesFact.product_key rows,
                       map DimProduct.product_key product_df)).
  { unfold column_values. cbn [dimension_dfs fs generated_frames]. rewrite F3.
    rewrite (key_frame_cons _ _ _ Hprod), Hfact, Efact. reflexivity. }
  assert (C4 : column_values fs "customer_key" "customer_key"
               = Some (map SalesFact.customer_key rows,
                       map DimCustomer.customer_key customer_df)).
  { unfold column_values. cbn [dimension_dfs fs generated_frames]. rewrite F4.
    rewrite (key_frame_cons _ _ _ Hc), Hfact, Efact. reflexivity. }
  assert (C5 : column_values fs "payment_key" "payment_key"
               = Some (map SalesFact.payment_key rows,
                       map DimPayment.payment_key payment_df)).
  { unfold column_values. cbn [dimension_dfs fs generated_frames]. rewrite F5.
    rewrite (key_frame_cons _ _ _ Hpay), Hfact, Efact. reflexivity. }
  assert (O1 : orphans (map SalesFact.time_key rows) (map DimTime.time_key time_df) = ∅).
  { apply orphans_empty. intros x Hx. apply list_elem_of_fmap in Hx as (r & -> & Hr).
    destruct (Hkeys r Hr) as ((t & Htin & -> & _) & _).
    apply list_elem_of_fmap. eauto. }
  assert (O2 : orphans (map SalesFact.geo_key rows)
                       (map DimGeography.geo_key geo_df) = ∅).
  { apply orphans_empty. intros x Hx. apply list_elem_of_fmap in Hx as (r & -> & Hr).
    apply (Hkeys r Hr). }
  assert (O3 : orphans (map SalesFact.product_key rows)
                       (map DimProduct.product_key product_df) = ∅).
  { apply orphans_empty. intros x Hx. apply list_elem_of_fmap in Hx as (r & -> & Hr).
    destruct (Hkeys r Hr) as (_ & _ & (p & Hpin & _ & ->) & _).
    apply list_elem_of_fmap. eauto. }
  assert (O4 : orphans (map SalesFact.customer_key rows)
                       (map DimCustomer.customer_key customer_df) = ∅).
  { apply orphans_empty. intros x Hx. apply list_elem_of_fmap in Hx as (r & -> & Hr).
    apply (Hkeys r Hr). }
  assert (O5 : orphans (map SalesFact.payment_key rows)
                       (map DimPayment.payment_key payment_df) = ∅).
  { apply orphans_empty. intros x Hx. apply list_elem_of_fmap in Hx as (r & -> & Hr).
    apply (Hkeys r Hr). }
  unfold check_referential_integrity, generated_foreign_keys.
  cbn [check_referential_integrity_loop]. unfold cbind.
  rewrite (check_body_run fs _ _ _ _ _ C1), O1.
  rewrite bool_decide_eq_false_2 by (intros H; apply H; reflexivity).
  rewrite (check_body_run fs _ _ _ _ _ C2), O2.
  rewrite bool_decide_eq_false_2 by (intros H; apply H; reflexivity).
  rewrite (check_body_run fs _ _ _ _ _ C3), O3.
  rewrite bool_decide_eq_false_2 by (intros H; apply H; reflexivity).
  rewrite (check_body_run fs _ _ _ _ _ C4), O4.
  rewrite bool_decide_eq_false_2 by (intros H; apply H; reflexivity).
  rewrite (check_body_run fs _ _ _ _ _ C5), O5.
  rewrite bool_decide_eq_false_2 by (intros H; apply H; reflexivity).
  reflexivity.
Qed.

End FactIntegrity.

Lemma generate_sales_fact_referential_integrity_witness :
  ∃ rows w',
    @generate_sales_fact counter_stream 2 demo_time_df demo_geo_df demo_product_df
      demo_customer_df demo_payment_df 0.8 42 demo_world = (Ok rows, w') ∧
    fst (check_referential_integrity generated_foreign_keys
           (generated_frames rows demo_time_df demo_geo_df demo_product_df
              demo_customer_df demo_payment_df))
    = Ok (mkIntegrityResult true ∅ ∅).
Proof.
  apply (@generate_sales_fact_referential_integrity counter_stream 2 demo_time_df
           demo_geo_df demo_product_df demo_customer_df demo_payment_df 0.8 42
           demo_world);
    try discriminate; try reflexivity.
  eexists. split; [right; left | reflexivity].
Defined.

(* ===================================================================== *)
(** ** Results: weights and empty runs *)
(* ===================================================================== *)

(** The divisions of [_create_pareto_weights] are all defined. *)
Lemma pareto_weights_total (n : Z) (factor : Q) :
  ∃ w, _create_pareto_weights n factor = Ok w ∧ length w = Z.to_nat n.
Proof.
  destruct (Z.le_gt_cases n 0) as [Hn|Hn].
  - exists []. unfold _create_pareto_weights, range.
    replace (Z.to_nat n) with 0%nat by lia. split; reflexivity.
  - destruct (Z.eq_dec n 1) as [->|Hne].
    + exists [(factor / 1)%Q]. split; reflexivity.
    + pose proof (pareto_weights_blocks n factor ltac:(lia)) as Hw. cbv zeta in Hw.
      pose proof (top_20_pct_bounds n ltac:(lia)) as Htop.
      eexists. split; [exact Hw|].
      rewrite length_app, !length_replicate. lia.
Qed.

(** X24. [_create_pareto_weights] never raises: for every item count and
    every factor it returns a list of [max(n, 0)] weights. The divisor
    [n - top_20_pct] is zero only for a single item, and then the branch
    that divides by it is not taken. When the factor lies between 0 and 1
    no weight is negative. *)
Theorem pareto_weights_never_raise (n : Z) (factor : Q) :
  ∃ w, _create_pareto_weights n factor = Ok w ∧ length w = Z.to_nat n ∧
       ((0 <= factor)%Q → (factor <= 1)%Q → Forall (λ x, (0 <= x)%Q) w).
Proof.
  destruct (pareto_weights_total n factor) as (w & Hw & Hlen).
  exists w. split; [exact Hw|]. split; [exact Hlen|]. intros H0 H1.
  destruct (Z.le_gt_cases n 0) as [Hn|Hn].
  - destruct w; [constructor | cbn in Hlen; lia].
  - destruct (Z.eq_dec n 1) as [->|Hne].
    + injection Hw as <-. constructor; [|constructor].
      change (0 <= factor / 1)%Q. apply Qle_shift_div_l; lra.
    + pose proof (pareto_weights_blocks n factor ltac:(lia)) as Hb. cbv zeta in Hb.
      pose proof (top_20_pct_bounds n ltac:(lia)) as Htop.
      rewrite Hb in Hw. injection Hw as <-.
      set (top := Z.max 1 (n / 5)) in *.
      assert (Ht : (0 < inject_Z top)%Q).
      { change 0%Q with (inject_Z 0). rewrite <- Zlt_Qlt. lia. }
      assert (Hr : (0 < inject_Z (n - top))%Q).
      { change 0%Q with (inject_Z 0). rewrite <- Zlt_Qlt. lia. }
      apply Forall_app. split; apply Forall_replicate;
        (apply Qle_shift_div_l; [assumption | lra]).
Qed.

Section EmptyRuns.
Context {RS : RandomStream}.

(** X25. Asked for no transaction, [generate_sales_fact] returns the
    empty frame for every product frame with at least one row, whatever
    else it is given: empty dimensions of time, geography, customers and
    payments, no current product and any Pareto factor included. The
    loop that samples the dimensions is not entered. The product frame
    is the one frame the function reads before the loop, by its column
    [is_current]; a frame built from at least one record has that
    column, a frame built from none need not. *)
Theorem generate_sales_fact_no_transactions
    (num_transactions : Z)
    (time_df : list DimTime.row) (geo_df : list DimGeography.row)
    (product_df : list DimProduct.row) (customer_df : list DimCustomer.row)
    (payment_df : list DimPayment.row) (pareto_factor : Q) (seed : Z) (w : World) :
  num_transactions <= 0 →
  product_df ≠ [] →
  ∃ w', generate_sales_fact num_transactions time_df geo_df product_df customer_df
          payment_df pareto_factor seed w = (Ok [], w').
Proof.
  intros Hn _. revert w.
  assert (H : returns (generate_sales_fact num_transactions time_df geo_df product_df
                         customer_df payment_df pareto_factor seed) (λ rows, rows = [])).
  { unfold generate_sales_fact.
    eapply returns_bind; [apply returns_DataGenerator|]. intros _ _.
    destruct (pareto_weights_total
                (Z.of_nat (length (filter (λ p, DimProduct.is_current p = true)
                                          product_df))) pareto_factor)
      as (wp & Hwp & _).
    destruct (pareto_weights_total (Z.of_nat (length customer_df)) pareto_factor)
      as (wc & Hwc & _).
    eapply returns_bind; [exact (returns_lift _ _ (λ _, True) Hwp I)|]. intros ? _.
    eapply returns_bind; [exact (returns_lift _ _ (λ _, True) Hwc I)|]. intros ? _.
    unfold range. replace (Z.to_nat num_transactions) with 0%nat by lia.
    cbn [seq map for_each].
    eapply (returns_bind _ _ (λ st, st = ([], 1))); [apply returns_ret; reflexivity|].
    intros st ->. apply returns_ret. reflexivity. }
  intros w. destruct (H w) as (rows & w' & E & ->). exists w'. exact E.
Qed.

End EmptyRuns.

Lemma generate_sales_fact_no_transactions_witness :
  ∃ w', @generate_sales_fact counter_stream 0 [] [] demo_product_df [] [] 0.8 42
          demo_world
        = (Ok [], w').
Proof.
  apply (@generate_sales_fact_no_transactions counter_stream 0 [] [] demo_product_df
           [] [] 0.8 42 demo_world).
  - lia.
  - discriminate.
Defined.

(** X26. Appending a segment [key=value] to a path sets that key in the
    parsed dictionary and leaves the other keys as the path had them; a
    key the path already gave is overwritten. *)
Theorem parse_partition_path_append (path key value : string) :
  char_in "/" key = false → char_in "=" key = false → char_in "/" value = false →
  PartitionManager.parse_partition_path (path ++ "/" ++ key ++ "=" ++ value)
  = <[key := value]> (PartitionManager.parse_partition_path path).
Proof.
  intros Hk1 Hk2 Hv. unfold PartitionManager.parse_partition_path.
  rewrite (str_app_cons "/" EmptyString), str_app_nil.
  rewrite str_split_app_sep.
  - rewrite foldl_app. cbn [foldl].
    rewrite (str_app_cons "=" EmptyString), str_app_nil.
    rewrite char_in_sep_app, (str_split_first_app _ _ _ Hk2). reflexivity.
  - rewrite char_in_app. cbn [char_in]. rewrite Hk1. cbn.
    change (char_in "/" value = false). exact Hv.
Qed.

Lemma parse_partition_path_append_witness :
  PartitionManager.parse_partition_path ("data/year=2023" ++ "/" ++ "year" ++ "=" ++ "2024")
  = <["year" := "2024"]> (PartitionManager.parse_partition_path "data/year=2023").
Proof. apply parse_partition_path_append; reflexivity. Defined.

Lemma validate_fact_measures_adds_column_witness :
  ("expected_revenue" ∉ df_columns (fact_frame [undiscounted_row])) ∧
  ("expected_revenue"
   ∈ df_columns (snd (validate_fact_measures (fact_frame [undiscounted_row])))).
Proof. apply (validate_fact_measures_adds_column [undiscounted_row]). discriminate. Defined.

Lemma parse_year_quarter (y q : string) :
  char_in "/" y = false → char_in "/" q = false →
  PartitionManager.parse_partition_path ("year=" ++ y ++ "/quarter=" ++ q)
  = <["quarter" := q]> (<["year" := y]> ∅).
Proof.
  intros Hy Hq. unfold PartitionManager.parse_partition_path.
  replace ("year=" ++ y ++ "/quarter=" ++ q)
    with (("year=" ++ y) ++ String "/" ("quarter=" ++ q)).
  2:{ rewrite string_app_assoc. reflexivity. }
  rewrite str_split_app_sep by (rewrite char_in_app, Hq; reflexivity).
  rewrite str_split_no_sep by (rewrite char_in_app, Hy; reflexivity).
  cbn [app foldl]. rewrite !str_app_cons, !str_app_nil.
  cbn [char_in str_split_first]. cbn. reflexivity.
Qed.

(** X27. The key under which [estimate_partition_sizes] adds up the files
    of a partition is [build_partition_path(parse_partition_path(path))]:
    for the directory [year=Y/quarter=Q] of a date that key is
    [quarter=Q/year=Y], the segments in the order of their names and not
    in the order of the directories. *)
Theorem partition_key_sorts_segments (d : date) :
  build_partition_path
    (parsed_partition ("year=" ++ pystr (year d) ++ "/quarter=" ++ quarter_label (month d)))
  = Ok ("quarter=" ++ quarter_label (month d) ++ "/" ++ "year=" ++ pystr (year d)).
Proof.
  unfold parsed_partition.
  rewrite parse_year_quarter.
  - generalize (pystr (year d)) (quarter_label (month d)). intros y q.
    unfold build_partition_path, sorted_items.
    rewrite !fmap_insert, fmap_empty.
    vm_compute. reflexivity.
  - apply pystr_chars. reflexivity.
  - unfold quarter_label. rewrite char_in_app, pystr_chars; reflexivity.
Qed.
